(** * valkeysender: the resilient dispatch engine, embedded in Rocq

    A shallow embedding of the Go package [valkeysender] (config.go,
    serializer.go, types.go, logger.go, sender.go) together with the
    properties its specification states about it, and further
    properties of the code.

    Conventions.
    - Go's [int], [int64] and [time.Duration] are integers [Z]; where the
      source does arithmetic on them the wrap-around is written out.
    - [time.Time] is an instant in nanoseconds ([Z]); the zero [time.Time]
      is [0].
    - Go's [error] is the inductive type [error]; [nil] is [None].
    - Side effects (clock, UUID source, the list store behind the client,
      user callbacks) are threaded explicitly through a [World].
    - The libraries the package calls are not part of the repository:
      the circuit breaker is modelled from section 4.2 of the
      specification, while [encoding/json], the rate limiter, the
      parsers of [strconv] and [time] and the handlers of [log/slog] are
      interfaces ([EncodingJSON], [RateLimiter], [Parsers],
      [SlogHandler]) the package is generic in. *)

From Stdlib Require Import ZArith List Ascii String Bool Lia.
From Stdlib.Strings Require Import Byte.
From Stdlib.Floats Require Import SpecFloat.
From stdpp Require Import base option list strings gmap pretty.

Import ListNotations.
Local Open Scope string_scope.
Local Open Scope list_scope.
Local Open Scope Z_scope.

(** ** Go basics *)

Module Go.

(** The contents of a [[]byte]. *)
Definition bytes : Type := list Byte.byte.

Definition Duration := Z.
Definition Time := Z.

Definition Nanosecond : Duration := 1.
Definition Millisecond : Duration := 1000000.
Definition Second : Duration := 1000000000.
Definition Minute : Duration := 60 * Second.
Definition Hour : Duration := 60 * Minute.

(** [uint32], [uint64] and [int64] arithmetic wraps around. *)
Definition wrap_uint32 (z : Z) : Z := z mod 2 ^ 32.
Definition wrap_uint64 (z : Z) : Z := z mod 2 ^ 64.
Definition wrap_int64 (z : Z) : Z := (z + 2 ^ 63) mod 2 ^ 64 - 2 ^ 63.

(** Go errors: [errors.New]/[fmt.Errorf] without [%w] give [New]; a
    [fmt.Errorf("prefix: %w", err)] gives [Wrap]; the remaining
    constructors are the sentinel values of the libraries the package
    calls. *)
Inductive error : Type :=
| New (msg : string)
| Wrap (prefix : string) (cause : error)
| ErrOpenState          (* gobreaker.ErrOpenState *)
| ErrTooManyRequests    (* gobreaker.ErrTooManyRequests *)
| RedisNil              (* redis.Nil *)
| Canceled              (* context.Canceled *)
| DeadlineExceeded.     (* context.DeadlineExceeded *)

(** [err.Error()] *)
Fixpoint Error (e : error) : string :=
  match e with
  | New msg => msg
  | Wrap prefix cause => (prefix ++ ": " ++ Error cause)%string
  | ErrOpenState => "circuit breaker is open"
  | ErrTooManyRequests => "too many requests"
  | RedisNil => "redis: nil"
  | Canceled => "context canceled"
  | DeadlineExceeded => "context deadline exceeded"
  end.

(** [errors.Unwrap], iterated: the innermost cause. *)
Fixpoint cause (e : error) : error :=
  match e with
  | Wrap _ c => cause c
  | _ => e
  end.

End Go.

Import Go.

(** ** config.go *)

Record Config : Type := mkConfig {
  (* Core Valkey/Redis settings *)
  Address : string;
  Username : string;
  Password : string;
  Database : Z;
  (* Connection settings *)
  DialTimeout : Duration;
  ReadTimeout : Duration;
  WriteTimeout : Duration;
  PoolSize : Z;
  MinIdleConns : Z;
  MaxIdleTime : Duration;
  ConnMaxLifetime : Duration;
  (* Message settings *)
  DefaultQueue : string;
  MessageTTL : Duration;
  MaxRetries : Z;
  RetryDelay : Duration;
  (* Circuit breaker settings *)
  BreakerMaxRequests : Z;
  BreakerInterval : Duration;
  BreakerTimeout : Duration;
  (* Rate limiting *)
  RateLimitRequests : Z;
  RateLimitBurst : Z;
  (* TLS settings *)
  TLSEnabled : bool;
  TLSSkipVerify : bool;
  TLSCertFile : string;
  TLSKeyFile : string;
  TLSCAFile : string;
  (* Logging *)
  LogLevel : string
}.

(** The empty-string tests of the source, as booleans. *)
Definition is_empty (s : string) : bool :=
  match s with EmptyString => true | String _ _ => false end.

(** [(c *Config) validate()]: the first failing check decides the error. *)
Definition validate (c : Config) : option error :=
  if is_empty (Address c) then
    Some (New "address cannot be empty")
  else if (Database c <? 0) || (Database c >? 15) then
    Some (New "database must be between 0 and 15")
  else if DialTimeout c <? Millisecond then
    Some (New "dial timeout must be at least 1ms")
  else if ReadTimeout c <? Millisecond then
    Some (New "read timeout must be at least 1ms")
  else if WriteTimeout c <? Millisecond then
    Some (New "write timeout must be at least 1ms")
  else if PoolSize c <? 1 then
    Some (New "pool size must be at least 1")
  else if MinIdleConns c <? 0 then
    Some (New "min idle connections cannot be negative")
  else if MinIdleConns c >? PoolSize c then
    Some (New "min idle connections cannot exceed pool size")
  else if is_empty (DefaultQueue c) then
    Some (New "default queue name cannot be empty")
  else if MessageTTL c <? Second then
    Some (New "message TTL must be at least 1 second")
  else if MaxRetries c <? 0 then
    Some (New "max retries cannot be negative")
  else if RetryDelay c <? Millisecond then
    Some (New "retry delay must be at least 1ms")
  else if TLSEnabled c then
    if is_empty (TLSCertFile c) || is_empty (TLSKeyFile c) then
      Some (New "TLS cert file and key file are required when TLS is enabled")
    else None
  else None.

(** [LoadConfig], after the environment has been read into [config]: the
    configuration is returned only when [validate] accepts it. *)
Definition LoadConfig_checked (config : Config) : Config + error :=
  match validate config with
  | Some err => inr (Wrap "configuration validation failed" err)
  | None => inl config
  end.

(** The defaults [LoadConfig] uses when the environment sets nothing. *)
Definition defaultConfig : Config := {|
  Address := "localhost:6379";
  Username := "";
  Password := "";
  Database := 0;
  DialTimeout := 5 * Second;
  ReadTimeout := 3 * Second;
  WriteTimeout := 3 * Second;
  PoolSize := 10;
  MinIdleConns := 2;
  MaxIdleTime := 5 * Minute;
  ConnMaxLifetime := Hour;
  DefaultQueue := "user-registrations";
  MessageTTL := 24 * Hour;
  MaxRetries := 3;
  RetryDelay := Second;
  BreakerMaxRequests := 5;
  BreakerInterval := 2 * Minute;
  BreakerTimeout := 60 * Second;
  RateLimitRequests := 1000;
  RateLimitBurst := 2000;
  TLSEnabled := false;
  TLSSkipVerify := false;
  TLSCertFile := "";
  TLSKeyFile := "";
  TLSCAFile := "";
  LogLevel := "INFO"
|}.

(** The validation rules as the specification lists them (section 6):
    address non-empty; database index within the store's range; all
    (dial/read/write) timeouts at least one time unit; pool size at least
    1; min idle at most pool size; default queue non-empty; message TTL at
    least one second; TLS requires cert and key when enabled. *)
Definition spec_valid (c : Config) : Prop :=
  Address c <> "" /\
  0 <= Database c <= 15 /\
  Millisecond <= DialTimeout c /\
  Millisecond <= ReadTimeout c /\
  Millisecond <= WriteTimeout c /\
  1 <= PoolSize c /\
  MinIdleConns c <= PoolSize c /\
  DefaultQueue c <> "" /\
  Second <= MessageTTL c /\
  (TLSEnabled c = true -> TLSCertFile c <> "" /\ TLSKeyFile c <> "").

(** What [validate] checks: the listed rules and three more (min idle
    connections, max retries and the retry delay). *)
Definition code_valid (c : Config) : Prop :=
  spec_valid c /\
  0 <= MinIdleConns c /\
  0 <= MaxRetries c /\
  Millisecond <= RetryDelay c.


(** ** config.go: reading the environment *)

(** The process environment is a map from the names of the variables
    that are set to their values. [os.Getenv] gives the empty string for
    a variable that is not set. *)
Definition Getenv (env : gmap string string) (key : string) : string := default "" (env !! key).

(** The parsers of the Go standard library that [LoadConfig] calls
    ([strconv] and [time], not part of the repository): each returns a
    value and an error. *)
Class Parsers : Type := {
  strconv_Atoi : string -> Z * option error;
  strconv_ParseUint : string -> Z -> Z -> Z * option error;
  strconv_ParseBool : string -> bool * option error;
  time_ParseDuration : string -> Duration * option error
}.

Section Environment.
Context `{Parsers}.

Definition getEnvOrDefault (env : gmap string string) (key defaultValue : string) : string :=
  let value := Getenv env key in
  if negb (is_empty value) then value else defaultValue.

Definition parseDurationOrDefault (env : gmap string string) (key defaultValue : string) : Duration :=
  let value := Getenv env key in
  let fallback := fst (time_ParseDuration defaultValue) in
  if negb (is_empty value) then
    match time_ParseDuration value with
    | (duration, None) => duration
    | (_, Some _) => fallback
    end
  else fallback.

Definition parseIntOrDefault (env : gmap string string) (key defaultValue : string) : Z :=
  let value := Getenv env key in
  let fallback := fst (strconv_Atoi defaultValue) in
  if negb (is_empty value) then
    match strconv_Atoi value with
    | (intVal, None) => intVal
    | (_, Some _) => fallback
    end
  else fallback.

Definition parseUint32OrDefault (env : gmap string string) (key defaultValue : string) : Z :=
  let value := Getenv env key in
  let fallback := wrap_uint32 (fst (strconv_ParseUint defaultValue 10 32)) in
  if negb (is_empty value) then
    match strconv_ParseUint value 10 32 with
    | (intVal, None) => wrap_uint32 intVal
    | (_, Some _) => fallback
    end
  else fallback.

Definition parseBoolOrDefault (env : gmap string string) (key defaultValue : string) : bool :=
  let value := Getenv env key in
  let fallback := fst (strconv_ParseBool defaultValue) in
  if negb (is_empty value) then
    match strconv_ParseBool value with
    | (boolVal, None) => boolVal
    | (_, Some _) => fallback
    end
  else fallback.

(** [LoadConfig]: the configuration is read from the environment, with
    a default for what the environment leaves out, and returned only
    when [validate] accepts it. *)
Definition LoadConfig (env : gmap string string) : Config + error :=
  LoadConfig_checked {|
    Address := getEnvOrDefault env "VALKEY_SENDER_ADDRESS" "localhost:6379";
    Username := Getenv env "VALKEY_SENDER_USERNAME";
    Password := Getenv env "VALKEY_SENDER_PASSWORD";
    Database := parseIntOrDefault env "VALKEY_SENDER_DATABASE" "0";
    DialTimeout := parseDurationOrDefault env "VALKEY_SENDER_DIAL_TIMEOUT" "5s";
    ReadTimeout := parseDurationOrDefault env "VALKEY_SENDER_READ_TIMEOUT" "3s";
    WriteTimeout := parseDurationOrDefault env "VALKEY_SENDER_WRITE_TIMEOUT" "3s";
    PoolSize := parseIntOrDefault env "VALKEY_SENDER_POOL_SIZE" "10";
    MinIdleConns := parseIntOrDefault env "VALKEY_SENDER_MIN_IDLE_CONNS" "2";
    MaxIdleTime := parseDurationOrDefault env "VALKEY_SENDER_MAX_IDLE_TIME" "5m";
    ConnMaxLifetime := parseDurationOrDefault env "VALKEY_SENDER_CONN_MAX_LIFETIME" "1h";
    DefaultQueue := getEnvOrDefault env "VALKEY_SENDER_DEFAULT_QUEUE" "user-registrations";
    MessageTTL := parseDurationOrDefault env "VALKEY_SENDER_MESSAGE_TTL" "24h";
    MaxRetries := parseIntOrDefault env "VALKEY_SENDER_MAX_RETRIES" "3";
    RetryDelay := parseDurationOrDefault env "VALKEY_SENDER_RETRY_DELAY" "1s";
    BreakerMaxRequests := parseUint32OrDefault env "VALKEY_SENDER_BREAKER_MAX_REQUESTS" "5";
    BreakerInterval := parseDurationOrDefault env "VALKEY_SENDER_BREAKER_INTERVAL" "2m";
    BreakerTimeout := parseDurationOrDefault env "VALKEY_SENDER_BREAKER_TIMEOUT" "60s";
    RateLimitRequests := parseIntOrDefault env "VALKEY_SENDER_RATE_LIMIT_REQUESTS" "1000";
    RateLimitBurst := parseIntOrDefault env "VALKEY_SENDER_RATE_LIMIT_BURST" "2000";
    TLSEnabled := parseBoolOrDefault env "VALKEY_SENDER_TLS_ENABLED" "false";
    TLSSkipVerify := parseBoolOrDefault env "VALKEY_SENDER_TLS_SKIP_VERIFY" "false";
    TLSCertFile := Getenv env "VALKEY_SENDER_TLS_CERT_FILE";
    TLSKeyFile := Getenv env "VALKEY_SENDER_TLS_KEY_FILE";
    TLSCAFile := Getenv env "VALKEY_SENDER_TLS_CA_FILE";
    LogLevel := getEnvOrDefault env "VALKEY_SENDER_LOG_LEVEL" "INFO"
  |}.

(** The variables [LoadConfig] reads as numbers, as durations and as
    booleans. *)
Definition intVariables : list string :=
  ["VALKEY_SENDER_DATABASE"; "VALKEY_SENDER_POOL_SIZE"; "VALKEY_SENDER_MIN_IDLE_CONNS";
   "VALKEY_SENDER_MAX_RETRIES"; "VALKEY_SENDER_RATE_LIMIT_REQUESTS";
   "VALKEY_SENDER_RATE_LIMIT_BURST"].

Definition uint32Variables : list string := ["VALKEY_SENDER_BREAKER_MAX_REQUESTS"].

Definition durationVariables : list string :=
  ["VALKEY_SENDER_DIAL_TIMEOUT"; "VALKEY_SENDER_READ_TIMEOUT";
   "VALKEY_SENDER_WRITE_TIMEOUT"; "VALKEY_SENDER_MAX_IDLE_TIME";
   "VALKEY_SENDER_CONN_MAX_LIFETIME"; "VALKEY_SENDER_MESSAGE_TTL";
   "VALKEY_SENDER_RETRY_DELAY"; "VALKEY_SENDER_BREAKER_INTERVAL";
   "VALKEY_SENDER_BREAKER_TIMEOUT"].

Definition boolVariables : list string :=
  ["VALKEY_SENDER_TLS_ENABLED"; "VALKEY_SENDER_TLS_SKIP_VERIFY"].

(** The value [value] of the variable [key] is of no use to
    [LoadConfig]: it is empty, or the parser that reads the variable
    rejects it. *)
Definition unusable (key value : string) : Prop :=
  value = "" \/
  (In key intVariables /\ snd (strconv_Atoi value) <> None) \/
  (In key uint32Variables /\ snd (strconv_ParseUint value 10 32) <> None) \/
  (In key durationVariables /\ snd (time_ParseDuration value) <> None) \/
  (In key boolVariables /\ snd (strconv_ParseBool value) <> None).

End Environment.

(** ** types.go *)

(** The dynamic Go values a caller may hand over as [interface{}], other
    than [nil], [string] and [[]byte], which the package tells apart. *)
Class GoValues : Type := { Value : Type }.

Section Types.
Context `{GoValues}.

(** A message: the [interface{}] argument of the send operations. *)
Inductive Message : Type :=
| Nil                         (* the nil interface *)
| Str (s : string)            (* a string *)
| Bytes (b : bytes)           (* a []byte *)
| Other (v : Value).          (* any other dynamic type *)

(** The [target interface{}] of [Deserialize]: a pointer and what it
    points to. *)
Inductive Target : Type :=
| NilTarget                   (* the nil interface *)
| StringPtr (pointee : string)
| BytesPtr (pointee : bytes)
| OtherTarget (pointee : Value).

Record MessageMetadata : Type := mkMessageMetadata {
  md_Queue : string;
  md_Position : Z;
  md_MessageID : string;
  md_Headers : gmap string string;
  md_Timestamp : Time;
  md_TTL : Duration;
  md_Size : Z
}.

Record HealthStatus : Type := mkHealthStatus {
  Status : string;
  hs_LastSuccess : Time;
  hs_LastError : string;
  hs_ErrorCount : Z;
  hs_MessagesSent : Z;
  Uptime : Duration;
  ConnectionState : string;
  CircuitBreaker : string
}.

Record MessageSerializer : Type := mkMessageSerializer {
  Serialize : Message -> bytes + error;
  Deserialize : bytes -> Target -> Target * option error;
  ContentType : string
}.

(** What [SenderOptions.Logger] may hold. *)
Inductive LoggerValue : Type := SlogLogger | NotASlogLogger.

(** [SenderOptions]. The three handlers are caller-supplied functions;
    a field says whether one is installed, and every call made to it is
    recorded in the [World] (see [invoke]). *)
Record SenderOptions : Type := mkSenderOptions {
  ErrorHandler : bool;
  SuccessHandler : bool;
  MetricsHandler : bool;
  Logger : option LoggerValue;
  Serializer : option MessageSerializer;
  QueueNamer : option (string -> string);
  EnableDeduplication : bool;
  DeduplicationWindow : Duration
}.

Record MessageEnvelope : Type := mkMessageEnvelope {
  ID : string;
  Queue : string;
  Payload : bytes;
  Headers : gmap string string;
  Timestamp : Time;
  TTL : Duration;
  Retries : Z;
  Metadata : gmap string Message
}.

Definition set_Payload (payload : bytes) (e : MessageEnvelope) : MessageEnvelope :=
  {| ID := ID e; Queue := Queue e; Payload := payload; Headers := Headers e;
     Timestamp := Timestamp e; TTL := TTL e; Retries := Retries e;
     Metadata := Metadata e |}.

(** ** The outside world *)

(** Commands the client sends to the list store. *)
Inductive Cmd : Type :=
| LPush (key : string) (values : list bytes)
| Expire (key : string) (expiration : Duration).

(** The list store: the lists by key, and the expiration last requested
    for a key. (The removal of a key when its time runs out is the
    store's business and is not modelled.) *)
Record Store : Type := mkStore {
  lists : gmap string (list bytes);
  expirations : gmap string Duration
}.

(** LPUSH puts the values at the head one after the other, creating the
    list when the key is missing; EXPIRE applies to an existing key. *)
Definition apply_cmd (st : Store) (c : Cmd) : Store :=
  match c with
  | LPush key values =>
      {| lists := <[key := rev values ++ default [] (lists st !! key)]> (lists st);
         expirations := expirations st |}
  | Expire key d =>
      match lists st !! key with
      | Some _ => {| lists := lists st; expirations := <[key := d]> (expirations st) |}
      | None => st
      end
  end.

(** What happens to one round trip to the store. *)
Inductive RoundTrip : Type :=
| Answered                   (* the store ran the commands and replied *)
| Failed (e : error)         (* nothing reached the store *)
| ReplyLost (e : error).     (* the store ran the commands, the client saw an error *)

(** A call made to one of the caller's handlers. *)
Inductive Call : Type :=
| ErrorHandlerCall (err : error)
| SuccessHandlerCall (metadata : MessageMetadata).

(** Everything outside the sender. The clock, the UUID source and the
    network are oracles: the k-th reading of each is fixed by a function
    and a counter says how many have been consumed. *)
Record World : Type := mkWorld {
  clock : nat -> Time;
  ticks : nat;
  uuids : nat -> string;
  drawn : nat;
  network : nat -> RoundTrip;
  trips : nat;
  server : Store;
  calls : list Call;
  (* tls.LoadX509KeyPair(certFile, keyFile): the error, if any *)
  keyPairs : string -> string -> option error
}.

(** [time.Now()] *)
Definition timeNow (w : World) : Time * World :=
  (clock w (ticks w),
   {| clock := clock w; ticks := S (ticks w); uuids := uuids w; drawn := drawn w;
      network := network w; trips := trips w; server := server w; calls := calls w;
      keyPairs := keyPairs w |}).

(** [uuid.New().String()] *)
Definition uuidNew (w : World) : string * World :=
  (uuids w (drawn w),
   {| clock := clock w; ticks := ticks w; uuids := uuids w; drawn := S (drawn w);
      network := network w; trips := trips w; server := server w; calls := calls w;
      keyPairs := keyPairs w |}).

(** One round trip carrying [cmds]: the outcome comes from the network
    oracle; the store runs the commands in order unless nothing reached
    it. *)
Definition roundTrip (cmds : list Cmd) (w : World) : RoundTrip * World :=
  let outcome := network w (trips w) in
  let server' :=
    match outcome with
    | Failed _ => server w
    | _ => foldl apply_cmd (server w) cmds
    end in
  (outcome,
   {| clock := clock w; ticks := ticks w; uuids := uuids w; drawn := drawn w;
      network := network w; trips := S (trips w); server := server'; calls := calls w;
      keyPairs := keyPairs w |}).

(** Calling a handler: the call is recorded, oldest first. *)
Definition invoke (c : Call) (w : World) : World :=
  {| clock := clock w; ticks := ticks w; uuids := uuids w; drawn := drawn w;
     network := network w; trips := trips w; server := server w;
     calls := calls w ++ [c]; keyPairs := keyPairs w |}.

End Types.

(** ** logger.go *)

(** A [slog.Handler] (the Go standard library, not part of the
    repository), as far as [multiHandler] depends on it: whether it is
    enabled for a level, and the error, if any, with which it handles a
    record. *)
Class SlogHandler : Type := {
  Handler : Type;
  Level : Type;
  LogRecord : Type;
  handler_Enabled : Handler -> Level -> bool;
  handler_Handle : Handler -> LogRecord -> option error
}.

Section Logger.
Context `{SlogHandler}.

(** [multiHandler.Enabled] *)
Fixpoint multiHandler_Enabled (handlers : list Handler) (level : Level) : bool :=
  match handlers with
  | [] => false
  | h :: rest => if handler_Enabled h level then true else multiHandler_Enabled rest level
  end.

(** [multiHandler.Handle]: the handlers that were handed the record, in
    the order in which they were, and the error returned. *)
Fixpoint multiHandler_Handle (handlers : list Handler) (record : LogRecord)
  : list Handler * option error :=
  match handlers with
  | [] => ([], None)
  | h :: rest =>
      match handler_Handle h record with
      | Some err => ([h], Some err)
      | None =>
          let (handed, err) := multiHandler_Handle rest record in
          (h :: handed, err)
      end
  end.

End Logger.

(** ** The fault isolator *)

(** Modelled from the spec: the FaultIsolator of section 4.2, a circuit
    breaker the package does not implement itself but takes from
    github.com/sony/gobreaker (not part of the repository). The states,
    the counters, the settings [NewSender] fills in and the operations
    [Execute] and [State] the sender calls follow that library's
    interface; their behaviour follows section 4.2: closed counts
    consecutive failures and opens when the trip policy says so, a
    configured interval clears the closed-state counters, open rejects
    every call until the timeout has elapsed and then becomes half-open,
    half-open lets a quota of trial calls through, reopens on a failure
    and closes once the quota has succeeded. *)
Module gobreaker.

Inductive State : Type := StateClosed | StateHalfOpen | StateOpen.

Definition State_eqb (a b : State) : bool :=
  match a, b with
  | StateClosed, StateClosed | StateHalfOpen, StateHalfOpen | StateOpen, StateOpen => true
  | _, _ => false
  end.

(** [State.String()] *)
Definition String (s : State) : string :=
  match s with
  | StateClosed => "closed"
  | StateHalfOpen => "half-open"
  | StateOpen => "open"
  end.

(** The counters, all [uint32]. *)
Record Counts : Type := mkCounts {
  Requests : Z;
  TotalSuccesses : Z;
  TotalFailures : Z;
  ConsecutiveSuccesses : Z;
  ConsecutiveFailures : Z
}.

Definition onRequest (c : Counts) : Counts :=
  {| Requests := wrap_uint32 (Requests c + 1);
     TotalSuccesses := TotalSuccesses c;
     TotalFailures := TotalFailures c;
     ConsecutiveSuccesses := ConsecutiveSuccesses c;
     ConsecutiveFailures := ConsecutiveFailures c |}.

Definition onSuccess (c : Counts) : Counts :=
  {| Requests := Requests c;
     TotalSuccesses := wrap_uint32 (TotalSuccesses c + 1);
     TotalFailures := TotalFailures c;
     ConsecutiveSuccesses := wrap_uint32 (ConsecutiveSuccesses c + 1);
     ConsecutiveFailures := 0 |}.

Definition onFailure (c : Counts) : Counts :=
  {| Requests := Requests c;
     TotalSuccesses := TotalSuccesses c;
     TotalFailures := wrap_uint32 (TotalFailures c + 1);
     ConsecutiveSuccesses := 0;
     ConsecutiveFailures := wrap_uint32 (ConsecutiveFailures c + 1) |}.

Definition clear : Counts :=
  {| Requests := 0; TotalSuccesses := 0; TotalFailures := 0;
     ConsecutiveSuccesses := 0; ConsecutiveFailures := 0 |}.

(** [Settings]. [OnStateChange] says whether a callback is installed;
    the calls made to it are kept in [stateChanges] below. *)
Record Settings : Type := mkSettings {
  Name : string;
  MaxRequests : Z;
  Interval : Duration;
  Timeout : Duration;
  ReadyToTrip : option (Counts -> bool);
  OnStateChange : bool;
  IsSuccessful : option (option error -> bool)
}.

Record CircuitBreaker : Type := mkCircuitBreaker {
  name : string;
  maxRequests : Z;
  interval : Duration;
  timeout : Duration;
  readyToTrip : Counts -> bool;
  isSuccessful : option error -> bool;
  onStateChange : bool;
  state : State;
  generation : Z;
  counts : Counts;
  expiry : Time;
  (* the calls made to the state-change callback, oldest first *)
  stateChanges : list (string * State * State)
}.

Definition defaultInterval : Duration := 0.
Definition defaultTimeout : Duration := 60 * Second.

Definition defaultReadyToTrip (c : Counts) : bool := ConsecutiveFailures c >? 5.

Definition defaultIsSuccessful (err : option error) : bool :=
  match err with None => true | Some _ => false end.

(** Modelled from the spec: a new generation of the breaker
    (section 4.2). The counters are cleared and the expiry is set for the
    state the breaker is in: the end of the counting interval when
    closed (none without an interval), the end of the timeout when open,
    none when half-open. *)
Definition toNewGeneration (now : Time) (cb : CircuitBreaker) : CircuitBreaker :=
  {| name := name cb; maxRequests := maxRequests cb; interval := interval cb;
     timeout := timeout cb; readyToTrip := readyToTrip cb;
     isSuccessful := isSuccessful cb; onStateChange := onStateChange cb;
     state := state cb;
     generation := wrap_uint64 (generation cb + 1);
     counts := clear;
     expiry :=
       match state cb with
       | StateClosed => if interval cb =? 0 then 0 else now + interval cb
       | StateOpen => now + timeout cb
       | StateHalfOpen => 0
       end;
     stateChanges := stateChanges cb |}.

(** Modelled from the spec: a state transition (section 4.2), which
    starts a new generation and is reported to the state-change
    callback as an event carrying the state left and the state
    entered. *)
Definition setState (st : State) (now : Time) (cb : CircuitBreaker) : CircuitBreaker :=
  if State_eqb (state cb) st then cb
  else
    let prev := state cb in
    let cb1 :=
      toNewGeneration now
        {| name := name cb; maxRequests := maxRequests cb; interval := interval cb;
           timeout := timeout cb; readyToTrip := readyToTrip cb;
           isSuccessful := isSuccessful cb; onStateChange := onStateChange cb;
           state := st; generation := generation cb; counts := counts cb;
           expiry := expiry cb; stateChanges := stateChanges cb |} in
    if onStateChange cb1 then
      {| name := name cb1; maxRequests := maxRequests cb1; interval := interval cb1;
         timeout := timeout cb1; readyToTrip := readyToTrip cb1;
         isSuccessful := isSuccessful cb1; onStateChange := onStateChange cb1;
         state := state cb1; generation := generation cb1; counts := counts cb1;
         expiry := expiry cb1;
         stateChanges := stateChanges cb1 ++ [(name cb1, prev, st)] |}
    else cb1.

Definition set_counts (c : Counts) (cb : CircuitBreaker) : CircuitBreaker :=
  {| name := name cb; maxRequests := maxRequests cb; interval := interval cb;
     timeout := timeout cb; readyToTrip := readyToTrip cb;
     isSuccessful := isSuccessful cb; onStateChange := onStateChange cb;
     state := state cb; generation := generation cb; counts := c;
     expiry := expiry cb; stateChanges := stateChanges cb |}.

(** Modelled from the spec: the state as of [now] (section 4.2). A
    closed breaker whose interval has run out starts a new generation
    (its counters are cleared), an open one whose timeout has run out
    becomes half-open. *)
Definition currentState (now : Time) (cb : CircuitBreaker) : CircuitBreaker * (State * Z) :=
  let cb' :=
    match state cb with
    | StateClosed =>
        if negb (expiry cb =? 0) && (expiry cb <? now) then toNewGeneration now cb else cb
    | StateOpen =>
        if expiry cb <? now then setState StateHalfOpen now cb else cb
    | StateHalfOpen => cb
    end in
  (cb', (state cb', generation cb')).

(** Modelled from the spec: what the breaker does with a call on its
    way in (section 4.2). Open: rejected with [ErrOpenState]. Half-open:
    rejected with [ErrTooManyRequests] once the quota of trial calls
    is used up. Otherwise the call is counted and let through. *)
Definition beforeRequest (now : Time) (cb : CircuitBreaker)
  : CircuitBreaker * (Z * option error) :=
  let '(cb, (st, generation)) := currentState now cb in
  match st with
  | StateOpen => (cb, (generation, Some ErrOpenState))
  | StateHalfOpen =>
      if Requests (counts cb) >=? maxRequests cb
      then (cb, (generation, Some ErrTooManyRequests))
      else (set_counts (onRequest (counts cb)) cb, (generation, None))
  | StateClosed => (set_counts (onRequest (counts cb)) cb, (generation, None))
  end.

(** Modelled from the spec: a success reported to the breaker
    (section 4.2). Half-open, the breaker closes once the quota of trial
    calls has succeeded. *)
Definition cb_onSuccess (st : State) (now : Time) (cb : CircuitBreaker) : CircuitBreaker :=
  match st with
  | StateClosed => set_counts (onSuccess (counts cb)) cb
  | StateHalfOpen =>
      let cb := set_counts (onSuccess (counts cb)) cb in
      if ConsecutiveSuccesses (counts cb) >=? maxRequests cb
      then setState StateClosed now cb
      else cb
  | StateOpen => cb
  end.

(** Modelled from the spec: a failure reported to the breaker
    (section 4.2). Closed, the breaker opens when the trip policy says
    so of the counters; half-open, it reopens. *)
Definition cb_onFailure (st : State) (now : Time) (cb : CircuitBreaker) : CircuitBreaker :=
  match st with
  | StateClosed =>
      let cb := set_counts (onFailure (counts cb)) cb in
      if readyToTrip cb (counts cb) then setState StateOpen now cb else cb
  | StateHalfOpen => setState StateOpen now cb
  | StateOpen => cb
  end.

(** Modelled from the spec: what the breaker does with the outcome of a
    call it let through (section 4.2). An outcome that arrives in a
    later generation than the call started in is dropped. *)
Definition afterRequest (before : Z) (success : bool) (now : Time) (cb : CircuitBreaker)
  : CircuitBreaker :=
  let '(cb, (st, generation)) := currentState now cb in
  if negb (generation =? before) then cb
  else if success then cb_onSuccess st now cb
  else cb_onFailure st now cb.

(** Modelled from the spec: [NewCircuitBreaker], the breaker in its
    initial state, closed (section 4.2). Defaults stand in for what the
    settings leave out; the first generation starts at the current
    time. *)
Definition NewCircuitBreaker (st : Settings) (w : World) : CircuitBreaker * World :=
  let cb :=
    {| name := Name st;
       maxRequests := if MaxRequests st =? 0 then 1 else MaxRequests st;
       interval := if Interval st <=? 0 then defaultInterval else Interval st;
       timeout := if Timeout st <=? 0 then defaultTimeout else Timeout st;
       readyToTrip := default defaultReadyToTrip (ReadyToTrip st);
       isSuccessful := default defaultIsSuccessful (IsSuccessful st);
       onStateChange := OnStateChange st;
       state := StateClosed; generation := 0; counts := clear; expiry := 0;
       stateChanges := [] |} in
  let (now, w) := timeNow w in
  (toNewGeneration now cb, w).

(** Modelled from the spec: [cb.State()], the state as of the current
    time (section 4.2). *)
Definition State_ (cb : CircuitBreaker) (w : World) : State * CircuitBreaker * World :=
  let (now, w) := timeNow w in
  let '(cb, (st, _)) := currentState now cb in
  (st, cb, w).

(** Modelled from the spec: [cb.Execute(req)], the contract
    [execute(operation)] of section 4.2. The request runs only when the
    breaker lets it through, and its outcome is then reported back to
    the breaker; the error returned is the request's own or the
    breaker's. The request may change the caller's state [St] and the
    world. *)
Definition Execute {St : Type} (req : St -> World -> St * World * option error)
    (cb : CircuitBreaker) (s : St) (w : World)
  : CircuitBreaker * St * World * option error :=
  let (now, w) := timeNow w in
  let '(cb, (generation, err)) := beforeRequest now cb in
  match err with
  | Some e => (cb, s, w, Some e)
  | None =>
      let '(s, w, err) := req s w in
      let (now, w) := timeNow w in
      (afterRequest generation (isSuccessful cb err) now cb, s, w, err)
  end.

(** One call through the breaker, seen from the breaker alone: the
    clock reads [tb] on the way in and [ta] on the way out, and the
    request, if it runs, ends with [outcome]. *)
Definition call (tb ta : Time) (outcome : option error) (cb : CircuitBreaker)
  : CircuitBreaker * option error :=
  let '(cb, (generation, err)) := beforeRequest tb cb in
  match err with
  | Some e => (cb, Some e)
  | None => (afterRequest generation (isSuccessful cb outcome) ta cb, outcome)
  end.

(** A run of failing calls, each with its two clock readings and the
    error its request ends with; the errors the callers see are
    collected in order. *)
Fixpoint failingCalls (l : list (Time * Time * error)) (cb : CircuitBreaker)
  : CircuitBreaker * list (option error) :=
  match l with
  | [] => (cb, [])
  | (tb, ta, e) :: l' =>
      let (cb, r) := call tb ta (Some e) cb in
      let (cb, rs) := failingCalls l' cb in
      (cb, r :: rs)
  end.

End gobreaker.

(** ** The admission gate *)

(** A [context.Context], as far as the package depends on it: whether
    and when it is done (cancelled or past its deadline), and the error
    it then reports. *)
Record Context : Type := mkContext { done : option (Time * error) }.

(** [context.Background()] *)
Definition Background : Context := {| done := None |}.

(** The rate limiter (golang.org/x/time/rate, not part of the
    repository). The package constructs one and calls [Wait], which reads
    the clock; all the sender depends on is whether [Wait] returns an
    error. *)
Class RateLimiter : Type := {
  Limiter : Type;
  NewLimiter : Z -> Z -> Limiter;
  Wait : Context -> Time -> Limiter -> Limiter * option error
}.

(** Modelled from the spec: the AdmissionController of section 4.1, a
    token bucket with capacity [burst] and a refill of [perSecond] tokens
    a second, counted in billionths of a token so that fractions
    accumulate. [acquire] takes a token that is there; otherwise the
    caller is suspended until one is, and fails when the cancellation
    signal fires first. A caller that could never be served (no refill,
    no cancellation) is turned away at once. *)
Module TokenBucket.

Record Bucket : Type := mkBucket {
  burst : Z;
  perSecond : Z;
  level : Z;
  last : Time
}.

Definition token : Z := 1000000000.

Definition new (limit burst : Z) : Bucket :=
  {| burst := burst; perSecond := limit; level := burst * token; last := 0 |}.

Definition refilled (now : Time) (b : Bucket) : Z :=
  if now <=? last b then level b
  else Z.min (burst b * token) (level b + (now - last b) * perSecond b).

Definition take (at_ : Time) (lvl : Z) (b : Bucket) : Bucket :=
  {| burst := burst b; perSecond := perSecond b; level := lvl - token; last := at_ |}.

(** Modelled from the spec: [acquire(cancellation_signal)] of section
    4.1, called at time [now]. *)
Definition acquire (ctx : Context) (now : Time) (b : Bucket) : Bucket * option error :=
  let lvl := refilled now b in
  match done ctx with
  | Some (t, e) =>
      if t <=? now then (b, Some e)
      else if token <=? lvl then (take now lvl b, None)
      else if 0 <? perSecond b then
        let ready := now + (token - lvl + perSecond b - 1) / perSecond b in
        if ready <=? t then (take ready token b, None) else (b, Some e)
      else (b, Some e)
  | None =>
      if token <=? lvl then (take now lvl b, None)
      else if 0 <? perSecond b then
        let ready := now + (token - lvl + perSecond b - 1) / perSecond b in
        (take ready token b, None)
      else (b, Some (New "rate: Wait(n=1) would exceed context deadline"))
  end.

End TokenBucket.

(** ** serializer.go *)

(** [encoding/json] (the Go standard library, not part of the
    repository): how a value other than [nil], a [string] or a [[]byte]
    is encoded, and how bytes are decoded into the value a target points
    to. [envelopeValue] is a [MessageEnvelope] seen as such a value. *)
Class EncodingJSON `{GoValues} : Type := {
  envelopeValue : MessageEnvelope -> Value;
  json_Marshal : Value -> bytes + error;
  json_Unmarshal : bytes -> Value -> Value * option error
}.

Section Serializer.
Context `{EncodingJSON}.

(** [JSONSerializer.Serialize] *)
Definition JSONSerializer_Serialize (message : Message) : bytes + error :=
  match message with
  | Nil => inr (New "message cannot be nil")
  | Str str => inl (list_byte_of_string str)
  | Bytes b => inl b
  | Other v =>
      match json_Marshal v with
      | inr err => inr (Wrap "failed to serialize message to JSON" err)
      | inl data => inl data
      end
  end.

(** [JSONSerializer.Deserialize]: the target after the call, and the
    error. *)
Definition JSONSerializer_Deserialize (data : bytes) (target : Target)
  : Target * option error :=
  if (length data =? 0)%nat then (target, Some (New "data cannot be empty"))
  else
    match target with
    | NilTarget => (target, Some (New "target cannot be nil"))
    | StringPtr _ => (StringPtr (string_of_list_byte data), None)
    | BytesPtr _ => (BytesPtr data, None)
    | OtherTarget v =>
        match json_Unmarshal data v with
        | (v', Some err) =>
            (OtherTarget v', Some (Wrap "failed to deserialize JSON to target" err))
        | (v', None) => (OtherTarget v', None)
        end
    end.

Definition JSONSerializer_ContentType : string := "application/json".

Definition NewJSONSerializer : MessageSerializer :=
  {| Serialize := JSONSerializer_Serialize;
     Deserialize := JSONSerializer_Deserialize;
     ContentType := JSONSerializer_ContentType |}.

Definition SerializeMessageEnvelope (envelope : MessageEnvelope) : bytes + error :=
  Serialize NewJSONSerializer (Other (envelopeValue envelope)).

(** A target of the shape of a message, holding that shape's zero
    value ([zero] for the other values). *)
Definition targetFor (zero : Value) (message : Message) : Target :=
  match message with
  | Nil => NilTarget
  | Str _ => StringPtr ""
  | Bytes _ => BytesPtr []
  | Other _ => OtherTarget zero
  end.

(** The message a target points to after decoding. *)
Definition pointee (t : Target) : Message :=
  match t with
  | NilTarget => Nil
  | StringPtr s => Str s
  | BytesPtr b => Bytes b
  | OtherTarget v => Other v
  end.

End Serializer.

(** ** Binary64 arithmetic, for [Health] *)

Module float64.

Definition prec : Z := 53.
Definition emax : Z := 1024.

(** [float64(x)] for an integer [x]: the nearest binary64 number. *)
Definition of_int64 (x : Z) : spec_float := binary_normalize prec emax x 0 false.

Definition div (a b : spec_float) : spec_float := SFdiv prec emax a b.

(** [a > b] *)
Definition gt (a b : spec_float) : bool := SFltb b a.

(** The constants [0.5] and [0.1] as binary64 numbers. *)
Definition half : spec_float := S754_finite false 4503599627370496 (-53).
Definition tenth : spec_float := S754_finite false 7205759403792794 (-56).

End float64.

(** ** sender.go *)

Section Sender.
Context `{EncodingJSON} `{RateLimiter}.

Record valkeySender : Type := mkSender {
  config : Config;
  options : SenderOptions;
  serializer : MessageSerializer;
  (* Circuit breaker and rate limiter *)
  circuitBreaker : gobreaker.CircuitBreaker;
  rateLimiter : Limiter;
  (* Metrics and health *)
  startTime : Time;
  messagesSent : Z;
  errorCount : Z;
  lastSuccess : Time;
  lastError : string;
  isConnected : bool
}.

Definition set_circuitBreaker (cb : gobreaker.CircuitBreaker) (s : valkeySender) :=
  {| config := config s; options := options s; serializer := serializer s;
     circuitBreaker := cb; rateLimiter := rateLimiter s; startTime := startTime s;
     messagesSent := messagesSent s; errorCount := errorCount s;
     lastSuccess := lastSuccess s; lastError := lastError s;
     isConnected := isConnected s |}.

Definition set_rateLimiter (lim : Limiter) (s : valkeySender) :=
  {| config := config s; options := options s; serializer := serializer s;
     circuitBreaker := circuitBreaker s; rateLimiter := lim; startTime := startTime s;
     messagesSent := messagesSent s; errorCount := errorCount s;
     lastSuccess := lastSuccess s; lastError := lastError s;
     isConnected := isConnected s |}.

(** [atomic.AddInt64(&s.messagesSent, n)] *)
Definition add_messagesSent (n : Z) (s : valkeySender) :=
  {| config := config s; options := options s; serializer := serializer s;
     circuitBreaker := circuitBreaker s; rateLimiter := rateLimiter s;
     startTime := startTime s;
     messagesSent := wrap_int64 (messagesSent s + n); errorCount := errorCount s;
     lastSuccess := lastSuccess s; lastError := lastError s;
     isConnected := isConnected s |}.

(** [atomic.AddInt64(&s.errorCount, n)] *)
Definition add_errorCount (n : Z) (s : valkeySender) :=
  {| config := config s; options := options s; serializer := serializer s;
     circuitBreaker := circuitBreaker s; rateLimiter := rateLimiter s;
     startTime := startTime s;
     messagesSent := messagesSent s; errorCount := wrap_int64 (errorCount s + n);
     lastSuccess := lastSuccess s; lastError := lastError s;
     isConnected := isConnected s |}.

Definition set_lastSuccess (t : Time) (s : valkeySender) :=
  {| config := config s; options := options s; serializer := serializer s;
     circuitBreaker := circuitBreaker s; rateLimiter := rateLimiter s;
     startTime := startTime s;
     messagesSent := messagesSent s; errorCount := errorCount s;
     lastSuccess := t; lastError := lastError s;
     isConnected := isConnected s |}.

Definition set_lastError (msg : string) (s : valkeySender) :=
  {| config := config s; options := options s; serializer := serializer s;
     circuitBreaker := circuitBreaker s; rateLimiter := rateLimiter s;
     startTime := startTime s;
     messagesSent := messagesSent s; errorCount := errorCount s;
     lastSuccess := lastSuccess s; lastError := msg;
     isConnected := isConnected s |}.

Definition setConnectionState (connected : bool) (s : valkeySender) :=
  {| config := config s; options := options s; serializer := serializer s;
     circuitBreaker := circuitBreaker s; rateLimiter := rateLimiter s;
     startTime := startTime s;
     messagesSent := messagesSent s; errorCount := errorCount s;
     lastSuccess := lastSuccess s; lastError := lastError s;
     isConnected := connected |}.

Definition getConnectionState (s : valkeySender) : bool := isConnected s.

(** The settings [NewSender] gives the circuit breaker: more than 3
    consecutive failures trip it; the state-change callback writes a
    log line. *)
Definition breakerSettings (config : Config) : gobreaker.Settings :=
  {| gobreaker.Name := "valkeysender";
     gobreaker.MaxRequests := BreakerMaxRequests config;
     gobreaker.Interval := BreakerInterval config;
     gobreaker.Timeout := BreakerTimeout config;
     gobreaker.ReadyToTrip :=
       Some (fun counts => gobreaker.ConsecutiveFailures counts >? 3);
     gobreaker.OnStateChange := true;
     gobreaker.IsSuccessful := None |}.

(** [SenderOptions{}] *)
Definition noOptions : SenderOptions :=
  {| ErrorHandler := false; SuccessHandler := false; MetricsHandler := false;
     Logger := None; Serializer := None; QueueNamer := None;
     EnableDeduplication := false; DeduplicationWindow := 0 |}.

(** [initClient]: the client is only set up here (nothing is sent);
    with TLS enabled and both files named, the key pair is loaded and
    that may fail. *)
Definition initClient (s : valkeySender) (w : World) : option error :=
  if TLSEnabled (config s) then
    if negb (is_empty (TLSCertFile (config s))) && negb (is_empty (TLSKeyFile (config s))) then
      match keyPairs w (TLSCertFile (config s)) (TLSKeyFile (config s)) with
      | Some err => Some (Wrap "failed to load TLS certificate" err)
      | None => None
      end
    else None
  else None.

(** [testConnection]: one PING round trip; the store answers PONG. *)
Definition testConnection (s : valkeySender) (w : World)
  : valkeySender * World * option error :=
  let (outcome, w) := roundTrip [] w in
  match outcome with
  | Failed err | ReplyLost err =>
      (setConnectionState false s, w, Some (Wrap "failed to ping Valkey" err))
  | Answered =>
      let s := setConnectionState true s in
      let (now, w) := timeNow w in
      (set_lastSuccess now s, w, None)
  end.

(** [NewSender]. A logger is created when none is given (never failing
    here, since no log file is asked for); what is logged is left out. *)
Definition NewSender (config : option Config) (options : option SenderOptions)
    (w : World) : (valkeySender + error) * World :=
  match config with
  | None => (inr (New "config cannot be nil"), w)
  | Some config =>
      let options := default noOptions options in
      match Logger options with
      | Some NotASlogLogger => (inr (New "logger must be of type *slog.Logger"), w)
      | _ =>
          let serializer := default NewJSONSerializer (Serializer options) in
          let (now, w) := timeNow w in
          let (cb, w) := gobreaker.NewCircuitBreaker (breakerSettings config) w in
          let sender :=
            {| config := config; options := options; serializer := serializer;
               circuitBreaker := cb;
               rateLimiter := NewLimiter (RateLimitRequests config) (RateLimitBurst config);
               startTime := now; messagesSent := 0; errorCount := 0;
               lastSuccess := 0; lastError := ""; isConnected := false |} in
          match initClient sender w with
          | Some err => (inr (Wrap "failed to initialize Redis client" err), w)
          | None =>
              match testConnection sender w with
              | (_, w, Some err) => (inr (Wrap "failed to connect to Valkey" err), w)
              | (sender, w, None) => (inl sender, w)
              end
          end
      end
  end.

(** [getQueueKey] *)
Definition getQueueKey (s : valkeySender) (queue : string) : string :=
  match QueueNamer (options s) with
  | Some namer => namer queue
  | None => ("queue:" ++ queue)%string
  end.

(** [pipe.Exec] on the pipeline holding [cmds]: one round trip. *)
Definition pipeExec (cmds : list Cmd) (w : World) : World * option error :=
  let (outcome, w) := roundTrip cmds w in
  match outcome with
  | Answered => (w, None)
  | Failed err | ReplyLost err => (w, Some err)
  end.

(** [sendMessageInternal] *)
Definition sendMessageInternal (ctx : Context) (queue : string) (message : Message)
    (ttl : Duration) (s : valkeySender) (w : World)
  : valkeySender * World * option error :=
  let (id, w) := uuidNew w in
  let (now, w) := timeNow w in
  let envelope :=
    {| ID := id; Queue := queue; Payload := []; Headers := ∅; Timestamp := now;
       TTL := ttl; Retries := 0; Metadata := ∅ |} in
  match Serialize (serializer s) message with
  | inr err => (s, w, Some (Wrap "failed to serialize message" err))
  | inl payload =>
      let envelope := set_Payload payload envelope in
      match SerializeMessageEnvelope envelope with
      | inr err => (s, w, Some (Wrap "failed to serialize envelope" err))
      | inl envelopeData =>
          let listKey := getQueueKey s queue in
          match pipeExec [LPush listKey [envelopeData]; Expire listKey ttl] w with
          | (w, Some err) =>
              (setConnectionState false s, w,
               Some (Wrap ("failed to send message to queue " ++ queue)%string err))
          | (w, None) => (setConnectionState true s, w, None)
          end
      end
  end.

(** What both send operations do with the outcome of the guarded
    call when it is an error: count it, keep its text, tell the error
    handler. *)
Definition recordError (err : error) (s : valkeySender) (w : World)
  : valkeySender * World :=
  let s := add_errorCount 1 s in
  let s := set_lastError (Error err) s in
  let w := if ErrorHandler (options s) then invoke (ErrorHandlerCall err) w else w in
  (s, w).

(** [SendMessageWithTTL] *)
Definition SendMessageWithTTL (ctx : Context) (queue : string) (message : Message)
    (ttl : Duration) (s : valkeySender) (w : World)
  : valkeySender * World * option error :=
  let (startTime, w) := timeNow w in
  (* Apply rate limiting *)
  let (now, w) := timeNow w in
  match Wait ctx now (rateLimiter s) with
  | (lim, Some err) => (set_rateLimiter lim s, w, Some (Wrap "rate limiter error" err))
  | (lim, None) =>
      let s := set_rateLimiter lim s in
      (* Use circuit breaker *)
      let '(cb, s, w, err) :=
        gobreaker.Execute (sendMessageInternal ctx queue message ttl)
          (circuitBreaker s) s w in
      let s := set_circuitBreaker cb s in
      match err with
      | Some err =>
          let (s, w) := recordError err s w in
          (s, w, Some err)
      | None =>
          (* Update metrics *)
          let s := add_messagesSent 1 s in
          let (now, w) := timeNow w in
          let s := set_lastSuccess now s in
          (* Call success handler *)
          if SuccessHandler (options s) then
            let (id, w) := uuidNew w in
            let metadata :=
              {| md_Queue := queue; md_Position := 0; md_MessageID := id;
                 md_Headers := ∅; md_Timestamp := startTime; md_TTL := ttl;
                 md_Size := 0 |} in
            (s, invoke (SuccessHandlerCall metadata) w, None)
          else (s, w, None)
      end
  end.

(** [SendMessage] *)
Definition SendMessage (ctx : Context) (queue : string) (message : Message)
    (s : valkeySender) (w : World) : valkeySender * World * option error :=
  SendMessageWithTTL ctx queue message (MessageTTL (config s)) s w.

(** The loop of [sendBatchInternal] that prepares the envelopes, from
    message number [i] on. It stops at the first message that cannot be
    serialized. The loop keeps the serialized envelopes only; each is
    returned here together with the envelope it encodes. *)
Fixpoint prepareEnvelopes (s : valkeySender) (queue : string) (i : nat)
    (messages : list Message) (w : World)
  : World * (list (MessageEnvelope * bytes) + error) :=
  match messages with
  | [] => (w, inl [])
  | message :: rest =>
      let (id, w) := uuidNew w in
      let (now, w) := timeNow w in
      let envelope :=
        {| ID := id; Queue := queue; Payload := []; Headers := ∅; Timestamp := now;
           TTL := MessageTTL (config s); Retries := 0; Metadata := ∅ |} in
      match Serialize (serializer s) message with
      | inr err =>
          (w, inr (Wrap ("failed to serialize message " ++ pretty i)%string err))
      | inl payload =>
          let envelope := set_Payload payload envelope in
          match SerializeMessageEnvelope envelope with
          | inr err =>
              (w, inr (Wrap ("failed to serialize envelope " ++ pretty i)%string err))
          | inl envelopeData =>
              match prepareEnvelopes s queue (S i) rest w with
              | (w, inl envelopes) => (w, inl ((envelope, envelopeData) :: envelopes))
              | (w, inr err) => (w, inr err)
              end
          end
      end
  end.

(** [sendBatchInternal] *)
Definition sendBatchInternal (ctx : Context) (queue : string) (messages : list Message)
    (s : valkeySender) (w : World) : valkeySender * World * option error :=
  let listKey := getQueueKey s queue in
  match prepareEnvelopes s queue 0 messages w with
  | (w, inr err) => (s, w, Some err)
  | (w, inl envelopes) =>
      match pipeExec [LPush listKey (map snd envelopes);
                      Expire listKey (MessageTTL (config s))] w with
      | (w, Some err) =>
          (setConnectionState false s, w,
           Some (Wrap ("failed to send batch to queue " ++ queue)%string err))
      | (w, None) => (setConnectionState true s, w, None)
      end
  end.

(** The success handler is called once for each message of a batch,
    from position [i] on, each time with a new UUID. *)
Fixpoint notifyBatch (queue : string) (startTime : Time) (ttl : Duration) (i : Z)
    (messages : list Message) (w : World) : World :=
  match messages with
  | [] => w
  | _ :: rest =>
      let (id, w) := uuidNew w in
      let metadata :=
        {| md_Queue := queue; md_Position := i; md_MessageID := id;
           md_Headers := ∅; md_Timestamp := startTime; md_TTL := ttl;
           md_Size := 0 |} in
      notifyBatch queue startTime ttl (i + 1) rest (invoke (SuccessHandlerCall metadata) w)
  end.

(** [SendBatch] *)
Definition SendBatch (ctx : Context) (queue : string) (messages : list Message)
    (s : valkeySender) (w : World) : valkeySender * World * option error :=
  if (length messages =? 0)%nat then
    (s, w, Some (New "messages slice cannot be empty"))
  else
    let (startTime, w) := timeNow w in
    (* Apply rate limiting (once for the batch) *)
    let (now, w) := timeNow w in
    match Wait ctx now (rateLimiter s) with
    | (lim, Some err) => (set_rateLimiter lim s, w, Some (Wrap "rate limiter error" err))
    | (lim, None) =>
        let s := set_rateLimiter lim s in
        (* Use circuit breaker *)
        let '(cb, s, w, err) :=
          gobreaker.Execute (sendBatchInternal ctx queue messages)
            (circuitBreaker s) s w in
        let s := set_circuitBreaker cb s in
        match err with
        | Some err =>
            let (s, w) := recordError err s w in
            (s, w, Some err)
        | None =>
            (* Update metrics *)
            let s := add_messagesSent (Z.of_nat (length messages)) s in
            let (now, w) := timeNow w in
            let s := set_lastSuccess now s in
            (* Call success handler for each message *)
            if SuccessHandler (options s) then
              (s, notifyBatch queue startTime (MessageTTL (config s)) 0 messages w, None)
            else (s, w, None)
        end
    end.

(** [GetQueueSize]: one LLEN round trip; the store answers with the
    length of the list, 0 for a key it does not hold. *)
Definition GetQueueSize (ctx : Context) (queue : string) (s : valkeySender) (w : World)
  : (Z * option error) * World :=
  let listKey := getQueueKey s queue in
  let (outcome, w) := roundTrip [] w in
  match outcome with
  | Answered =>
      ((Z.of_nat (length (default [] (lists (server w) !! listKey))), None), w)
  | Failed err | ReplyLost err =>
      match err with
      | RedisNil => ((0, None), w)   (* Queue doesn't exist, so size is 0 *)
      | _ => ((0, Some (Wrap ("failed to get queue size for " ++ queue)%string err)), w)
      end
  end.

(** [Health] *)
Definition Health (s : valkeySender) (w : World) : HealthStatus * valkeySender * World :=
  let connectionState :=
    if getConnectionState s then "connected" else "disconnected" in
  let errorRate :=
    float64.div (float64.of_int64 (errorCount s))
                (float64.of_int64 (wrap_int64 (messagesSent s + 1))) in
  let status :=
    if float64.gt errorRate float64.half then "unhealthy"
    else if float64.gt errorRate float64.tenth then "degraded"
    else "healthy" in
  let (now, w) := timeNow w in
  let '(st, cb, w) := gobreaker.State_ (circuitBreaker s) w in
  ({| Status := status;
      hs_LastSuccess := lastSuccess s;
      hs_LastError := lastError s;
      hs_ErrorCount := errorCount s;
      hs_MessagesSent := messagesSent s;
      Uptime := now - startTime s;
      ConnectionState := connectionState;
      CircuitBreaker := gobreaker.String st |},
   set_circuitBreaker cb s, w).

End Sender.

(** ** Notions used in the statements *)

(** The status [Health] derives from its two counters. *)
Definition derivedStatus (errorCount messagesSent : Z) : string :=
  let errorRate :=
    float64.div (float64.of_int64 errorCount)
                (float64.of_int64 (wrap_int64 (messagesSent + 1))) in
  if float64.gt errorRate float64.half then "unhealthy"
  else if float64.gt errorRate float64.tenth then "degraded"
  else "healthy".

(** The status as the specification words it, in exact arithmetic:
    errorRate = errorCount / (messagesSent + 1), unhealthy above 1/2,
    degraded above 1/10, healthy otherwise. *)
Definition exactStatus (errorCount messagesSent : Z) : string :=
  if 2 * errorCount >? messagesSent + 1 then "unhealthy"
  else if 10 * errorCount >? messagesSent + 1 then "degraded"
  else "healthy".

(** The two agree for all counters below [n]. *)
Definition statusesAgreeBelow (n : nat) : bool :=
  forallb (fun e =>
    forallb (fun m =>
      String.eqb (derivedStatus (Z.of_nat e) (Z.of_nat m))
                 (exactStatus (Z.of_nat e) (Z.of_nat m)))
      (seq 0 n))
    (seq 0 n).

(** The counting interval of a closed breaker has run out at [now]. *)
Definition intervalExpired (cb : gobreaker.CircuitBreaker) (now : Time) : bool :=
  negb (gobreaker.expiry cb =? 0) && (gobreaker.expiry cb <? now).

(** Two breakers with the same settings. *)
Definition sameSettings (cb cb' : gobreaker.CircuitBreaker) : Prop :=
  gobreaker.name cb' = gobreaker.name cb /\
  gobreaker.maxRequests cb' = gobreaker.maxRequests cb /\
  gobreaker.interval cb' = gobreaker.interval cb /\
  gobreaker.timeout cb' = gobreaker.timeout cb /\
  gobreaker.readyToTrip cb' = gobreaker.readyToTrip cb /\
  gobreaker.isSuccessful cb' = gobreaker.isSuccessful cb /\
  gobreaker.onStateChange cb' = gobreaker.onStateChange cb.

Section Notions.
Context `{EncodingJSON} `{RateLimiter}.

(** [encoding/json] decodes what it encoded for [x] back to [x], when
    decoding into a target that holds [zero]. Nothing is asked of
    messages that are not encoded as JSON. *)
Definition json_roundtrips (zero : Value) (x : Message) : Prop :=
  match x with
  | Other v => forall d, json_Marshal v = inl d -> json_Unmarshal d zero = (v, None)
  | _ => True
  end.

(** The round trip did not bring back the store's answer, and what the
    client reports is not [redis.Nil] either. *)
Definition transportFailed (outcome : RoundTrip) : Prop :=
  match outcome with
  | Answered => False
  | Failed e | ReplyLost e => e <> RedisNil
  end.

Definition is_inl {A B : Type} (x : A + B) : bool :=
  match x with inl _ => true | inr _ => false end.

(** A call of the public dispatch contract: a single send or a batch. *)
Inductive Request : Type :=
| SendRequest (queue : string) (message : Message) (ttl : Duration)
| BatchRequest (queue : string) (messages : list Message).

Definition perform (r : Request) (ctx : Context) (s : valkeySender) (w : World)
  : valkeySender * World * option error :=
  match r with
  | SendRequest queue message ttl => SendMessageWithTTL ctx queue message ttl s w
  | BatchRequest queue messages => SendBatch ctx queue messages s w
  end.

(** The rate limiter lets the call through. ([Wait] sees the second
    clock reading of the call, the first being its start time.) *)
Definition passesLimiter (ctx : Context) (s : valkeySender) (w : World) : bool :=
  match Wait ctx (clock w (S (ticks w))) (rateLimiter s) with
  | (_, None) => true
  | (_, Some _) => false
  end.

(** The call gets as far as the circuit breaker: it is not an empty
    batch and the rate limiter lets it through. *)
Definition reachesBreaker (r : Request) (ctx : Context) (s : valkeySender) (w : World)
  : bool :=
  match r with
  | BatchRequest _ [] => false
  | _ => passesLimiter ctx s w
  end.

(** A run of [n] consecutive failed calls, from the sender [s] in the
    world [w] to the sender [s'] in the world [w']. Each call gets as
    far as the breaker and returns an error, and at neither of the two
    clock readings the breaker takes for it (the third reading of the
    call on the way in, its last reading on the way out) has the
    counting interval of the sender's breaker run out. *)
Inductive failedSends : valkeySender -> World -> nat -> valkeySender -> World -> Prop :=
| failedSends_none (s : valkeySender) (w : World) : failedSends s w 0 s w
| failedSends_more (r : Request) (ctx : Context) (s s1 s' : valkeySender)
    (w w1 w' : World) (e : error) (n : nat) :
    perform r ctx s w = (s1, w1, Some e) ->
    reachesBreaker r ctx s w = true ->
    intervalExpired (circuitBreaker s) (clock w (2 + ticks w)%nat) = false ->
    intervalExpired (circuitBreaker s) (clock w (pred (ticks w1))) = false ->
    failedSends s1 w1 n s' w' ->
    failedSends s w (S n) s' w'.

Definition requestQueue (r : Request) : string :=
  match r with
  | SendRequest queue _ _ => queue
  | BatchRequest queue _ => queue
  end.

(** The number of messages of a call. *)
Definition requestSize (r : Request) : nat :=
  match r with
  | SendRequest _ _ _ => 1%nat
  | BatchRequest _ messages => length messages
  end.

(** What a successful internal send of [n] messages to [key] has done
    between the worlds [w0] and [w1]: it has built [n] envelopes, the k-th
    with the k-th UUID drawn, and put their serialized forms at the head
    of the list, the last one first; it has made no call to a handler. *)
Definition pushed (n : nat) (key : string) (w0 w1 : World)
    (envelopes : list (MessageEnvelope * bytes)) : Prop :=
  length envelopes = n /\
  (forall (k : nat) (e : MessageEnvelope) (d : bytes),
      envelopes !! k = Some (e, d) ->
      ID e = uuids w0 (drawn w0 + k)%nat /\ SerializeMessageEnvelope e = inl d) /\
  drawn w1 = (drawn w0 + n)%nat /\
  uuids w1 = uuids w0 /\
  calls w1 = calls w0 /\
  lists (server w1) !! key =
    Some (rev (map snd envelopes) ++ default [] (lists (server w0) !! key)).

(** The request changed nothing of the sender but, possibly, its
    connection flag. *)
Definition connectionOnly (s s' : valkeySender) : Prop :=
  s' = s \/ exists connected, s' = setConnectionState connected s.

End Notions.

(** ** The calls of the dispatch contract, taken apart *)

Section Dispatch.
Context `{EncodingJSON} `{RateLimiter}.

(** The operation a call hands to the circuit breaker. *)
Definition guarded (r : Request) (ctx : Context)
  : valkeySender -> World -> valkeySender * World * option error :=
  match r with
  | SendRequest queue message ttl => sendMessageInternal ctx queue message ttl
  | BatchRequest queue messages => sendBatchInternal ctx queue messages
  end.

(** The messages of a call, in order. *)
Definition requestMessages (r : Request) : list Message :=
  match r with
  | SendRequest _ message _ => [message]
  | BatchRequest _ messages => messages
  end.

(** The TTL a call gives its envelopes and asks for the key: its own for
    a single send, the configured default for a batch. *)
Definition requestTTL (r : Request) (s : valkeySender) : Duration :=
  match r with
  | SendRequest _ _ ttl => ttl
  | BatchRequest _ _ => MessageTTL (config s)
  end.

(** The text a call puts before a transport error. *)
Definition sendPrefix (r : Request) : string :=
  match r with
  | SendRequest queue _ _ => ("failed to send message to queue " ++ queue)%string
  | BatchRequest queue _ => ("failed to send batch to queue " ++ queue)%string
  end.

(** The text put before the error of a message, or of an envelope, that
    could not be serialized. *)
Definition codecPrefix (p : string) : Prop :=
  exists rest : string,
    p = ("failed to serialize message" ++ rest)%string \/
    p = ("failed to serialize envelope" ++ rest)%string.

(** The envelope [p] (with its serialized form) carries the message
    [m]: its payload is the serialized message, it names the queue and
    the TTL, has no headers, no metadata and no retries, and is kept in
    serialized form. *)
Definition wraps (sz : MessageSerializer) (queue : string) (ttl : Duration)
    (m : Message) (p : MessageEnvelope * bytes) : Prop :=
  Serialize sz m = inl (Payload (fst p)) /\
  Queue (fst p) = queue /\ TTL (fst p) = ttl /\
  Retries (fst p) = 0 /\ Headers (fst p) = ∅ /\ Metadata (fst p) = ∅ /\
  SerializeMessageEnvelope (fst p) = inl (snd p).

(** What the success handler is told of the message at [position] of a
    call. *)
Definition metadataFor (queue : string) (start : Time) (ttl : Duration) (position : Z)
    (id : string) : MessageMetadata :=
  {| md_Queue := queue; md_Position := position; md_MessageID := id;
     md_Headers := ∅; md_Timestamp := start; md_TTL := ttl; md_Size := 0 |}.

(** The call made no round trip: the store and the connection flag are
    as they were. *)
Definition storeUntouched (s s' : valkeySender) (w w' : World) : Prop :=
  server w' = server w /\ trips w' = trips w /\ isConnected s' = isConnected s.

(** The failure [e] has been recorded, and nothing counted as sent. *)
Definition failureCounted (e : error) (s s' : valkeySender) : Prop :=
  errorCount s' = wrap_int64 (errorCount s + 1) /\ lastError s' = Error e /\
  messagesSent s' = messagesSent s /\ lastSuccess s' = lastSuccess s.


(** Calls made one after the other, each by the sender and in the world
    the one before left: the sender and the world at the end, and what
    each call returned. *)
Fixpoint performAll (rs : list (Request * Context)) (s : valkeySender) (w : World)
  : valkeySender * World * list (option error) :=
  match rs with
  | [] => (s, w, [])
  | (r, ctx) :: rest =>
      let '(s, w, err) := perform r ctx s w in
      let '(s, w, errs) := performAll rest s w in
      (s, w, err :: errs)
  end.

(** Over such a sequence of calls: the number of messages of the calls
    that returned no error, and the number of calls that got as far as
    the circuit breaker and returned an error. *)
Fixpoint tally (rs : list (Request * Context)) (s : valkeySender) (w : World) : Z * Z :=
  match rs with
  | [] => (0, 0)
  | (r, ctx) :: rest =>
      let '(s1, w1, err) := perform r ctx s w in
      let '(sent, failed) := tally rest s1 w1 in
      match err with
      | None => (Z.of_nat (requestSize r) + sent, failed)
      | Some _ => (sent, if reachesBreaker r ctx s w then 1 + failed else failed)
      end
  end.

(** Over such a sequence of calls: the number of messages of the calls
    that went to the list [key] and returned no error. *)
Fixpoint acknowledgedTo (key : string) (rs : list (Request * Context))
    (s : valkeySender) (w : World) : nat :=
  match rs with
  | [] => 0%nat
  | (r, ctx) :: rest =>
      let '(s1, w1, err) := perform r ctx s w in
      match err with
      | None =>
          if String.eqb key (getQueueKey s (requestQueue r))
          then (requestSize r + acknowledgedTo key rest s1 w1)%nat
          else acknowledgedTo key rest s1 w1
      | Some _ => acknowledgedTo key rest s1 w1
      end
  end.

(** The length of the list the store holds for [key]. *)
Definition queueLength (key : string) (w : World) : nat :=
  length (default [] (lists (server w) !! key)).

End Dispatch.

(** ** A concrete setting to run the package in *)

(** A small codec with the interface of [encoding/json], an instance of
    the rate limiter, and a sender in a small world; the closed examples
    below are computed on these. *)
Module Sample.

(** Three kinds of values: a boolean, a channel, and an envelope. *)
Inductive value : Type :=
| Flag (b : bool)
| Channel
| Envelope (id queue : string) (timestamp : Time).

#[export] Instance values : GoValues := {| Value := value |}.

Definition quote : string := String "034"%char EmptyString.

(** Booleans are encoded as JSON does, a channel is refused as JSON
    does, an envelope is shown by its id and queue. *)
Definition marshal (v : value) : bytes + error :=
  match v with
  | Flag true => inl (list_byte_of_string "true")
  | Flag false => inl (list_byte_of_string "false")
  | Channel => inr (New "json: unsupported type: chan int")
  | Envelope id queue _ =>
      inl (list_byte_of_string
             ("{" ++ quote ++ "id" ++ quote ++ ":" ++ quote ++ id ++ quote ++ ","
              ++ quote ++ "queue" ++ quote ++ ":" ++ quote ++ queue ++ quote ++ "}")%string)
  end.

Definition unmarshal (data : bytes) (target : value) : value * option error :=
  match target with
  | Flag _ =>
      if String.eqb (string_of_list_byte data) "true" then (Flag true, None)
      else if String.eqb (string_of_list_byte data) "false" then (Flag false, None)
      else (target, Some (New "json: cannot unmarshal into Go value of type bool"))
  | _ => (target, Some (New "json: cannot unmarshal into this Go value"))
  end.

#[export] Instance json : EncodingJSON :=
  {| envelopeValue := fun e => Envelope (ID e) (Queue e) (Timestamp e);
     json_Marshal := marshal;
     json_Unmarshal := unmarshal |}.

#[export] Instance limiter : RateLimiter :=
  {| Limiter := TokenBucket.Bucket;
     NewLimiter := TokenBucket.new;
     Wait := TokenBucket.acquire |}.

(** A world whose clock advances by [step] at every reading, starting at
    [t0], whose k-th UUID is id-k, whose store is empty and whose
    network behaves as [net] says. *)
Definition world (t0 : Time) (step : Duration) (net : nat -> RoundTrip) : World :=
  {| clock := fun k => t0 + Z.of_nat k * step;
     ticks := 0;
     uuids := fun k => ("id-" ++ pretty k)%string;
     drawn := 0;
     network := net;
     trips := 0;
     server := {| lists := ∅; expirations := ∅ |};
     calls := [];
     keyPairs := fun _ _ => None |}.

Definition reliable : nat -> RoundTrip := fun _ => Answered.

(** The network answers the first round trip (the PING of
    [NewSender]) and fails ever after. *)
Definition unreachable (k : nat) : RoundTrip :=
  match k with
  | O => Answered
  | S _ => Failed (New "dial tcp: connection refused")
  end.

Definition withHandlers : SenderOptions :=
  {| ErrorHandler := true; SuccessHandler := true; MetricsHandler := false;
     Logger := None; Serializer := None; QueueNamer := None;
     EnableDeduplication := false; DeduplicationWindow := 0 |}.

(** A sender with no requests passed and no errors, not constructed
    through [NewSender], and so in no need of a store. *)
Definition sender (config : Config) (options : SenderOptions) : valkeySender :=
  {| config := config; options := options; serializer := NewJSONSerializer;
     circuitBreaker :=
       fst (gobreaker.NewCircuitBreaker (breakerSettings config) (world 0 Second reliable));
     rateLimiter := NewLimiter (RateLimitRequests config) (RateLimitBurst config);
     startTime := 0; messagesSent := 0; errorCount := 0;
     lastSuccess := 0; lastError := ""; isConnected := true |}.

(** The network never reaches the store. *)
Definition down : nat -> RoundTrip := fun _ => Failed (New "dial tcp: connection refused").

(** The sender [NewSender] builds ([fallback] if it fails), and the world
    it leaves. *)
Definition built (config : Config) (options : option SenderOptions) (w : World)
    (fallback : valkeySender) : valkeySender * World :=
  match NewSender (Some config) options w with
  | (inl s, w') => (s, w')
  | (inr _, w') => (fallback, w')
  end.

(** [n] sends of the same message, one after the other: the sender and
    the world they leave, and what each of them returned. *)
Fixpoint sendRepeatedly (n : nat) (ctx : Context) (queue : string) (message : Message)
    (s : valkeySender) (w : World) : valkeySender * World * list (option error) :=
  match n with
  | O => (s, w, [])
  | S n' =>
      let '(s, w, err) := SendMessage ctx queue message s w in
      let '(s, w, errs) := sendRepeatedly n' ctx queue message s w in
      (s, w, err :: errs)
  end.

(** Every one of these [n] sends gets as far as the breaker and fails,
    and the counting interval of the breaker has run out at neither of
    the two clock readings the breaker takes for it. *)
Fixpoint failsThroughout (n : nat) (ctx : Context) (queue : string) (message : Message)
    (s : valkeySender) (w : World) : bool :=
  match n with
  | O => true
  | S n' =>
      let '(s1, w1, err) := SendMessage ctx queue message s w in
      match err with Some _ => true | None => false end
      && reachesBreaker (SendRequest queue message (MessageTTL (config s))) ctx s w
      && negb (intervalExpired (circuitBreaker s) (clock w (2 + ticks w)%nat))
      && negb (intervalExpired (circuitBreaker s) (clock w (pred (ticks w1))))
      && failsThroughout n' ctx queue message s1 w1
  end.

(** A context that was cancelled at time 0. *)
Definition cancelled : Context := {| done := Some (0, Canceled) |}.

(** The default configuration, with a negative number of retries. *)
Definition negativeRetries : Config :=
  {| Address := Address defaultConfig; Username := ""; Password := "";
     Database := 0; DialTimeout := 5 * Second; ReadTimeout := 3 * Second;
     WriteTimeout := 3 * Second; PoolSize := 10; MinIdleConns := 2;
     MaxIdleTime := 5 * Minute; ConnMaxLifetime := Hour;
     DefaultQueue := DefaultQueue defaultConfig; MessageTTL := 24 * Hour;
     MaxRetries := -1; RetryDelay := Second;
     BreakerMaxRequests := 5; BreakerInterval := 2 * Minute;
     BreakerTimeout := 60 * Second; RateLimitRequests := 1000;
     RateLimitBurst := 2000; TLSEnabled := false; TLSSkipVerify := false;
     TLSCertFile := ""; TLSKeyFile := ""; TLSCAFile := ""; LogLevel := "INFO" |}.

(** Stand-ins for the parsers, which read a fragment of what the Go
    parsers read: unsigned decimal numbers, the spellings of the
    booleans, and durations made of a decimal number and one of the
    units h, m, s and ms. *)
Definition isDigit (c : ascii) : bool :=
  (48 <=? nat_of_ascii c)%nat && (nat_of_ascii c <=? 57)%nat.

Fixpoint digitsValue (s : string) (acc : Z) : option Z :=
  match s with
  | EmptyString => Some acc
  | String c rest =>
      if isDigit c then digitsValue rest (10 * acc + (Z.of_nat (nat_of_ascii c) - 48))
      else None
  end.

Definition decimal (s : string) : option Z :=
  match s with
  | EmptyString => None
  | _ => digitsValue s 0
  end.

Fixpoint splitDigits (s : string) : string * string :=
  match s with
  | EmptyString => (EmptyString, EmptyString)
  | String c rest =>
      if isDigit c then let (d, u) := splitDigits rest in (String c d, u)
      else (EmptyString, s)
  end.

Definition atoi (s : string) : Z * option error :=
  match decimal s with
  | Some n => if n <? 2 ^ 63 then (n, None) else (2 ^ 63 - 1, Some (New "value out of range"))
  | None => (0, Some (New "invalid syntax"))
  end.

Definition parseUint (s : string) (base bitSize : Z) : Z * option error :=
  match decimal s with
  | Some n =>
      if n <? 2 ^ bitSize then (n, None)
      else (2 ^ bitSize - 1, Some (New "value out of range"))
  | None => (0, Some (New "invalid syntax"))
  end.

Definition parseBool (s : string) : bool * option error :=
  if existsb (String.eqb s) ["1"; "t"; "T"; "TRUE"; "true"; "True"] then (true, None)
  else if existsb (String.eqb s) ["0"; "f"; "F"; "FALSE"; "false"; "False"] then (false, None)
  else (false, Some (New "invalid syntax")).

Definition parseDuration (s : string) : Duration * option error :=
  let (d, u) := splitDigits s in
  match decimal d with
  | None => (0, Some (New "time: invalid duration"))
  | Some n =>
      if String.eqb u "h" then (n * Hour, None)
      else if String.eqb u "m" then (n * Minute, None)
      else if String.eqb u "s" then (n * Second, None)
      else if String.eqb u "ms" then (n * Millisecond, None)
      else (0, Some (New "time: unknown unit in duration"))
  end.

#[export] Instance parsers : Parsers :=
  {| strconv_Atoi := atoi;
     strconv_ParseUint := parseUint;
     strconv_ParseBool := parseBool;
     time_ParseDuration := parseDuration |}.

(** Four calls: a send, an empty batch, a send of a nil message and a
    batch of two. *)
Definition fourCalls : list (Request * Context) :=
  [(SendRequest "jobs" (Str "hello") Second, Background);
   (BatchRequest "jobs" [], Background);
   (SendRequest "jobs" Nil Second, Background);
   (BatchRequest "jobs" [Str "first"; Str "second"], Background)].

End Sample.

(** * Properties *)

(** ** Configuration *)

Lemma is_empty_true (s : string) : is_empty s = true <-> s = "".
Proof. destruct s; simpl; split; congruence. Qed.

Lemma is_empty_false (s : string) : is_empty s = false <-> s <> "".
Proof. destruct s; simpl; split; congruence. Qed.

(** The boolean tests of [validate], as propositions. *)
Ltac validate_facts :=
  unfold Millisecond, Second in *;
  repeat match goal with
         | H : is_empty _ = true |- _ => apply is_empty_true in H
         | H : is_empty _ = false |- _ => apply is_empty_false in H
         | H : (_ || _)%bool = true |- _ => apply orb_true_iff in H; destruct H
         | H : (_ || _)%bool = false |- _ => apply orb_false_iff in H; destruct H
         | H : (_ <? _) = true |- _ => apply Z.ltb_lt in H
         | H : (_ <? _) = false |- _ => apply Z.ltb_ge in H
         | H : (_ >? _) = true |- _ => rewrite Z.gtb_ltb in H
         | H : (_ >? _) = false |- _ => rewrite Z.gtb_ltb in H
         end.

(** C9 (as amended). [validate] accepts a configuration exactly when the
    rules the specification lists hold (address non-empty, database
    between 0 and 15, dial, read and write timeouts of at least 1ms, pool
    size at least 1, min idle connections at most the pool size, default
    queue non-empty, message TTL at least one second, certificate and key
    file named when TLS is enabled) and, besides, min idle connections
    and max retries are not negative and the retry delay is at least
    1ms. *)
Theorem validate_accepts_iff (c : Config) : validate c = None <-> code_valid c.
Proof.
  unfold validate, code_valid, spec_valid.
  repeat match goal with
         | |- (if ?b then Some _ else _) = None <-> _ =>
             let E := fresh "E" in
             destruct b eqn:E;
             [ split;
               [ discriminate
               | intros Hv; exfalso; validate_facts; intuition (congruence || lia) ]
             | ]
         | |- (if ?b then _ else None) = None <-> _ =>
             let E := fresh "E" in destruct b eqn:E
         end;
    validate_facts;
    (split; [ intros _; intuition (congruence || lia) | reflexivity ]).
Qed.

(** C9, a counterexample to the claim as stated: a configuration that
    meets every rule the specification lists, and is rejected (for its
    negative number of retries). *)
Lemma validate_rejects_spec_valid :
  spec_valid Sample.negativeRetries /\
  validate Sample.negativeRetries = Some (New "max retries cannot be negative").
Proof.
  split; [| reflexivity].
  unfold spec_valid; simpl; unfold Millisecond, Second, Hour, Minute, Second.
  repeat split; try lia; try discriminate.
Qed.

(** ** The environment *)

Section EnvironmentProperties.
Context `{Parsers}.

Lemma Getenv_delete_ne (env : gmap string string) (key k : string) :
  k <> key -> Getenv (delete key env) k = Getenv env k.
Proof. intros Hk. unfold Getenv. now rewrite lookup_delete_ne by congruence. Qed.

Lemma Getenv_delete_eq (env : gmap string string) (key : string) : Getenv (delete key env) key = "".
Proof. unfold Getenv. now rewrite lookup_delete_eq. Qed.

(** Reading a variable that is set to the empty string, or to a value
    the parser rejects, gives what reading it when it is not set
    gives. *)
Lemma getEnvOrDefault_delete (env : gmap string string) (key k d : string) :
  k <> key \/ Getenv env key = "" ->
  getEnvOrDefault (delete key env) k d = getEnvOrDefault env k d.
Proof.
  unfold getEnvOrDefault. intros [Hk | Hv].
  - now rewrite Getenv_delete_ne.
  - destruct (decide (k = key)) as [-> | Hk]; [| now rewrite Getenv_delete_ne].
    now rewrite Getenv_delete_eq, Hv.
Qed.

Lemma Getenv_delete (env : gmap string string) (key k : string) :
  k <> key \/ Getenv env key = "" ->
  Getenv (delete key env) k = Getenv env k.
Proof.
  intros [Hk | Hv]; [now apply Getenv_delete_ne |].
  destruct (decide (k = key)) as [-> | Hk]; [| now apply Getenv_delete_ne].
  now rewrite Getenv_delete_eq, Hv.
Qed.

Lemma parseIntOrDefault_delete (env : gmap string string) (key k d : string) :
  k <> key \/ Getenv env key = "" \/ snd (strconv_Atoi (Getenv env key)) <> None ->
  parseIntOrDefault (delete key env) k d = parseIntOrDefault env k d.
Proof.
  unfold parseIntOrDefault. intros Hcase.
  destruct (decide (k = key)) as [-> | Hk]; [| now rewrite Getenv_delete_ne].
  rewrite Getenv_delete_eq. cbn.
  destruct Hcase as [Hk | [-> | Hrej]]; [congruence | reflexivity |].
  destruct (is_empty (Getenv env key)); [reflexivity |]. cbn.
  destruct (strconv_Atoi (Getenv env key)) as [v [e |]]; [reflexivity | now cbn in Hrej].
Qed.

Lemma parseUint32OrDefault_delete (env : gmap string string) (key k d : string) :
  k <> key \/ Getenv env key = "" \/ snd (strconv_ParseUint (Getenv env key) 10 32) <> None ->
  parseUint32OrDefault (delete key env) k d = parseUint32OrDefault env k d.
Proof.
  unfold parseUint32OrDefault. intros Hcase.
  destruct (decide (k = key)) as [-> | Hk]; [| now rewrite Getenv_delete_ne].
  rewrite Getenv_delete_eq. cbn.
  destruct Hcase as [Hk | [-> | Hrej]]; [congruence | reflexivity |].
  destruct (is_empty (Getenv env key)); [reflexivity |]. cbn.
  destruct (strconv_ParseUint (Getenv env key) 10 32) as [v [e |]];
    [reflexivity | now cbn in Hrej].
Qed.

Lemma parseDurationOrDefault_delete (env : gmap string string) (key k d : string) :
  k <> key \/ Getenv env key = "" \/ snd (time_ParseDuration (Getenv env key)) <> None ->
  parseDurationOrDefault (delete key env) k d = parseDurationOrDefault env k d.
Proof.
  unfold parseDurationOrDefault. intros Hcase.
  destruct (decide (k = key)) as [-> | Hk]; [| now rewrite Getenv_delete_ne].
  rewrite Getenv_delete_eq. cbn.
  destruct Hcase as [Hk | [-> | Hrej]]; [congruence | reflexivity |].
  destruct (is_empty (Getenv env key)); [reflexivity |]. cbn.
  destruct (time_ParseDuration (Getenv env key)) as [v [e |]];
    [reflexivity | now cbn in Hrej].
Qed.

Lemma parseBoolOrDefault_delete (env : gmap string string) (key k d : string) :
  k <> key \/ Getenv env key = "" \/ snd (strconv_ParseBool (Getenv env key)) <> None ->
  parseBoolOrDefault (delete key env) k d = parseBoolOrDefault env k d.
Proof.
  unfold parseBoolOrDefault. intros Hcase.
  destruct (decide (k = key)) as [-> | Hk]; [| now rewrite Getenv_delete_ne].
  rewrite Getenv_delete_eq. cbn.
  destruct Hcase as [Hk | [-> | Hrej]]; [congruence | reflexivity |].
  destruct (is_empty (Getenv env key)); [reflexivity |]. cbn.
  destruct (strconv_ParseBool (Getenv env key)) as [v [e |]];
    [reflexivity | now cbn in Hrej].
Qed.

(** One of the listed variables is none of the others. *)
Ltac other_variable :=
  match goal with
  | Hin : In _ _ |- _ <> _ =>
      let Heq := fresh in
      intros Heq; subst; cbn in Hin; intuition discriminate
  end.

(** X1. [LoadConfig] treats a variable that is set to a value it cannot
    use exactly as a variable that is not set: when the value is the
    empty string, or is rejected by the parser that reads the variable
    (as a number, a duration or a boolean), the result is the one
    [LoadConfig] gives in the environment without that variable. A
    malformed value is no error: the default takes its place. *)
Theorem LoadConfig_unusable_value (env : gmap string string) (key value : string) :
  env !! key = Some value ->
  unusable key value ->
  LoadConfig env = LoadConfig (delete key env).
Proof.
  intros Hset Hun.
  assert (Hget : Getenv env key = value) by (unfold Getenv; now rewrite Hset).
  unfold LoadConfig. f_equal. symmetry.
  destruct Hun as [-> | [[Hin Hrej] | [[Hin Hrej] | [[Hin Hrej] | [Hin Hrej]]]]];
    rewrite <- Hget in *;
    f_equal;
    first [ apply getEnvOrDefault_delete | apply Getenv_delete
          | apply parseIntOrDefault_delete | apply parseUint32OrDefault_delete
          | apply parseDurationOrDefault_delete | apply parseBoolOrDefault_delete ];
    first [ now right | now (right; left) | now (right; right)
          | left; other_variable ].
Qed.

(** [validate] lets no configuration through that enables TLS without
    naming both files. *)
Lemma validate_TLS (c : Config) :
  validate c = None -> TLSEnabled c = true ->
  TLSCertFile c <> "" /\ TLSKeyFile c <> "".
Proof.
  unfold validate. intros Hv Htls. rewrite Htls in Hv.
  repeat match type of Hv with
         | (if ?b then _ else _) = None => destruct b eqn:?; [discriminate |]
         end.
  match goal with
  | Hb : _ || _ = false |- _ => apply orb_false_iff in Hb; destruct Hb as [Hc Hk]
  end.
  now rewrite <- !is_empty_false.
Qed.

(** X2. When the environment switches TLS on and leaves the certificate
    file or the key file unnamed, [LoadConfig] fails, whatever the other
    variables say, and the error it returns is a validation error
    wrapped with the text "configuration validation failed". *)
Theorem LoadConfig_TLS_needs_files (env : gmap string string) :
  parseBoolOrDefault env "VALKEY_SENDER_TLS_ENABLED" "false" = true ->
  Getenv env "VALKEY_SENDER_TLS_CERT_FILE" = "" \/
  Getenv env "VALKEY_SENDER_TLS_KEY_FILE" = "" ->
  exists e, LoadConfig env = inr (Wrap "configuration validation failed" e).
Proof.
  intros Htls Hfiles. unfold LoadConfig, LoadConfig_checked.
  match goal with
  | |- context [validate ?c] => destruct (validate c) as [e |] eqn:Hv
  end; [now exists e |].
  apply validate_TLS in Hv; [| exact Htls]. cbn in Hv. tauto.
Qed.

End EnvironmentProperties.

(** ** The logger *)

Section LoggerProperties.
Context `{SlogHandler}.

(** X3. [multiHandler]. It is enabled for a level exactly when one of
    its handlers is. A record it handles goes to the handlers in order,
    until one fails: the handlers after the first one that fails are not
    handed the record, and the error returned is that handler's; when
    none fails, every handler has been handed the record and no error is
    returned. *)
Theorem multiHandler_spec (handlers : list Handler) (level : Level) (record : LogRecord) :
  (multiHandler_Enabled handlers level = true <->
   exists h, h ∈ handlers /\ handler_Enabled h level = true) /\
  (let (handed, err) := multiHandler_Handle handlers record in
   exists skipped : list Handler,
     handlers = handed ++ skipped /\
     match err with
     | None =>
         skipped = [] /\ Forall (fun h => handler_Handle h record = None) handlers
     | Some e =>
         exists (before : list Handler) (h : Handler),
           handed = before ++ [h] /\ handler_Handle h record = Some e /\
           Forall (fun h' => handler_Handle h' record = None) before
     end).
Proof.
  split.
  - induction handlers as [| h rest IH]; cbn.
    + split; [discriminate | intros (h & Hin & _); inversion Hin].
    + destruct (handler_Enabled h level) eqn:Hh.
      * split; [intros _ | reflexivity]. exists h. split; [left | exact Hh].
      * rewrite IH. split.
        -- intros (h' & Hin & Hh'). exists h'. split; [now right | exact Hh'].
        -- intros (h' & Hin & Hh'). apply elem_of_cons in Hin.
           destruct Hin as [-> | Hin]; [congruence |]. now exists h'.
  - induction handlers as [| h rest IH]; cbn.
    + exists []. split; [reflexivity |]. split; [reflexivity | constructor].
    + destruct (handler_Handle h record) as [e |] eqn:Hh.
      * exists rest. split; [reflexivity |]. exists [], h.
        split; [reflexivity |]. split; [exact Hh | constructor].
      * destruct (multiHandler_Handle rest record) as [handed [e |]];
          destruct IH as (skipped & -> & IH).
        -- destruct IH as (before & h' & -> & Hh' & Hbefore).
           exists skipped. split; [reflexivity |].
           exists (h :: before), h'.
           split; [reflexivity |]. split; [exact Hh' | now constructor].
        -- destruct IH as [-> Hall]. exists []. split; [reflexivity |].
           split; [reflexivity |]. now constructor.
Qed.

End LoggerProperties.

(** ** The codec *)

Section SerializerProperties.
Context `{EncodingJSON}.

Lemma length_zero_nil {A : Type} (l : list A) : (length l =? 0)%nat = true <-> l = [].
Proof. destruct l; simpl; split; congruence. Qed.

Lemma Deserialize_empty (target : Target) :
  JSONSerializer_Deserialize [] target = (target, Some (New "data cannot be empty")).
Proof. reflexivity. Qed.

Lemma Deserialize_nonempty (data : bytes) (target : Target) :
  data <> [] ->
  JSONSerializer_Deserialize data target =
    match target with
    | NilTarget => (target, Some (New "target cannot be nil"))
    | StringPtr _ => (StringPtr (string_of_list_byte data), None)
    | BytesPtr _ => (BytesPtr data, None)
    | OtherTarget v =>
        match json_Unmarshal data v with
        | (v', Some err) =>
            (OtherTarget v', Some (Wrap "failed to deserialize JSON to target" err))
        | (v', None) => (OtherTarget v', None)
        end
    end.
Proof.
  intros Hd. unfold JSONSerializer_Deserialize.
  destruct data as [| b data]; [congruence | reflexivity].
Qed.

(** C6 (as amended). For every message the default codec serializes to
    a non-empty result, deserializing that result into a target of the
    message's shape gives the message back: always for a string and
    for a byte slice, and for any other value whenever [encoding/json]
    decodes its own encoding of the value back to it. *)
Theorem deserialize_serialize (zero : Value) (x : Message) (data : bytes) :
  JSONSerializer_Serialize x = inl data ->
  data <> [] ->
  json_roundtrips zero x ->
  pointee (fst (JSONSerializer_Deserialize data (targetFor zero x))) = x /\
  snd (JSONSerializer_Deserialize data (targetFor zero x)) = None.
Proof.
  intros Hser Hne Hjson.
  rewrite (Deserialize_nonempty _ _ Hne).
  destruct x as [| str | b | v]; simpl in *.
  - discriminate.
  - injection Hser as <-. now rewrite string_of_list_byte_of_string.
  - injection Hser as <-. now split.
  - destruct (json_Marshal v) as [d | err] eqn:Hm; [| discriminate].
    injection Hser as <-. now rewrite (Hjson d eq_refl).
Qed.

(** C7 (as amended). [Serialize] fails exactly when the message is nil
    or is a value (neither string nor byte slice) that [encoding/json]
    cannot encode. [Deserialize] fails exactly when the data is empty,
    the target is nil, or the target is neither a string nor a byte
    slice and [encoding/json] cannot decode the data into it; on
    non-empty data a string target and a byte-slice target always
    succeed and receive the data unchanged. *)
Theorem serializer_failures :
  (forall m : Message,
      (exists e, JSONSerializer_Serialize m = inr e) <->
      (m = Nil \/ exists v e, m = Other v /\ json_Marshal v = inr e)) /\
  (forall (data : bytes) (t : Target),
      snd (JSONSerializer_Deserialize data t) <> None <->
      (data = [] \/ t = NilTarget \/
       exists v, t = OtherTarget v /\ snd (json_Unmarshal data v) <> None)) /\
  (forall (data : bytes) (cur : string) (curb : bytes),
      data <> [] ->
      JSONSerializer_Deserialize data (StringPtr cur)
        = (StringPtr (string_of_list_byte data), None) /\
      JSONSerializer_Deserialize data (BytesPtr curb) = (BytesPtr data, None)).
Proof.
  split; [| split].
  - intros m; split.
    + intros [e He]. destruct m as [| str | b | v]; simpl in He; try discriminate.
      * now left.
      * right. destruct (json_Marshal v) as [d | err] eqn:Hm; [discriminate |].
        now exists v, err.
    + intros [-> | (v & e & -> & Hm)]; simpl.
      * eexists; reflexivity.
      * rewrite Hm. eexists; reflexivity.
  - intros data t; split.
    + intros Herr. destruct data as [| b data]; [now left | right].
      rewrite Deserialize_nonempty in Herr by discriminate.
      destruct t as [| cur | cur | v]; simpl in Herr; try congruence.
      * now left.
      * right. exists v. split; [reflexivity |].
        destruct (json_Unmarshal (b :: data) v) as [v' [err |]]; simpl in *; congruence.
    + intros [-> | [-> | (v & -> & Hu)]].
      * rewrite Deserialize_empty. discriminate.
      * destruct data; simpl; discriminate.
      * destruct data as [| b data]; [rewrite Deserialize_empty; discriminate |].
        rewrite Deserialize_nonempty by discriminate.
        destruct (json_Unmarshal (b :: data) v) as [v' [err |]]; simpl in *; congruence.
  - intros data cur curb Hne. now rewrite !Deserialize_nonempty by assumption.
Qed.

(** X4. Decoding and encoding again gives the data back: for data that
    is not empty and a target that is a string or a byte slice,
    whatever it held before, [Deserialize] succeeds, and [Serialize] of
    what the target then holds returns exactly the data. *)
Theorem serialize_deserialize (data : bytes) (target : Target) :
  data <> [] ->
  (exists s0, target = StringPtr s0) \/ (exists b0, target = BytesPtr b0) ->
  exists target',
    JSONSerializer_Deserialize data target = (target', None) /\
    JSONSerializer_Serialize (pointee target') = inl data.
Proof.
  intros Hdata Htarget. unfold JSONSerializer_Deserialize.
  destruct data as [| b data]; [congruence |]. cbn [length Nat.eqb].
  destruct Htarget as [[s0 ->] | [b0 ->]]; eexists; (split; [reflexivity |]);
    cbn [pointee JSONSerializer_Serialize].
  - now rewrite list_byte_of_string_of_list_byte.
  - reflexivity.
Qed.

End SerializerProperties.

(** ** The circuit breaker *)

Section BreakerProperties.
Import gobreaker.

Lemma sameSettings_refl (cb : CircuitBreaker) : sameSettings cb cb.
Proof. unfold sameSettings; tauto. Qed.

Lemma sameSettings_trans (a b c : CircuitBreaker) :
  sameSettings a b -> sameSettings b c -> sameSettings a c.
Proof. unfold sameSettings; intuition congruence. Qed.

(** One more failure of a closed breaker that stays below the trip
    threshold: the request runs, the failure is counted, and the breaker
    stays closed. *)
Lemma closed_failure_counted (T n : Z) (cb : CircuitBreaker) (tb ta : Time) (e : error) :
  (forall c, readyToTrip cb c = (ConsecutiveFailures c >? T)) ->
  isSuccessful cb (Some e) = false ->
  state cb = StateClosed ->
  ConsecutiveFailures (counts cb) = n ->
  0 <= n -> n + 1 <= T -> n + 1 < 2 ^ 32 ->
  intervalExpired cb tb = false -> intervalExpired cb ta = false ->
  exists cb', call tb ta (Some e) cb = (cb', Some e) /\
              sameSettings cb cb' /\
              state cb' = StateClosed /\
              ConsecutiveFailures (counts cb') = n + 1 /\
              expiry cb' = expiry cb /\
              stateChanges cb' = stateChanges cb.
Proof.
  intros Htrip Hfail Hst Hn Hn0 HnT Hn32 Hxb Hxa.
  destruct cb as [nm mx iv tm rt ok osc st gen cnt ex chg].
  unfold intervalExpired in Hxb, Hxa. cbn in *. subst st.
  unfold call, beforeRequest, currentState. cbn. rewrite Hxb. cbn.
  rewrite Hfail. unfold afterRequest, currentState. cbn. rewrite Hxa. cbn.
  rewrite Z.eqb_refl. cbn. rewrite Htrip. cbn.
  unfold wrap_uint32. rewrite Hn, Z.mod_small by lia.
  destruct (Z.gtb_spec (n + 1) T) as [Hgt | Hle]; [lia |].
  eexists. split; [reflexivity |].
  unfold sameSettings. cbn -[wrap_uint32]. unfold wrap_uint32.
  rewrite Hn, Z.mod_small by lia.
  repeat split; reflexivity.
Qed.

(** The failure that takes a closed breaker over the threshold: the
    request runs, and the breaker opens, with the open timeout counted
    from the moment the failure is reported. *)
Lemma closed_failure_trips (T : Z) (cb : CircuitBreaker) (tb ta : Time) (e : error) :
  (forall c, readyToTrip cb c = (ConsecutiveFailures c >? T)) ->
  isSuccessful cb (Some e) = false ->
  state cb = StateClosed ->
  ConsecutiveFailures (counts cb) = T ->
  0 <= T -> T + 1 < 2 ^ 32 ->
  intervalExpired cb tb = false -> intervalExpired cb ta = false ->
  exists cb', call tb ta (Some e) cb = (cb', Some e) /\
              sameSettings cb cb' /\
              state cb' = StateOpen /\
              expiry cb' = ta + timeout cb /\
              stateChanges cb' =
                stateChanges cb ++
                (if onStateChange cb then [(name cb, StateClosed, StateOpen)] else []).
Proof.
  intros Htrip Hfail Hst Hn Hn0 Hn32 Hxb Hxa.
  destruct cb as [nm mx iv tm rt ok osc st gen cnt ex chg].
  unfold intervalExpired in Hxb, Hxa. cbn in *. subst st.
  unfold call, beforeRequest, currentState. cbn. rewrite Hxb. cbn.
  rewrite Hfail. unfold afterRequest, currentState. cbn. rewrite Hxa. cbn.
  rewrite Z.eqb_refl. cbn. rewrite Htrip. cbn.
  unfold wrap_uint32. rewrite Hn, Z.mod_small by lia.
  destruct (Z.gtb_spec (T + 1) T) as [Hgt | Hle]; [| lia].
  unfold setState. cbn. destruct osc; cbn.
  - eexists. split; [reflexivity |]. unfold sameSettings; cbn.
    repeat split; reflexivity.
  - eexists. split; [reflexivity |]. unfold sameSettings; cbn. rewrite app_nil_r.
    repeat split; reflexivity.
Qed.

(** While the timeout of an open breaker has not run out, a call is
    turned away with [ErrOpenState] and the breaker stays as it is. *)
Lemma open_beforeRequest (cb : CircuitBreaker) (now : Time) :
  state cb = StateOpen -> now <= expiry cb ->
  beforeRequest now cb = (cb, (generation cb, Some ErrOpenState)).
Proof.
  intros Hst Hnow. unfold beforeRequest, currentState. rewrite Hst.
  destruct (Z.ltb_spec (expiry cb) now) as [Hlt | Hge]; [lia |].
  now rewrite Hst.
Qed.

Lemma open_Execute {St : Type} (req : St -> World -> St * World * option error)
    (cb : CircuitBreaker) (s : St) (w : World) :
  state cb = StateOpen -> clock w (ticks w) <= expiry cb ->
  Execute req cb s w = (cb, s, snd (timeNow w), Some ErrOpenState).
Proof.
  intros Hst Hnow. unfold Execute. cbn [timeNow].
  now rewrite (open_beforeRequest cb _ Hst Hnow).
Qed.

(** Once the timeout has run out, the next call finds the breaker
    half-open and is let through (the quota of trial calls being at
    least one). *)
Lemma expired_beforeRequest (cb : CircuitBreaker) (now : Time) :
  state cb = StateOpen -> expiry cb < now -> 0 < maxRequests cb ->
  exists cb' g, beforeRequest now cb = (cb', (g, None)) /\ state cb' = StateHalfOpen.
Proof.
  intros Hst Hnow Hmax. unfold beforeRequest, currentState. rewrite Hst.
  destruct (Z.ltb_spec (expiry cb) now) as [Hlt | Hge]; [| lia].
  unfold setState. rewrite Hst. cbn.
  destruct (onStateChange cb); cbn;
    (destruct (Z.geb_spec 0 (maxRequests cb)) as [Hge | Hlt']; [lia |]);
    do 2 eexists; split; reflexivity.
Qed.

Lemma intervalExpired_same (cb cb' : CircuitBreaker) (t : Time) :
  expiry cb' = expiry cb -> intervalExpired cb' t = intervalExpired cb t.
Proof. unfold intervalExpired. now intros ->. Qed.

Lemma failingCalls_app (l1 l2 : list (Time * Time * error)) :
  forall cb : CircuitBreaker,
    failingCalls (l1 ++ l2) cb =
      (fst (failingCalls l2 (fst (failingCalls l1 cb))),
       snd (failingCalls l1 cb) ++ snd (failingCalls l2 (fst (failingCalls l1 cb)))).
Proof.
  induction l1 as [| [[tb ta] e] l1 IH]; intros cb; cbn.
  - now destruct (failingCalls l2 cb).
  - destruct (call tb ta (Some e) cb) as [cb1 r].
    rewrite IH. now destruct (failingCalls l1 cb1).
Qed.

(** A run of failures that stays below the threshold, within one
    counting interval: every request runs, every failure is counted, the
    breaker stays closed. *)
Lemma closed_failures_counted (T : Z) (l : list (Time * Time * error)) :
  forall (cb : CircuitBreaker) (n : Z),
    (forall c, readyToTrip cb c = (ConsecutiveFailures c >? T)) ->
    (forall e, isSuccessful cb (Some e) = false) ->
    state cb = StateClosed ->
    ConsecutiveFailures (counts cb) = n ->
    0 <= n -> n + Z.of_nat (length l) <= T -> T + 1 < 2 ^ 32 ->
    (forall tb ta e, In (tb, ta, e) l ->
                     intervalExpired cb tb = false /\ intervalExpired cb ta = false) ->
    exists cb', failingCalls l cb = (cb', map (fun c => Some (snd c)) l) /\
                sameSettings cb cb' /\
                state cb' = StateClosed /\
                ConsecutiveFailures (counts cb') = n + Z.of_nat (length l) /\
                expiry cb' = expiry cb /\
                stateChanges cb' = stateChanges cb.
Proof.
  induction l as [| [[tb ta] e] l IH]; intros cb n Htrip Hfail Hst Hn Hn0 HnT H32 Hx.
  - exists cb. cbn. rewrite Z.add_0_r.
    repeat split; auto; apply sameSettings_refl.
  - cbn [length] in HnT. rewrite Nat2Z.inj_succ in HnT.
    destruct (Hx tb ta e (or_introl eq_refl)) as [Hxb Hxa].
    destruct (closed_failure_counted T n cb tb ta e Htrip (Hfail e) Hst Hn Hn0
                ltac:(lia) ltac:(lia) Hxb Hxa)
      as (cb1 & Hcall & Hsame & Hst1 & Hn1 & Hex1 & Hch1).
    pose proof Hsame as (_ & _ & _ & _ & Hrt & Hok & _).
    destruct (IH cb1 (n + 1)) as (cb2 & Hrun & Hsame2 & Hst2 & Hn2 & Hex2 & Hch2);
      try assumption; try lia.
    + intros c. now rewrite Hrt.
    + intros e0. now rewrite Hok.
    + intros tb0 ta0 e0 Hin. rewrite !(intervalExpired_same cb cb1) by assumption.
      apply (Hx tb0 ta0 e0). now right.
    + exists cb2. cbn [failingCalls map snd]. rewrite Hcall, Hrun.
      split; [reflexivity |]. split; [eauto using sameSettings_trans |].
      split; [assumption |]. cbn [length]. rewrite Nat2Z.inj_succ.
      split; [lia |]. split; congruence.
Qed.

(** A run of failures, within one counting interval, that takes a closed
    breaker from no consecutive failure to one more than the threshold:
    every request runs, the breaker is closed until the last failure and
    open after it. *)
Lemma closed_failures_trip (T : Z) (cb : CircuitBreaker) (l : list (Time * Time * error)) :
  0 <= T -> T + 1 < 2 ^ 32 ->
  (forall c, readyToTrip cb c = (ConsecutiveFailures c >? T)) ->
  (forall e, isSuccessful cb (Some e) = false) ->
  state cb = StateClosed ->
  ConsecutiveFailures (counts cb) = 0 ->
  Z.of_nat (length l) = T + 1 ->
  (forall tb ta e, In (tb, ta, e) l ->
                   intervalExpired cb tb = false /\ intervalExpired cb ta = false) ->
  exists cb', failingCalls l cb = (cb', map (fun c => Some (snd c)) l) /\
              (forall l1 l2, l = l1 ++ l2 -> l2 <> [] ->
                             state (fst (failingCalls l1 cb)) = StateClosed) /\
              sameSettings cb cb' /\
              state cb' = StateOpen /\
              stateChanges cb' =
                stateChanges cb ++
                (if onStateChange cb then [(name cb, StateClosed, StateOpen)] else []) /\
              (exists l0 tb ta e, l = l0 ++ [(tb, ta, e)] /\ expiry cb' = ta + timeout cb).
Proof.
  intros HT H32 Htrip Hfail Hst Hn Hlen Hx.
  assert (Hprefix : forall l1 l2, l = l1 ++ l2 -> l2 <> [] ->
            exists cb1, failingCalls l1 cb = (cb1, map (fun c => Some (snd c)) l1) /\
                        sameSettings cb cb1 /\ state cb1 = StateClosed /\
                        ConsecutiveFailures (counts cb1) = Z.of_nat (length l1) /\
                        expiry cb1 = expiry cb /\ stateChanges cb1 = stateChanges cb).
  { intros l1 l2 -> Hl2. rewrite length_app, Nat2Z.inj_add in Hlen.
    assert (0 < Z.of_nat (length l2)) by (destruct l2; [congruence | cbn; lia]).
    apply (closed_failures_counted T l1 cb 0); try assumption; try lia.
    intros tb ta e Hin. apply (Hx tb ta e). apply in_or_app. now left. }
  destruct (exists_last (l := l)) as (l0 & [[tb ta] e] & Hl).
  { intros ->. cbn in Hlen. lia. }
  destruct (Hprefix l0 [(tb, ta, e)] Hl ltac:(discriminate))
    as (cb1 & Hrun1 & Hsame1 & Hst1 & Hn1 & Hex1 & Hch1).
  pose proof Hsame1 as (Hnm & _ & _ & Htm & Hrt & Hok & Hosc).
  assert (Hlen0 : Z.of_nat (length l0) = T).
  { rewrite Hl, length_app, Nat2Z.inj_add in Hlen. cbn in Hlen. lia. }
  destruct (closed_failure_trips T cb1 tb ta e) as (cb2 & Hcall & Hsame2 & Hst2 & Hex2 & Hch2);
    try assumption; try lia.
  { intros c. now rewrite Hrt. }
  { now rewrite Hok. }
  { rewrite (intervalExpired_same cb cb1) by assumption.
    apply (Hx tb ta e). rewrite Hl. apply in_or_app. right. now left. }
  { rewrite (intervalExpired_same cb cb1) by assumption.
    apply (Hx tb ta e). rewrite Hl. apply in_or_app. right. now left. }
  exists cb2. split; [| split; [| split; [| split; [| split]]]].
  - rewrite Hl, failingCalls_app, Hrun1. cbn [fst snd failingCalls].
    rewrite Hcall. cbn. now rewrite map_app.
  - intros l1 l2 Hl12 Hl2. destruct (Hprefix l1 l2 Hl12 Hl2) as (c1 & Hr & _ & Hs & _).
    now rewrite Hr.
  - eauto using sameSettings_trans.
  - assumption.
  - now rewrite Hch2, Hch1, Hosc, Hnm.
  - exists l0, tb, ta, e. split; [assumption |]. now rewrite Hex2, Htm.
Qed.

End BreakerProperties.

(** ** Binary64 conversion of the counters *)

Section Float64Properties.

Lemma digits2_size (p : positive) : digits2_pos p = Pos.size p.
Proof. induction p; cbn; congruence. Qed.

Lemma digits_lower (p : positive) : 2 ^ (Zpos (digits2_pos p) - 1) <= Zpos p.
Proof.
  rewrite digits2_size.
  pose proof (Pos.size_le p) as H.
  apply Pos2Z.pos_le_pos in H. rewrite Pos2Z.inj_pow in H.
  replace (Zpos (Pos.size p)) with (1 + (Zpos (Pos.size p) - 1)) in H by lia.
  rewrite Z.pow_add_r in H by lia. change (2 ^ 1) with 2 in H. lia.
Qed.

Lemma digits_upper (p : positive) (k : Z) :
  0 <= k -> Zpos p < 2 ^ k -> Zpos (digits2_pos p) <= k.
Proof.
  intros Hk Hp. pose proof (digits_lower p) as H.
  assert (2 ^ (Zpos (digits2_pos p) - 1) < 2 ^ k) by lia.
  apply Z.pow_lt_mono_r_iff in H0; lia.
Qed.

Lemma shr_1_m (mrs : shr_record) :
  0 <= shr_m mrs -> shr_m (shr_1 mrs) = shr_m mrs / 2.
Proof.
  destruct mrs as [m r s]. cbn. intros Hm.
  destruct m as [| [p | p |] | p]; cbn; try lia.
  - reflexivity.
  - rewrite Pos2Z.inj_xI. apply Z.div_unique with (r := 1); lia.
  - rewrite Pos2Z.inj_xO. apply Z.div_unique with (r := 0); lia.
  - reflexivity.
Qed.

Lemma iter_shr_1_m (n : positive) :
  forall mrs : shr_record,
    0 <= shr_m mrs ->
    shr_m (SpecFloat.iter_pos shr_1 n mrs) = shr_m mrs / 2 ^ Zpos n.
Proof.
  induction n as [n IH | n IH |]; intros mrs Hm; cbn [SpecFloat.iter_pos].
  - assert (H1 : 0 <= shr_m (shr_1 mrs)) by (rewrite shr_1_m by lia; apply Z.div_pos; lia).
    assert (H2 : 0 <= shr_m (SpecFloat.iter_pos shr_1 n (shr_1 mrs)))
      by (rewrite IH by lia; apply Z.div_pos; lia).
    rewrite IH, IH, shr_1_m by lia.
    rewrite !Z.div_div by lia. f_equal.
    rewrite Pos2Z.inj_xI. rewrite <- Z.pow_add_r by lia.
    replace (2 * Z.pos n + 1) with (1 + (Zpos n + Zpos n)) by lia.
    rewrite (Z.pow_add_r 2 1) by lia. reflexivity.
  - assert (H2 : 0 <= shr_m (SpecFloat.iter_pos shr_1 n mrs))
      by (rewrite IH by lia; apply Z.div_pos; lia).
    rewrite IH, IH by lia.
    rewrite !Z.div_div by lia. f_equal.
    rewrite Pos2Z.inj_xO. rewrite <- Z.pow_add_r by lia. f_equal. lia.
  - now rewrite shr_1_m.
Qed.

Lemma shr_fexp_pos (p : positive) (e : Z) (l : location) :
  -1000 <= e ->
  0 < shr_m (fst (shr_fexp 53 1024 (Zpos p) e l)) <= Zpos p /\
  e <= snd (shr_fexp 53 1024 (Zpos p) e l) <= e + Z.max 0 (Zpos (digits2_pos p) - 53).
Proof.
  intros He. unfold shr_fexp, fexp, emin. cbn [Zdigits2].
  set (d := Zpos (digits2_pos p)).
  assert (Hd : 1 <= d) by (unfold d; lia).
  replace (Z.max (d + e - 53) (3 - 1024 - 53) - e) with (d - 53) by lia.
  assert (Hm : shr_m (shr_record_of_loc (Zpos p) l) = Zpos p)
    by (destruct l as [| []]; reflexivity).
  unfold shr. destruct (d - 53) as [| q | q] eqn:Hq; cbn [fst snd].
  - rewrite Hm. lia.
  - rewrite iter_shr_1_m by (rewrite Hm; lia). rewrite Hm.
    pose proof (digits_lower p) as Hlow. fold d in Hlow.
    assert (Hpow : 2 ^ Zpos q <= 2 ^ (d - 1)) by (apply Z.pow_le_mono_r; lia).
    assert (0 < 2 ^ Zpos q) by (apply Z.pow_pos_nonneg; lia).
    split; [split |].
    + apply Z.div_str_pos. lia.
    + apply Z.div_le_upper_bound; nia.
    + lia.
  - rewrite Hm. lia.
Qed.

Lemma round_nearest_even_bounds (m : Z) (l : location) :
  m <= round_nearest_even m l <= m + 1.
Proof.
  unfold round_nearest_even. destruct l as [| []]; try lia.
  destruct (Z.even m); lia.
Qed.

Lemma binary_round_aux_finite (sx : bool) (mz : positive) (ez : Z) (l : location) :
  -1000 <= ez <= 0 -> Zpos mz < 2 ^ 63 ->
  exists m e, binary_round_aux 53 1024 sx (Zpos mz) ez l = S754_finite sx m e.
Proof.
  intros Hez Hmz. unfold binary_round_aux.
  pose proof (shr_fexp_pos mz ez l ltac:(lia)) as [Hm1 He1].
  pose proof (digits_upper mz 63 ltac:(lia) Hmz) as Hd1.
  destruct (shr_fexp 53 1024 (Zpos mz) ez l) as [mrs1 e1]. cbn [fst snd] in Hm1, He1.
  pose proof (round_nearest_even_bounds (shr_m mrs1) (loc_of_shr_record mrs1)) as Hr.
  destruct (round_nearest_even (shr_m mrs1) (loc_of_shr_record mrs1)) as [| p1 | p1];
    try lia.
  pose proof (shr_fexp_pos p1 e1 loc_Exact ltac:(lia)) as [Hm2 He2].
  assert (Hp1 : Zpos p1 < 2 ^ 64).
  { change (2 ^ 64) with (2 * 2 ^ 63). lia. }
  pose proof (digits_upper p1 64 ltac:(lia) Hp1) as Hd2.
  destruct (shr_fexp 53 1024 (Zpos p1) e1 loc_Exact) as [mrs2 e2].
  cbn [fst snd] in Hm2, He2.
  destruct (shr_m mrs2) as [| m2 | m2]; try lia.
  destruct (Z.leb_spec e2 (1024 - 53)) as [Hle | Hgt]; [| lia].
  now exists m2, e2.
Qed.

Lemma shift_left_value (p d : positive) :
  Zpos (Pos.iter xO p d) = Zpos p * 2 ^ Zpos d.
Proof.
  rewrite <- (Pos2Z.inj_pow 2 d), <- Pos2Z.inj_mul. f_equal.
  revert p. induction d as [| d IH] using Pos.peano_ind; intros p.
  - cbn. lia.
  - rewrite Pos.iter_succ, IH, Pos.pow_succ_r. lia.
Qed.

Lemma of_positive_finite (p : positive) :
  Zpos p < 2 ^ 63 ->
  exists m e, binary_normalize 53 1024 (Zpos p) 0 false = S754_finite false m e.
Proof.
  intros Hp. cbn [binary_normalize]. unfold binary_round, shl_align, fexp, emin.
  set (d := Zpos (digits2_pos p)).
  assert (Hd1 : d <= 63) by (unfold d; apply digits_upper; [lia | exact Hp]).
  assert (Hd : 1 <= d <= 63) by (unfold d in *; lia).
  replace (Z.max (d + 0 - 53) (3 - 1024 - 53) - 0) with (d - 53) by lia.
  replace (Z.max (d + 0 - 53) (3 - 1024 - 53)) with (d - 53) by lia.
  destruct (d - 53) as [| q | q] eqn:Hq.
  - apply binary_round_aux_finite; lia.
  - apply binary_round_aux_finite; lia.
  - apply binary_round_aux_finite; [lia |].
    rewrite shift_left_value.
    pose proof (Pos.size_gt p) as Hs. rewrite <- digits2_size in Hs.
    apply Pos2Z.pos_lt_pos in Hs. rewrite Pos2Z.inj_pow in Hs. fold d in Hs.
    assert (Zpos q = 53 - d) by lia.
    assert (0 < 2 ^ Zpos q) by (apply Z.pow_pos_nonneg; lia).
    assert (Zpos p * 2 ^ Zpos q < 2 ^ d * 2 ^ Zpos q) by nia.
    rewrite <- Z.pow_add_r in H1 by lia.
    replace (d + Zpos q) with 53 in H1 by lia.
    assert (2 ^ 53 < 2 ^ 63) by (apply Z.pow_lt_mono_r; lia).
    lia.
Qed.

(** The binary64 number nearest to a positive [int64] is a positive
    finite number: never a zero, an infinity or a NaN. *)
Lemma of_int64_positive (x : Z) :
  0 < x < 2 ^ 63 ->
  exists m e, float64.of_int64 x = S754_finite false m e.
Proof.
  intros [H0 H63]. destruct x as [| p | p]; try lia.
  unfold float64.of_int64, float64.prec, float64.emax.
  apply of_positive_finite. exact H63.
Qed.

(** The constants are the correctly rounded [1/2] and [1/10]. *)
Lemma float64_constants :
  float64.half = float64.div (float64.of_int64 1) (float64.of_int64 2) /\
  float64.tenth = float64.div (float64.of_int64 1) (float64.of_int64 10).
Proof. split; vm_compute; reflexivity. Qed.

Lemma statusesAgreeBelow_spec (n : nat) :
  statusesAgreeBelow n = true ->
  forall errorCount messagesSent : Z,
    0 <= errorCount < Z.of_nat n -> 0 <= messagesSent < Z.of_nat n ->
    derivedStatus errorCount messagesSent = exactStatus errorCount messagesSent.
Proof.
  unfold statusesAgreeBelow. intros Hall e m He Hm.
  pose proof (proj1 (forallb_forall _ _) Hall (Z.to_nat e)
                ltac:(apply in_seq; lia)) as Hrow.
  pose proof (proj1 (forallb_forall _ _) Hrow (Z.to_nat m)
                ltac:(apply in_seq; lia)) as Hcell.
  rewrite !Z2Nat.id in Hcell by lia. now apply String.eqb_eq.
Qed.

(** For counters below 100 the binary64 derivation gives exactly what
    the thresholds give in exact arithmetic. *)
Lemma derivedStatus_exact (errorCount messagesSent : Z) :
  0 <= errorCount < 100 -> 0 <= messagesSent < 100 ->
  derivedStatus errorCount messagesSent = exactStatus errorCount messagesSent.
Proof.
  intros He Hm. apply (statusesAgreeBelow_spec 100).
  - vm_compute. reflexivity.
  - exact He.
  - exact Hm.
Qed.

End Float64Properties.

(** ** The sender *)

Section SenderProperties.
Context `{EncodingJSON} `{RateLimiter}.

(** C2. [SendBatch] with no messages returns the empty-batch error and
    leaves the sender (rate limiter and circuit breaker included) and the
    world (clock, store, network) exactly as they were: nothing is
    waited for, executed or sent. *)
Theorem SendBatch_empty (ctx : Context) (queue : string) (s : valkeySender) (w : World) :
  SendBatch ctx queue [] s w = (s, w, Some (New "messages slice cannot be empty")).
Proof. reflexivity. Qed.

(** *** How a guarded call unfolds *)

(** A call through the breaker is either turned away, leaving the
    caller's state alone and the world one clock reading older, or the
    request runs once and its outcome is reported to the breaker. *)
Lemma Execute_inv {St : Type} (req : St -> World -> St * World * option error)
    (cb cb' : gobreaker.CircuitBreaker) (s s' : St) (w w' : World) (err : option error) :
  gobreaker.Execute req cb s w = (cb', s', w', err) ->
  (exists generation e,
      gobreaker.beforeRequest (clock w (ticks w)) cb = (cb', (generation, Some e)) /\
      s' = s /\ w' = snd (timeNow w) /\ err = Some e) \/
  (exists cb1 generation w1,
      gobreaker.beforeRequest (clock w (ticks w)) cb = (cb1, (generation, None)) /\
      req s (snd (timeNow w)) = (s', w1, err) /\
      w' = snd (timeNow w1) /\
      cb' = gobreaker.afterRequest generation (gobreaker.isSuccessful cb1 err)
              (clock w1 (ticks w1)) cb1).
Proof.
  unfold gobreaker.Execute. cbn [timeNow].
  destruct (gobreaker.beforeRequest (clock w (ticks w)) cb) as [cb1 [generation [e |]]] eqn:Hb.
  - intros Hx. injection Hx as ? ? ? ?; subst. left. now exists generation, e.
  - set (w0 := {| clock := clock w; ticks := S (ticks w) |}).
    destruct (req s w0) as [[s1 w1] err1] eqn:Hreq.
    intros Hx. injection Hx as ? ? ? ?; subst. right. now exists cb1, generation, w1.
Qed.

(** The breaker turns a call away with one of its own two errors only. *)
Lemma beforeRequest_error (now : Time) (cb cb' : gobreaker.CircuitBreaker)
    (generation : Z) (e : error) :
  gobreaker.beforeRequest now cb = (cb', (generation, Some e)) ->
  e = ErrOpenState \/ e = ErrTooManyRequests.
Proof.
  unfold gobreaker.beforeRequest.
  destruct (gobreaker.currentState now cb) as [cb1 [st g]].
  destruct st; [ | destruct (_ >=? _) | ]; intros Hx; injection Hx as ? ? ?; subst; auto;
    discriminate.
Qed.

(** The two internal send operations make no call to the handlers and
    change nothing of the sender but its connection flag. *)
Lemma sendMessageInternal_frame (ctx : Context) (queue : string) (message : Message)
    (ttl : Duration) (s s' : valkeySender) (w w' : World) (err : option error) :
  sendMessageInternal ctx queue message ttl s w = (s', w', err) ->
  calls w' = calls w /\ connectionOnly s s'.
Proof.
  unfold sendMessageInternal, pipeExec, roundTrip, connectionOnly. cbn [uuidNew timeNow].
  destruct (Serialize (serializer s) message) as [payload | e].
  - destruct (SerializeMessageEnvelope _) as [data | e].
    + cbn. destruct (network w (trips w)); intros Hx; injection Hx as ? ? ?; subst;
        (split; [reflexivity | right; eexists; reflexivity]).
    + intros Hx; injection Hx as ? ? ?; subst. split; [reflexivity | now left].
  - intros Hx; injection Hx as ? ? ?; subst. split; [reflexivity | now left].
Qed.

Lemma prepareEnvelopes_calls (s : valkeySender) (queue : string) (messages : list Message) :
  forall (i : nat) (w : World),
    calls (fst (prepareEnvelopes s queue i messages w)) = calls w.
Proof.
  induction messages as [| message rest IH]; intros i w; [reflexivity |].
  cbn [prepareEnvelopes uuidNew timeNow].
  destruct (Serialize (serializer s) message) as [payload | e]; [| reflexivity].
  destruct (SerializeMessageEnvelope _) as [data | e]; [| reflexivity].
  specialize (IH (S i)).
  match goal with
  | |- context [prepareEnvelopes s queue (S i) rest ?w0] =>
      specialize (IH w0); destruct (prepareEnvelopes s queue (S i) rest w0) as [w1 [es | e]]
  end; exact IH.
Qed.

Lemma sendBatchInternal_frame (ctx : Context) (queue : string) (messages : list Message)
    (s s' : valkeySender) (w w' : World) (err : option error) :
  sendBatchInternal ctx queue messages s w = (s', w', err) ->
  calls w' = calls w /\ connectionOnly s s'.
Proof.
  unfold sendBatchInternal, pipeExec, roundTrip, connectionOnly.
  pose proof (prepareEnvelopes_calls s queue messages 0%nat w) as Hc.
  destruct (prepareEnvelopes s queue 0 messages w) as [w1 [es | e]]; simpl in Hc.
  - cbn. destruct (network w1 (trips w1)); intros Hx; injection Hx as ? ? ?; subst;
      (split; [exact Hc | right; eexists; reflexivity]).
  - intros Hx; injection Hx as ? ? ?; subst. split; [exact Hc | now left].
Qed.

(** A guarded call of a request with that frame has it too. *)
Lemma Execute_frame (req : valkeySender -> World -> valkeySender * World * option error)
    (cb cb' : gobreaker.CircuitBreaker) (s s' : valkeySender) (w w' : World)
    (err : option error) :
  (forall s0 w0 s1 w1 e, req s0 w0 = (s1, w1, e) ->
                         calls w1 = calls w0 /\ connectionOnly s0 s1) ->
  gobreaker.Execute req cb s w = (cb', s', w', err) ->
  calls w' = calls w /\ connectionOnly s s'.
Proof.
  intros Hreq Hx. apply Execute_inv in Hx.
  destruct Hx as [(g & e & _ & -> & -> & _) | (cb1 & g & w1 & _ & Hr & -> & _)].
  - split; [reflexivity | now left].
  - apply Hreq in Hr. exact Hr.
Qed.

(** What is recorded of a failure: the error counter goes up by one, the
    last-error text is the error's, and the error handler, if there is
    one, is called once with the error. *)
Lemma recordError_spec (err : error) (s s1 : valkeySender) (w w1 : World) :
  recordError err s w = (s1, w1) ->
  errorCount s1 = wrap_int64 (errorCount s + 1) /\
  lastError s1 = Error err /\
  messagesSent s1 = messagesSent s /\
  calls w1 = calls w ++ (if ErrorHandler (options s) then [ErrorHandlerCall err] else []).
Proof.
  unfold recordError. cbn. intros Hx; injection Hx as ? ?; subst. cbn.
  destruct (ErrorHandler (options s)); cbn; now rewrite ?app_nil_r.
Qed.

Lemma connectionOnly_fields (s s' : valkeySender) :
  connectionOnly s s' ->
  errorCount s' = errorCount s /\ lastError s' = lastError s /\
  messagesSent s' = messagesSent s /\ options s' = options s /\
  config s' = config s /\ serializer s' = serializer s.
Proof. intros [-> | [b ->]]; cbn; auto 10. Qed.

(** C3 (as amended). A failed send or batch call that got as far as the
    circuit breaker, whether the breaker turned it away or the codec or
    the transport failed inside it, raises the error counter by exactly
    one, sets the last-error text to the error's text, and calls the
    error handler, if one is installed, exactly once with that error. A
    call that failed before that, as an empty batch or at the rate
    limiter, leaves the counter and the text as they were and calls no
    handler. *)
Theorem failure_recorded_once (r : Request) (ctx : Context)
    (s s' : valkeySender) (w w' : World) (err : error) :
  perform r ctx s w = (s', w', Some err) ->
  if reachesBreaker r ctx s w
  then errorCount s' = wrap_int64 (errorCount s + 1) /\
       lastError s' = Error err /\
       calls w' = calls w ++ (if ErrorHandler (options s) then [ErrorHandlerCall err] else [])
  else errorCount s' = errorCount s /\
       lastError s' = lastError s /\
       calls w' = calls w.
Proof.
  assert (Hguarded :
    forall req lim (w0 : World) cb1 s1 w1 e1,
      (forall s0 w0 s1 w1 e, req s0 w0 = (s1, w1, e) ->
                             calls w1 = calls w0 /\ connectionOnly s0 s1) ->
      calls w0 = calls w ->
      gobreaker.Execute req (circuitBreaker (set_rateLimiter lim s))
        (set_rateLimiter lim s) w0 = (cb1, s1, w1, Some e1) ->
      forall s2 w2, recordError e1 (set_circuitBreaker cb1 s1) w1 = (s2, w2) ->
      errorCount s2 = wrap_int64 (errorCount s + 1) /\
      lastError s2 = Error e1 /\
      calls w2 = calls w ++ (if ErrorHandler (options s) then [ErrorHandlerCall e1] else [])).
  { intros req lim w0 cb1 s1 w1 e1 Hreq Hw0 HE s2 w2 Hrec.
    apply (Execute_frame _ _ _ _ _ _ _ _ Hreq) in HE. destruct HE as [Hc Hs].
    apply connectionOnly_fields in Hs. cbn in Hs.
    destruct Hs as (He & Hl & _ & Ho & _).
    apply recordError_spec in Hrec. cbn in Hrec.
    destruct Hrec as (-> & -> & _ & ->).
    rewrite He, Ho, Hc, Hw0. auto. }
  destruct r as [queue message ttl | queue messages]; cbn [perform reachesBreaker].
  - unfold SendMessageWithTTL, passesLimiter. cbn [timeNow clock ticks].
    destruct (Wait ctx (clock w (S (ticks w))) (rateLimiter s)) as [lim [e |]].
    + intros Hx; injection Hx as ? ? ?; subst. cbn. auto.
    + destruct (gobreaker.Execute _ _ _ _) as [[[cb1 s1] w1] [e1 |]] eqn:HE.
      * destruct (recordError e1 (set_circuitBreaker cb1 s1) w1) as [s2 w2] eqn:Hrec.
        intros Hx; injection Hx as ? ? ?; subst.
        eapply Hguarded; [ | | exact HE | exact Hrec ].
        -- intros; eapply sendMessageInternal_frame; eassumption.
        -- reflexivity.
      * cbn [timeNow]. destruct (SuccessHandler _); cbn [uuidNew]; discriminate.
  - destruct messages as [| m rest].
    + cbn. intros Hx; injection Hx as ? ? ?; subst. auto.
    + unfold SendBatch, passesLimiter. cbn [length Nat.eqb timeNow clock ticks].
      destruct (Wait ctx (clock w (S (ticks w))) (rateLimiter s)) as [lim [e |]].
      * intros Hx; injection Hx as ? ? ?; subst. cbn. auto.
      * destruct (gobreaker.Execute _ _ _ _) as [[[cb1 s1] w1] [e1 |]] eqn:HE.
        -- destruct (recordError e1 (set_circuitBreaker cb1 s1) w1) as [s2 w2] eqn:Hrec.
           intros Hx; injection Hx as ? ? ?; subst.
           eapply Hguarded; [ | | exact HE | exact Hrec ].
           ++ intros; eapply sendBatchInternal_frame; eassumption.
           ++ reflexivity.
        -- cbn [timeNow]. destruct (SuccessHandler _); discriminate.
Qed.

(** *** The sender and its breaker *)

(** While the breaker of a sender is open and its timeout has not run
    out, a call that gets as far as the breaker fails with
    [ErrOpenState]: no envelope is built and nothing is sent to the
    store. *)
Lemma perform_while_open (r : Request) (ctx : Context) (s : valkeySender) (w : World) :
  gobreaker.state (circuitBreaker s) = gobreaker.StateOpen ->
  reachesBreaker r ctx s w = true ->
  clock w (2 + ticks w)%nat <= gobreaker.expiry (circuitBreaker s) ->
  exists s' w',
    perform r ctx s w = (s', w', Some ErrOpenState) /\
    server w' = server w /\ trips w' = trips w /\ drawn w' = drawn w /\
    circuitBreaker s' = circuitBreaker s.
Proof.
  intros Hst Hreach Hnow.
  assert (Hpass : passesLimiter ctx s w = true).
  { destruct r as [? ? ? | ? [| ? ?]]; cbn in Hreach; congruence. }
  unfold passesLimiter in Hpass.
  destruct (Wait ctx (clock w (S (ticks w))) (rateLimiter s)) as [lim [e |]] eqn:HW;
    [discriminate |].
  destruct r as [queue message ttl | queue messages]; cbn [perform].
  - unfold SendMessageWithTTL. cbn [timeNow clock ticks]. rewrite HW.
    rewrite open_Execute by (cbn; assumption).
    cbn. destruct (ErrorHandler (options s)); do 2 eexists; (split; [reflexivity |]);
      cbn; auto.
  - destruct messages as [| m rest]; [discriminate |].
    remember (m :: rest) as messages eqn:Hms.
    unfold SendBatch. replace (length messages =? 0)%nat with false by now subst.
    cbn [timeNow clock ticks]. rewrite HW.
    rewrite open_Execute by (cbn; assumption).
    cbn. destruct (ErrorHandler (options s)); do 2 eexists; (split; [reflexivity |]);
      cbn; auto.
Qed.

(** A guarded call is one [call] on the breaker: the breaker reads the
    clock on the way in and, if the request ran, on the way out, and is
    told how the request ended. *)
Lemma Execute_call {St : Type} (req : St -> World -> St * World * option error)
    (cb cb' : gobreaker.CircuitBreaker) (s s' : St) (w w' : World) (err : option error) :
  gobreaker.Execute req cb s w = (cb', s', w', err) ->
  exists (ta : Time) (outcome : option error),
    gobreaker.call (clock w (ticks w)) ta outcome cb = (cb', err).
Proof.
  intros Hx. apply Execute_inv in Hx.
  destruct Hx as [(g & e & Hb & _ & _ & ->) | (cb1 & g & w1 & Hb & _ & _ & ->)].
  - exists 0, None. unfold gobreaker.call. now rewrite Hb.
  - exists (clock w1 (ticks w1)), err. unfold gobreaker.call. now rewrite Hb.
Qed.

(** Every send or batch call that gets as far as the breaker is one
    [call] on the sender's breaker, made at the third clock reading of
    the send (the first is its start time, the second the rate
    limiter's), and returns what that call returns. *)
Lemma perform_breaker_call (r : Request) (ctx : Context)
    (s s' : valkeySender) (w w' : World) (err : option error) :
  perform r ctx s w = (s', w', err) ->
  reachesBreaker r ctx s w = true ->
  exists (ta : Time) (outcome : option error),
    gobreaker.call (clock w (2 + ticks w)%nat) ta outcome (circuitBreaker s)
      = (circuitBreaker s', err).
Proof.
  intros Hrun Hreach.
  assert (Hpass : passesLimiter ctx s w = true).
  { destruct r as [? ? ? | ? [| ? ?]]; cbn in Hreach; congruence. }
  unfold passesLimiter in Hpass.
  destruct (Wait ctx (clock w (S (ticks w))) (rateLimiter s)) as [lim [e |]] eqn:HW;
    [discriminate |].
  destruct r as [queue message ttl | queue messages]; cbn [perform] in Hrun.
  - unfold SendMessageWithTTL in Hrun. cbn [timeNow clock ticks] in Hrun.
    rewrite HW in Hrun.
    destruct (gobreaker.Execute _ _ _ _) as [[[cb1 s1] w1] err1] eqn:HE.
    apply Execute_call in HE. cbn in HE. destruct HE as (ta & outcome & Hcall).
    exists ta, outcome.
    change (2 + ticks w)%nat with (S (S (ticks w))). rewrite Hcall.
    destruct err1 as [e1 |].
    + cbn in Hrun. injection Hrun as ? ? ?; subst. reflexivity.
    + cbn [timeNow] in Hrun. destruct (SuccessHandler _); cbn [uuidNew] in Hrun;
        injection Hrun as ? ? ?; subst; reflexivity.
  - destruct messages as [| m rest]; [discriminate |].
    remember (m :: rest) as messages eqn:Hms.
    unfold SendBatch in Hrun.
    replace (length messages =? 0)%nat with false in Hrun by now subst.
    cbn [timeNow clock ticks] in Hrun. rewrite HW in Hrun.
    destruct (gobreaker.Execute _ _ _ _) as [[[cb1 s1] w1] err1] eqn:HE.
    apply Execute_call in HE. cbn in HE. destruct HE as (ta & outcome & Hcall).
    exists ta, outcome.
    change (2 + ticks w)%nat with (S (S (ticks w))). rewrite Hcall.
    destruct err1 as [e1 |].
    + cbn in Hrun. injection Hrun as ? ? ?; subst. reflexivity.
    + cbn [timeNow] in Hrun. destruct (SuccessHandler _);
        injection Hrun as ? ? ?; subst; reflexivity.
Qed.

(** The internal send operations leave the clock as it is, but for the
    readings they take. *)
Lemma sendMessageInternal_clock (ctx : Context) (queue : string) (message : Message)
    (ttl : Duration) (s s' : valkeySender) (w w' : World) (err : option error) :
  sendMessageInternal ctx queue message ttl s w = (s', w', err) ->
  clock w' = clock w /\ (ticks w <= ticks w')%nat.
Proof.
  unfold sendMessageInternal, pipeExec, roundTrip. cbn [uuidNew timeNow].
  destruct (Serialize (serializer s) message) as [payload | e].
  - destruct (SerializeMessageEnvelope _) as [data | e].
    + cbn. destruct (network w (trips w)); intros Hx; injection Hx as ? ? ?; subst;
        cbn; split; (reflexivity || lia).
    + intros Hx; injection Hx as ? ? ?; subst. cbn; split; (reflexivity || lia).
  - intros Hx; injection Hx as ? ? ?; subst. cbn; split; (reflexivity || lia).
Qed.

Lemma prepareEnvelopes_clock (s : valkeySender) (queue : string) (messages : list Message) :
  forall (i : nat) (w : World),
    clock (fst (prepareEnvelopes s queue i messages w)) = clock w /\
    (ticks w <= ticks (fst (prepareEnvelopes s queue i messages w)))%nat.
Proof.
  induction messages as [| message rest IH]; intros i w; [cbn; split; (reflexivity || lia) |].
  cbn [prepareEnvelopes uuidNew timeNow].
  destruct (Serialize (serializer s) message) as [payload | e];
    [| cbn; split; (reflexivity || lia)].
  destruct (SerializeMessageEnvelope _) as [data | e];
    [| cbn; split; (reflexivity || lia)].
  specialize (IH (S i)).
  match goal with
  | |- context [prepareEnvelopes s queue (S i) rest ?w0] =>
      specialize (IH w0); destruct (prepareEnvelopes s queue (S i) rest w0) as [w1 [es | e]]
  end; cbn in IH |- *; (split; [tauto | lia]).
Qed.

Lemma sendBatchInternal_clock (ctx : Context) (queue : string) (messages : list Message)
    (s s' : valkeySender) (w w' : World) (err : option error) :
  sendBatchInternal ctx queue messages s w = (s', w', err) ->
  clock w' = clock w /\ (ticks w <= ticks w')%nat.
Proof.
  unfold sendBatchInternal, pipeExec, roundTrip.
  pose proof (prepareEnvelopes_clock s queue messages 0%nat w) as Hc.
  destruct (prepareEnvelopes s queue 0 messages w) as [w1 [es | e]]; cbn in Hc.
  - cbn. destruct (network w1 (trips w1)); intros Hx; injection Hx as ? ? ?; subst;
      exact Hc.
  - intros Hx; injection Hx as ? ? ?; subst. exact Hc.
Qed.

(** A closed breaker lets every call through. *)
Lemma closed_beforeRequest (cb : gobreaker.CircuitBreaker) (now : Time) :
  gobreaker.state cb = gobreaker.StateClosed ->
  exists cb1 g, gobreaker.beforeRequest now cb = (cb1, (g, None)).
Proof.
  intros Hst. unfold gobreaker.beforeRequest, gobreaker.currentState. rewrite Hst.
  destruct (negb _ && _); cbn; rewrite Hst; do 2 eexists; reflexivity.
Qed.

(** A failed call that got as far as a closed breaker is one failing
    [call] on it, between the third clock reading of the call and its
    last. *)
Lemma perform_failure_call (r : Request) (ctx : Context)
    (s s' : valkeySender) (w w' : World) (e : error) :
  perform r ctx s w = (s', w', Some e) ->
  reachesBreaker r ctx s w = true ->
  gobreaker.state (circuitBreaker s) = gobreaker.StateClosed ->
  gobreaker.call (clock w (2 + ticks w)%nat) (clock w (pred (ticks w'))) (Some e)
    (circuitBreaker s) = (circuitBreaker s', Some e) /\
  clock w' = clock w.
Proof.
  intros Hrun Hreach Hst.
  assert (Hguarded :
    forall req lim (s1 : valkeySender) (w1 : World) cb1,
      (forall s0 w0 s2 w2 err, req s0 w0 = (s2, w2, err) ->
                               clock w2 = clock w0 /\ (ticks w0 <= ticks w2)%nat) ->
      gobreaker.Execute req (circuitBreaker s) (set_rateLimiter lim s)
        (snd (timeNow (snd (timeNow w)))) = (cb1, s1, w1, Some e) ->
      gobreaker.call (clock w (2 + ticks w)%nat) (clock w (pred (ticks w1))) (Some e)
        (circuitBreaker s) = (cb1, Some e) /\
      clock w1 = clock w).
  { intros req lim s1 w1 cb1 Hreq HE. apply Execute_inv in HE.
    cbn [timeNow snd fst clock ticks] in HE.
    destruct (closed_beforeRequest (circuitBreaker s) (clock w (S (S (ticks w)))) Hst)
      as (cbm & g & Hb).
    destruct HE as [(g' & e' & Hb' & _) | (cbm' & g' & wr & Hb' & Hr & -> & ->)];
      [congruence |].
    rewrite Hb in Hb'. injection Hb' as <- <-.
    apply Hreq in Hr. cbn in Hr. destruct Hr as [Hclock Hticks]. cbn.
    split; [| exact Hclock].
    unfold gobreaker.call. change (2 + ticks w)%nat with (S (S (ticks w))).
    now rewrite Hb, Hclock. }
  assert (Hpass : passesLimiter ctx s w = true).
  { destruct r as [? ? ? | ? [| ? ?]]; cbn in Hreach; congruence. }
  unfold passesLimiter in Hpass.
  destruct (Wait ctx (clock w (S (ticks w))) (rateLimiter s)) as [lim [e0 |]] eqn:HW;
    [discriminate |].
  destruct r as [queue message ttl | queue messages]; cbn [perform] in Hrun.
  - unfold SendMessageWithTTL in Hrun. cbn [timeNow clock ticks] in Hrun.
    rewrite HW in Hrun.
    destruct (gobreaker.Execute _ _ _ _) as [[[cb1 s1] w1] [e1 |]] eqn:HE.
    + cbn in Hrun.
      assert (e1 = e) by (destruct (ErrorHandler (options s1)); congruence). subst e1.
      apply Hguarded in HE;
        [| intros; eapply sendMessageInternal_clock; eassumption].
      destruct (ErrorHandler (options s1)); injection Hrun as ? ?; subst; exact HE.
    + cbn [timeNow] in Hrun. destruct (SuccessHandler _); discriminate.
  - destruct messages as [| m rest]; [discriminate |].
    remember (m :: rest) as messages eqn:Hms.
    unfold SendBatch in Hrun.
    replace (length messages =? 0)%nat with false in Hrun by now subst.
    cbn [timeNow clock ticks] in Hrun. rewrite HW in Hrun.
    destruct (gobreaker.Execute _ _ _ _) as [[[cb1 s1] w1] [e1 |]] eqn:HE.
    + cbn in Hrun.
      assert (e1 = e) by (destruct (ErrorHandler (options s1)); congruence). subst e1.
      apply Hguarded in HE;
        [| intros; eapply sendBatchInternal_clock; eassumption].
      destruct (ErrorHandler (options s1)); injection Hrun as ? ?; subst; exact HE.
    + cbn [timeNow] in Hrun. destruct (SuccessHandler _); discriminate.
Qed.

(** X5. The breaker of a sender that [NewSender] has built: closed,
    with no failure counted, tripping at more than 3 consecutive
    failures, taking every error for a failure, and reporting its state
    changes; its timeout is the configured one (a minute when none is
    configured). *)
Lemma NewSender_breaker (config : Config) (options : option SenderOptions)
    (w w' : World) (s : valkeySender) :
  NewSender (Some config) options w = (inl s, w') ->
  let cb := circuitBreaker s in
  (forall c, gobreaker.readyToTrip cb c = (gobreaker.ConsecutiveFailures c >? 3)) /\
  (forall e, gobreaker.isSuccessful cb (Some e) = false) /\
  gobreaker.state cb = gobreaker.StateClosed /\
  gobreaker.counts cb = gobreaker.clear /\
  gobreaker.onStateChange cb = true /\
  gobreaker.timeout cb =
    (if BreakerTimeout config <=? 0 then 60 * Second else BreakerTimeout config).
Proof.
  unfold NewSender.
  destruct (Logger (default noOptions options)) as [[|] |]; try discriminate;
    cbn [timeNow gobreaker.NewCircuitBreaker];
    (destruct (initClient _ _); [discriminate |]);
    unfold testConnection; cbn [roundTrip];
    (match goal with
     | |- context [network ?w0 (trips ?w0)] => destruct (network w0 (trips w0))
     end; try discriminate);
    cbn [timeNow]; intros Hx; injection Hx as ? ?; subst; cbn; repeat split; reflexivity.
Qed.

(** A run of failed calls that stays below the threshold leaves the
    breaker closed, every failure counted. *)
Lemma failedSends_counted (T : Z) (s s' : valkeySender) (w w' : World) (k : nat) :
  failedSends s w k s' w' ->
  forall n : Z,
    (forall c, gobreaker.readyToTrip (circuitBreaker s) c
               = (gobreaker.ConsecutiveFailures c >? T)) ->
    (forall e, gobreaker.isSuccessful (circuitBreaker s) (Some e) = false) ->
    gobreaker.state (circuitBreaker s) = gobreaker.StateClosed ->
    gobreaker.ConsecutiveFailures (gobreaker.counts (circuitBreaker s)) = n ->
    0 <= n -> n + Z.of_nat k <= T -> T + 1 < 2 ^ 32 ->
    gobreaker.state (circuitBreaker s') = gobreaker.StateClosed /\
    gobreaker.ConsecutiveFailures (gobreaker.counts (circuitBreaker s')) = n + Z.of_nat k /\
    gobreaker.stateChanges (circuitBreaker s') = gobreaker.stateChanges (circuitBreaker s).
Proof.
  induction 1 as [s w | r ctx s s1 s' w w1 w' e k Hrun Hreach Hxb Hxa Hrest IH];
    intros n Htrip Hfail Hst Hn Hn0 HnT H32.
  - cbn. rewrite Z.add_0_r. auto.
  - rewrite Nat2Z.inj_succ in HnT |- *.
    destruct (perform_failure_call r ctx s s1 w w1 e Hrun Hreach Hst) as [Hcall _].
    destruct (closed_failure_counted T n (circuitBreaker s) _ _ e Htrip (Hfail e) Hst Hn Hn0
                ltac:(lia) ltac:(lia) Hxb Hxa)
      as (cb1 & Hcall' & Hsame & Hst1 & Hn1 & Hex1 & Hch1).
    rewrite Hcall in Hcall'. injection Hcall' as <-.
    pose proof Hsame as (_ & _ & _ & _ & Hrt & Hok & _).
    destruct (IH (n + 1)) as (Hst' & Hn' & Hch'); try assumption; try lia.
    + intros c. now rewrite Hrt.
    + intros e0. now rewrite Hok.
    + split; [assumption |]. split; [lia | congruence].
Qed.

(** A run of failed calls that takes a closed breaker from [n]
    consecutive failures to one more than the threshold opens it at the
    last of them. *)
Lemma failedSends_trip (T : Z) (s s' : valkeySender) (w w' : World) (k : nat) :
  failedSends s w k s' w' ->
  forall n : Z,
    (forall c, gobreaker.readyToTrip (circuitBreaker s) c
               = (gobreaker.ConsecutiveFailures c >? T)) ->
    (forall e, gobreaker.isSuccessful (circuitBreaker s) (Some e) = false) ->
    gobreaker.state (circuitBreaker s) = gobreaker.StateClosed ->
    gobreaker.ConsecutiveFailures (gobreaker.counts (circuitBreaker s)) = n ->
    0 <= n -> n + Z.of_nat k = T + 1 -> (1 <= k)%nat -> T + 1 < 2 ^ 32 ->
    sameSettings (circuitBreaker s) (circuitBreaker s') /\
    gobreaker.state (circuitBreaker s') = gobreaker.StateOpen /\
    gobreaker.stateChanges (circuitBreaker s') =
      gobreaker.stateChanges (circuitBreaker s) ++
      (if gobreaker.onStateChange (circuitBreaker s)
       then [(gobreaker.name (circuitBreaker s), gobreaker.StateClosed, gobreaker.StateOpen)]
       else []) /\
    gobreaker.expiry (circuitBreaker s') =
      clock w' (pred (ticks w')) + gobreaker.timeout (circuitBreaker s).
Proof.
  induction 1 as [s w | r ctx s s1 s' w w1 w' e k Hrun Hreach Hxb Hxa Hrest IH];
    intros n Htrip Hfail Hst Hn Hn0 HnT Hk H32; [lia |].
  rewrite Nat2Z.inj_succ in HnT.
  destruct (perform_failure_call r ctx s s1 w w1 e Hrun Hreach Hst) as [Hcall Hclock].
  destruct k as [| k].
  - (* the failure that trips the breaker *)
    inversion Hrest; subst.
    destruct (closed_failure_trips T (circuitBreaker s) _ _ e Htrip (Hfail e) Hst
                ltac:(lia) ltac:(lia) H32 Hxb Hxa)
      as (cb1 & Hcall' & Hsame & Hst1 & Hex1 & Hch1).
    rewrite Hcall in Hcall'. injection Hcall' as <-.
    rewrite Hclock. auto.
  - destruct (closed_failure_counted T n (circuitBreaker s) _ _ e Htrip (Hfail e) Hst Hn Hn0
                ltac:(lia) ltac:(lia) Hxb Hxa)
      as (cb1 & Hcall' & Hsame & Hst1 & Hn1 & Hex1 & Hch1).
    rewrite Hcall in Hcall'. injection Hcall' as <-.
    pose proof Hsame as (Hnm & _ & _ & Htm & Hrt & Hok & Hosc).
    destruct (IH (n + 1)) as (Hsame' & Hst' & Hch' & Hex'); try assumption; try lia.
    + intros c. now rewrite Hrt.
    + intros e0. now rewrite Hok.
    + split; [eauto using sameSettings_trans |]. split; [assumption |].
      split; [now rewrite Hch', Hch1, Hosc, Hnm | now rewrite Hex', Htm].
Qed.

(** C1 (as amended). Whatever threshold T the trip policy of the
    sender's breaker tests for ([NewSender] fixes it at 3): T+1
    consecutive failed calls that the breaker counts within one counting
    interval (each got as far as the breaker and failed in the guarded
    operation, and the configured interval ran out at none of the
    clock readings the breaker took) take the breaker from closed, with
    no failure counted, to open; it is still closed after any fewer of
    them, and the change from closed to open is reported once. From then
    on, as long as the open timeout (counted from the last clock reading
    of the last failed call) has not run out when the breaker reads
    the clock (the third clock reading of a call), every send or batch
    call that gets as far as the breaker (not an empty batch, and let
    through by the rate limiter) fails with [ErrOpenState]: no envelope
    is built and nothing is sent to the store. Once the timeout has run
    out the next call is let through, the breaker being half-open. *)
Theorem breaker_opens_then_rejects (T : Z) (n : nat) (s s' : valkeySender) (w w' : World) :
  0 <= T -> T + 1 < 2 ^ 32 ->
  (forall c, gobreaker.readyToTrip (circuitBreaker s) c
             = (gobreaker.ConsecutiveFailures c >? T)) ->
  (forall e, gobreaker.isSuccessful (circuitBreaker s) (Some e) = false) ->
  gobreaker.state (circuitBreaker s) = gobreaker.StateClosed ->
  gobreaker.ConsecutiveFailures (gobreaker.counts (circuitBreaker s)) = 0 ->
  Z.of_nat n = T + 1 ->
  failedSends s w n s' w' ->
  gobreaker.state (circuitBreaker s') = gobreaker.StateOpen /\
  (forall (k : nat) (s1 : valkeySender) (w1 : World),
      (k < n)%nat -> failedSends s w k s1 w1 ->
      gobreaker.state (circuitBreaker s1) = gobreaker.StateClosed) /\
  gobreaker.stateChanges (circuitBreaker s') =
    gobreaker.stateChanges (circuitBreaker s) ++
    (if gobreaker.onStateChange (circuitBreaker s)
     then [(gobreaker.name (circuitBreaker s), gobreaker.StateClosed, gobreaker.StateOpen)]
     else []) /\
  gobreaker.expiry (circuitBreaker s') =
    clock w' (pred (ticks w')) + gobreaker.timeout (circuitBreaker s) /\
  (forall (r : Request) (ctx : Context) (s2 : valkeySender) (w2 : World),
      circuitBreaker s2 = circuitBreaker s' ->
      reachesBreaker r ctx s2 w2 = true ->
      clock w2 (2 + ticks w2)%nat <= gobreaker.expiry (circuitBreaker s') ->
      exists s3 w3,
        perform r ctx s2 w2 = (s3, w3, Some ErrOpenState) /\
        server w3 = server w2 /\ trips w3 = trips w2 /\ drawn w3 = drawn w2 /\
        circuitBreaker s3 = circuitBreaker s') /\
  (forall now : Time,
      gobreaker.expiry (circuitBreaker s') < now ->
      0 < gobreaker.maxRequests (circuitBreaker s) ->
      exists cb'' g,
        gobreaker.beforeRequest now (circuitBreaker s') = (cb'', (g, None)) /\
        gobreaker.state cb'' = gobreaker.StateHalfOpen).
Proof.
  intros HT H32 Htrip Hfail Hst Hn Hlen Hrun.
  destruct (failedSends_trip T s s' w w' n Hrun 0 Htrip Hfail Hst Hn)
    as (Hsame & Hopen & Hchanges & Hexpiry); try lia.
  split; [exact Hopen |]. split; [| split; [exact Hchanges | split; [exact Hexpiry |]]].
  - intros k s1 w1 Hk Hrun1.
    destruct (failedSends_counted T s s1 w w1 k Hrun1 0 Htrip Hfail Hst Hn) as [Hc _];
      try lia.
    exact Hc.
  - split.
    + intros r ctx s2 w2 Hcb Hreach Hnow. rewrite <- Hcb in Hopen, Hnow |- *.
      exact (perform_while_open r ctx s2 w2 Hopen Hreach Hnow).
    + intros now Hnow Hmax. apply expired_beforeRequest; try assumption.
      destruct Hsame as (_ & -> & _). assumption.
Qed.

(** *** Batches *)

(** EXPIRE leaves the lists alone. *)
Lemma lists_Expire (st : Store) (key : string) (d : Duration) :
  lists (apply_cmd st (Expire key d)) = lists st.
Proof. simpl. now destruct (lists st !! key). Qed.

(** What the loop of [sendBatchInternal] has done when every message
    could be serialized: one envelope for each message, in order; the
    k-th has the k-th UUID drawn and the k-th clock reading taken from
    the loop's start on, the configured TTL, the queue, the serialized
    message as its payload, and is kept in serialized form. Only the
    clock and the UUID source have been used. *)
Lemma prepareEnvelopes_ok (s : valkeySender) (queue : string) (messages : list Message) :
  forall (i : nat) (w w' : World) (envelopes : list (MessageEnvelope * bytes)),
    prepareEnvelopes s queue i messages w = (w', inl envelopes) ->
    length envelopes = length messages /\
    (clock w' = clock w /\ uuids w' = uuids w /\ network w' = network w /\
     trips w' = trips w /\ server w' = server w /\ calls w' = calls w /\
     ticks w' = (ticks w + length messages)%nat /\
     drawn w' = (drawn w + length messages)%nat) /\
    (forall (k : nat) (e : MessageEnvelope) (d : bytes),
        envelopes !! k = Some (e, d) ->
        ID e = uuids w (drawn w + k)%nat /\
        Timestamp e = clock w (ticks w + k)%nat /\
        TTL e = MessageTTL (config s) /\
        Queue e = queue /\
        SerializeMessageEnvelope e = inl d /\
        exists m, messages !! k = Some m /\ Serialize (serializer s) m = inl (Payload e)).
Proof.
  induction messages as [| message rest IH]; intros i w w' envelopes Hrun.
  - cbn in Hrun. injection Hrun as ? ?; subst. cbn.
    split; [reflexivity |]. split; [repeat split; lia |].
    intros k e d Hk; discriminate.
  - cbn [prepareEnvelopes uuidNew timeNow] in Hrun.
    destruct (Serialize (serializer s) message) as [payload | err] eqn:Hp; [| discriminate].
    match type of Hrun with
    | context [SerializeMessageEnvelope ?env] =>
        destruct (SerializeMessageEnvelope env) as [data | err] eqn:Hd; [| discriminate]
    end.
    match type of Hrun with
    | context [prepareEnvelopes s queue (S i) rest ?w0] =>
        destruct (prepareEnvelopes s queue (S i) rest w0) as [w1 [es | err]] eqn:Hrest;
        [| discriminate]
    end.
    injection Hrun as ? ?; subst.
    apply IH in Hrest. cbn in Hrest.
    destruct Hrest as (Hlen & (Hc & Hu & Hn & Ht & Hs & Hcs & Htk & Hdr) & Hes).
    cbn [length]. split; [now rewrite Hlen |]. split.
    + repeat split; try assumption; lia.
    + intros [| k] e d Hk.
      * cbn in Hk. injection Hk as ? ?; subst. cbn.
        rewrite !Nat.add_0_r. repeat split; try assumption.
        exists message. now split.
      * cbn in Hk. apply Hes in Hk.
        replace (drawn w + S k)%nat with (S (drawn w) + k)%nat by lia.
        replace (ticks w + S k)%nat with (S (ticks w) + k)%nat by lia.
        exact Hk.
Qed.

(** Envelopes whose ids are successive draws of a source that never
    repeats have pairwise distinct ids. *)
Lemma distinct_draws {A : Type} (id : A -> string) (draws : nat -> string) (l : list A) :
  forall base : nat,
    (forall i j : nat, draws i = draws j -> i = j) ->
    (forall (k : nat) (a : A), l !! k = Some a -> id a = draws (base + k)%nat) ->
    NoDup (map id l).
Proof.
  induction l as [| a l IH]; intros base Hinj Hdraw; cbn; [constructor |].
  constructor.
  - intros Hin. apply list_elem_of_fmap in Hin. destruct Hin as (b & Hab & Hb).
    apply list_elem_of_lookup in Hb. destruct Hb as [k Hk].
    pose proof (Hdraw 0%nat a eq_refl) as Ha.
    pose proof (Hdraw (S k) b Hk) as Hb'.
    rewrite Hab, Hb' in Ha. apply Hinj in Ha. lia.
  - apply (IH (S base) Hinj). intros k b Hk.
    rewrite (Hdraw (S k) b Hk). f_equal. lia.
Qed.

(** C5 (as amended). When every message of a batch can be serialized,
    [sendBatchInternal] builds exactly one envelope for each message, in
    order, and sends their serialized forms in a single LPUSH followed by
    an EXPIRE with the configured default TTL. The k-th envelope carries
    the k-th UUID drawn (so the ids are pairwise distinct whenever the
    UUID source does not repeat itself), the configured default message
    TTL, and as its timestamp the clock reading taken when it was built:
    one reading for each envelope, not one for the batch. *)
Theorem batch_envelopes (ctx : Context) (queue : string) (messages : list Message)
    (s : valkeySender) (w w1 : World) (envelopes : list (MessageEnvelope * bytes)) :
  prepareEnvelopes s queue 0 messages w = (w1, inl envelopes) ->
  (forall i j : nat, uuids w i = uuids w j -> i = j) ->
  length envelopes = length messages /\
  NoDup (map (fun p => ID (fst p)) envelopes) /\
  (forall (k : nat) (e : MessageEnvelope) (d : bytes),
      envelopes !! k = Some (e, d) ->
      ID e = uuids w (drawn w + k)%nat /\
      Timestamp e = clock w (ticks w + k)%nat /\
      TTL e = MessageTTL (config s) /\
      SerializeMessageEnvelope e = inl d) /\
  sendBatchInternal ctx queue messages s w =
    match pipeExec [LPush (getQueueKey s queue) (map snd envelopes);
                    Expire (getQueueKey s queue) (MessageTTL (config s))] w1 with
    | (w2, Some err) =>
        (setConnectionState false s, w2,
         Some (Wrap ("failed to send batch to queue " ++ queue)%string err))
    | (w2, None) => (setConnectionState true s, w2, None)
    end.
Proof.
  intros Hrun Hinj.
  pose proof (prepareEnvelopes_ok _ _ _ _ _ _ _ Hrun) as (Hlen & _ & Hes).
  split; [exact Hlen |]. split; [| split].
  - apply (distinct_draws _ (uuids w) envelopes (drawn w) Hinj).
    intros k [e d] Hk. apply Hes in Hk. apply Hk.
  - intros k e d Hk. apply Hes in Hk. tauto.
  - unfold sendBatchInternal. now rewrite Hrun.
Qed.

(** *** Successful calls *)

Lemma sendMessageInternal_ok (ctx : Context) (queue : string) (message : Message)
    (ttl : Duration) (s s' : valkeySender) (w w' : World) :
  sendMessageInternal ctx queue message ttl s w = (s', w', None) ->
  exists envelopes, pushed 1 (getQueueKey s queue) w w' envelopes.
Proof.
  unfold sendMessageInternal, pipeExec, roundTrip. cbn [uuidNew timeNow].
  destruct (Serialize (serializer s) message) as [payload | e]; [| discriminate].
  match goal with
  | |- context [SerializeMessageEnvelope ?env] =>
      set (envelope := env);
      destruct (SerializeMessageEnvelope envelope) as [data | e] eqn:Hd; [| discriminate]
  end.
  cbn. destruct (network w (trips w)); [| discriminate | discriminate].
  intros Hx; injection Hx as ? ?; subst.
  exists [(envelope, data)]. unfold pushed. cbn.
  split; [reflexivity |]. split.
  - intros [| k] e d Hk; [| discriminate].
    cbn in Hk. injection Hk as ? ?; subst. rewrite Nat.add_0_r. now split.
  - repeat split; try lia.
    rewrite lookup_insert_eq. cbn. now rewrite lookup_insert_eq.
Qed.

Lemma sendBatchInternal_ok (ctx : Context) (queue : string) (messages : list Message)
    (s s' : valkeySender) (w w' : World) :
  sendBatchInternal ctx queue messages s w = (s', w', None) ->
  exists envelopes, pushed (length messages) (getQueueKey s queue) w w' envelopes.
Proof.
  unfold sendBatchInternal, pipeExec, roundTrip.
  destruct (prepareEnvelopes s queue 0 messages w) as [w1 [envelopes | e]] eqn:Hrun;
    [| discriminate].
  apply prepareEnvelopes_ok in Hrun.
  destruct Hrun as (Hlen & (Hc & Hu & Hn & Ht & Hs & Hcs & Htk & Hdr) & Hes).
  cbn. destruct (network w1 (trips w1)); [| discriminate | discriminate].
  intros Hx; injection Hx as ? ?; subst.
  exists envelopes. unfold pushed. cbn.
  split; [exact Hlen |]. split.
  - intros k e d Hk. apply Hes in Hk. tauto.
  - repeat split; try assumption.
    rewrite Hs, lookup_insert_eq. cbn. now rewrite lookup_insert_eq.
Qed.

(** The success handler, called for a batch, is called once for each
    message, each time with the next UUID drawn. *)
Lemma notifyBatch_spec (queue : string) (start : Time) (ttl : Duration)
    (messages : list Message) :
  forall (i : Z) (w : World),
  exists metas : list MessageMetadata,
    calls (notifyBatch queue start ttl i messages w) = calls w ++ map SuccessHandlerCall metas /\
    server (notifyBatch queue start ttl i messages w) = server w /\
    length metas = length messages /\
    (forall (k : nat) (md : MessageMetadata),
        metas !! k = Some md ->
        md_MessageID md = uuids w (drawn w + k)%nat /\
        md_Position md = i + Z.of_nat k /\
        md_Timestamp md = start /\ md_TTL md = ttl /\ md_Queue md = queue).
Proof.
  induction messages as [| m rest IH]; intros i w.
  - exists []. cbn. rewrite app_nil_r. do 3 (split; [reflexivity |]).
    intros k md Hk; discriminate.
  - cbn [notifyBatch uuidNew].
    match goal with
    | |- context [notifyBatch queue start ttl (i + 1) rest ?w0] =>
        destruct (IH (i + 1) w0) as (metas & Hcalls & Hsrv & Hlen & Hm)
    end.
    cbn in Hcalls, Hsrv, Hm.
    match type of Hcalls with
    | context [SuccessHandlerCall ?md0 :: []] => exists (md0 :: metas)
    end.
    split; [| split; [| split]].
    + rewrite Hcalls. cbn. now rewrite <- app_assoc.
    + exact Hsrv.
    + cbn. now rewrite Hlen.
    + intros [| k] md Hk.
      * cbn in Hk. injection Hk as ?; subst. cbn. rewrite Nat.add_0_r.
        repeat split; lia.
      * cbn in Hk. apply Hm in Hk.
        replace (drawn w + S k)%nat with (S (drawn w) + k)%nat by lia.
        destruct Hk as (? & ? & ?). repeat split; try tauto. lia.
Qed.

(** C10. After a successful send or batch call with a success handler
    installed, the handler has been called once for each message, and the
    MessageID of each metadata it was given is a UUID drawn anew, after
    those of the envelopes: it is none of the ids of the envelopes that
    were serialized and pushed onto the queue (the UUID source not
    repeating itself), and nothing else relates it to them. *)
Theorem success_metadata_ids (r : Request) (ctx : Context)
    (s s' : valkeySender) (w w' : World) :
  perform r ctx s w = (s', w', None) ->
  SuccessHandler (options s) = true ->
  (forall i j : nat, uuids w i = uuids w j -> i = j) ->
  exists (envelopes : list (MessageEnvelope * bytes)) (metas : list MessageMetadata),
    length envelopes = requestSize r /\
    length metas = requestSize r /\
    (forall (k : nat) (e : MessageEnvelope) (d : bytes),
        envelopes !! k = Some (e, d) ->
        ID e = uuids w (drawn w + k)%nat /\ SerializeMessageEnvelope e = inl d) /\
    lists (server w') !! getQueueKey s (requestQueue r) =
      Some (rev (map snd envelopes)
            ++ default [] (lists (server w) !! getQueueKey s (requestQueue r))) /\
    calls w' = calls w ++ map SuccessHandlerCall metas /\
    (forall (k : nat) (md : MessageMetadata),
        metas !! k = Some md ->
        md_MessageID md = uuids w (drawn w + requestSize r + k)%nat) /\
    (forall (e : MessageEnvelope) (d : bytes) (md : MessageMetadata),
        (e, d) ∈ envelopes -> md ∈ metas -> md_MessageID md <> ID e).
Proof.
  intros Hrun Hhandler Hinj.
  (* what remains once the guarded call is known to have pushed *)
  assert (Hfinish :
    forall (n : nat) (key : string) (w0 w1 : World) envelopes metas,
      pushed n key w0 w1 envelopes ->
      drawn w0 = drawn w -> uuids w0 = uuids w -> calls w0 = calls w ->
      lists (server w0) = lists (server w) ->
      lists (server w') = lists (server w1) ->
      calls w' = calls w1 ++ map SuccessHandlerCall metas ->
      length metas = n ->
      (forall k md, metas !! k = Some md ->
                    md_MessageID md = uuids w1 (drawn w1 + k)%nat) ->
      length envelopes = n /\
      length metas = n /\
      (forall k e d, envelopes !! k = Some (e, d) ->
                     ID e = uuids w (drawn w + k)%nat /\ SerializeMessageEnvelope e = inl d) /\
      lists (server w') !! key =
        Some (rev (map snd envelopes) ++ default [] (lists (server w) !! key)) /\
      calls w' = calls w ++ map SuccessHandlerCall metas /\
      (forall k md, metas !! k = Some md ->
                    md_MessageID md = uuids w (drawn w + n + k)%nat) /\
      (forall e d md, (e, d) ∈ envelopes -> md ∈ metas -> md_MessageID md <> ID e)).
  { intros n key w0 w1 envelopes metas (Hlen & Hes & Hdr & Hu & Hc & Hl)
      Hd0 Hu0 Hc0 Hl0 Hl' Hc' Hlm Hm.
    rewrite Hd0, Hu0 in Hes. rewrite Hl0 in Hl.
    rewrite Hdr, Hu, Hd0, Hu0 in Hm.
    refine (conj Hlen (conj Hlm (conj Hes (conj _ (conj _ (conj Hm _)))))).
    - now rewrite Hl'.
    - now rewrite Hc', Hc, Hc0.
    - intros e d md He Hmd Heq.
      apply list_elem_of_lookup in He. destruct He as [k Hk].
      apply list_elem_of_lookup in Hmd. destruct Hmd as [j Hj].
      pose proof (lookup_lt_Some _ _ _ Hk) as Hlt.
      apply Hes in Hk. destruct Hk as [Hid _]. apply Hm in Hj.
      rewrite Hid, Hj in Heq. apply Hinj in Heq. lia. }
  destruct r as [queue message ttl | queue messages]; cbn [perform] in Hrun;
    cbn [requestSize requestQueue].
  - unfold SendMessageWithTTL in Hrun. cbn [timeNow clock ticks] in Hrun.
    destruct (Wait ctx (clock w (S (ticks w))) (rateLimiter s)) as [lim [e |]];
      [discriminate |].
    destruct (gobreaker.Execute _ _ _ _) as [[[cb1 s1] w1] [e1 |]] eqn:HE.
    { destruct (recordError _ _ _); discriminate. }
    apply Execute_inv in HE.
    destruct HE as [(g & e & _ & _ & _ & He) | (cb0 & g & wr & _ & Hreq & -> & _)];
      [discriminate |].
    pose proof (sendMessageInternal_frame _ _ _ _ _ _ _ _ _ Hreq) as [_ Hs1].
    apply connectionOnly_fields in Hs1. destruct Hs1 as (_ & _ & _ & Ho & _).
    apply sendMessageInternal_ok in Hreq. destruct Hreq as [envelopes Hp].
    cbn [timeNow] in Hrun. cbn in Ho. cbn [options set_lastSuccess add_messagesSent
      set_circuitBreaker] in Hrun.
    rewrite Ho, Hhandler in Hrun. cbn [uuidNew] in Hrun.
    injection Hrun as ? ?; subst.
    match goal with
    | |- context [SuccessHandlerCall ?md0] => exists envelopes, [md0]
    end.
    eapply Hfinish; [exact Hp | reflexivity .. | | reflexivity |].
    + reflexivity.
    + intros [| k] md Hk; [| discriminate].
      cbn in Hk. injection Hk as ?; subst. cbn. now rewrite Nat.add_0_r.
  - destruct messages as [| m rest]; [discriminate |].
    remember (m :: rest) as messages eqn:Hms.
    unfold SendBatch in Hrun.
    replace (length messages =? 0)%nat with false in Hrun by now subst.
    cbn [timeNow clock ticks] in Hrun.
    destruct (Wait ctx (clock w (S (ticks w))) (rateLimiter s)) as [lim [e |]];
      [discriminate |].
    destruct (gobreaker.Execute _ _ _ _) as [[[cb1 s1] w1] [e1 |]] eqn:HE.
    { destruct (recordError _ _ _); discriminate. }
    apply Execute_inv in HE.
    destruct HE as [(g & e & _ & _ & _ & He) | (cb0 & g & wr & _ & Hreq & -> & _)];
      [discriminate |].
    pose proof (sendBatchInternal_frame _ _ _ _ _ _ _ _ Hreq) as [_ Hs1].
    apply connectionOnly_fields in Hs1. destruct Hs1 as (_ & _ & _ & Ho & Hcfg & _).
    apply sendBatchInternal_ok in Hreq. destruct Hreq as [envelopes Hp].
    cbn [timeNow] in Hrun. cbn in Ho, Hcfg. cbn [options config set_lastSuccess
      add_messagesSent set_circuitBreaker] in Hrun.
    rewrite Ho, Hhandler in Hrun.
    injection Hrun as ? ?; subst.
    match goal with
    | |- context [notifyBatch ?q ?st ?ttl ?i ?ms ?w0] =>
        destruct (notifyBatch_spec q st ttl ms i w0) as (metas & Hcalls & Hsrv & Hlen & Hm)
    end.
    exists envelopes, metas.
    eapply Hfinish;
      [exact Hp | reflexivity .. | now rewrite Hsrv | exact Hcalls | exact Hlen |].
    intros k md Hk. apply Hm in Hk. cbn in Hk. tauto.
Qed.

(** *** Health *)

(** The status [Health] reports depends on the two counters only. *)
Lemma Health_Status (s : valkeySender) (w : World) :
  Status (fst (fst (Health s w))) = derivedStatus (errorCount s) (messagesSent s).
Proof.
  unfold Health. cbn [timeNow].
  destruct (gobreaker.State_ _ _) as [[st cb] w1]. reflexivity.
Qed.

Lemma Health_counters (s : valkeySender) (w : World) :
  messagesSent (snd (fst (Health s w))) = messagesSent s /\
  errorCount (snd (fst (Health s w))) = errorCount s /\
  hs_MessagesSent (fst (fst (Health s w))) = messagesSent s /\
  hs_ErrorCount (fst (fst (Health s w))) = errorCount s.
Proof.
  unfold Health. cbn [timeNow].
  destruct (gobreaker.State_ _ _) as [[st cb] w1]. cbn. auto.
Qed.

(** C4. [Health] derives the status when it is called, from the two
    counters as they then are (it stores no status and leaves the
    counters alone): with errorRate the binary64 quotient of errorCount
    by messagesSent + 1, the status is "unhealthy" when errorRate > 0.5,
    "degraded" when errorRate > 0.1 and "healthy" otherwise. 0 sent and 0
    errors give healthy, 10 sent and 6 errors unhealthy, 10 sent and 2
    errors degraded, 10 sent and 0 errors healthy; for counters below
    100 the status is the one the thresholds give in exact arithmetic.
    The divisor is never
    zero: for a counter that has not overflowed, messagesSent + 1 is
    positive and so is its binary64 value. *)
Theorem Health_status_derivation (s : valkeySender) (w : World) :
  let h := fst (fst (Health s w)) in
  let errorRate :=
    float64.div (float64.of_int64 (errorCount s))
                (float64.of_int64 (wrap_int64 (messagesSent s + 1))) in
  Status h = (if float64.gt errorRate float64.half then "unhealthy"
              else if float64.gt errorRate float64.tenth then "degraded"
              else "healthy") /\
  (messagesSent s = 0 -> errorCount s = 0 -> Status h = "healthy") /\
  (messagesSent s = 10 -> errorCount s = 6 -> Status h = "unhealthy") /\
  (messagesSent s = 10 -> errorCount s = 2 -> Status h = "degraded") /\
  (messagesSent s = 10 -> errorCount s = 0 -> Status h = "healthy") /\
  (0 <= errorCount s < 100 -> 0 <= messagesSent s < 100 ->
   Status h = exactStatus (errorCount s) (messagesSent s)) /\
  (0 <= messagesSent s < 2 ^ 63 - 1 ->
   wrap_int64 (messagesSent s + 1) = messagesSent s + 1 /\
   messagesSent s + 1 <> 0 /\
   exists m e, float64.of_int64 (wrap_int64 (messagesSent s + 1)) = S754_finite false m e) /\
  messagesSent (snd (fst (Health s w))) = messagesSent s /\
  errorCount (snd (fst (Health s w))) = errorCount s.
Proof.
  cbv zeta. rewrite Health_Status.
  split; [reflexivity |].
  do 4 (split; [intros -> ->; vm_compute; reflexivity |]).
  split; [apply derivedStatus_exact |].
  split.
  - intros Hm.
    assert (Hw : wrap_int64 (messagesSent s + 1) = messagesSent s + 1).
    { unfold wrap_int64. rewrite Z.mod_small; lia. }
    rewrite Hw. split; [reflexivity |]. split; [lia |].
    apply of_int64_positive. lia.
  - pose proof (Health_counters s w). tauto.
Qed.

(** C8. For a queue whose key the store does not hold, [GetQueueSize]
    returns 0 and no error, whether the store answers the length query
    (with 0) or the client reports [redis.Nil]; only a failure of the
    round trip itself is reported as an error. *)
Theorem GetQueueSize_missing_key (ctx : Context) (queue : string)
    (s : valkeySender) (w : World) :
  lists (server w) !! getQueueKey s queue = None ->
  ~ transportFailed (network w (trips w)) ->
  fst (GetQueueSize ctx queue s w) = (0, None).
Proof.
  intros Hkey Hnet. unfold GetQueueSize, roundTrip. simpl.
  destruct (network w (trips w)) as [| e | e] eqn:Hout; simpl in *.
  - now rewrite Hkey.
  - destruct e; try reflexivity; exfalso; apply Hnet; discriminate.
  - destruct e; try reflexivity; exfalso; apply Hnet; discriminate.
Qed.

End SenderProperties.

(** ** The calls, end to end *)

Section DispatchProperties.
Context `{EncodingJSON} `{RateLimiter}.

(** The loop that prepares the envelopes of a batch reads the clock and
    draws UUIDs only. *)
Lemma prepareEnvelopes_world (s : valkeySender) (queue : string) (messages : list Message) :
  forall (i : nat) (w : World),
    let w' := fst (prepareEnvelopes s queue i messages w) in
    server w' = server w /\ trips w' = trips w /\ network w' = network w /\
    uuids w' = uuids w /\ keyPairs w' = keyPairs w.
Proof.
  induction messages as [| message rest IH]; intros i w; [cbn; auto |].
  cbn [prepareEnvelopes uuidNew timeNow].
  destruct (Serialize (serializer s) message) as [payload | e]; [| cbn; auto].
  destruct (SerializeMessageEnvelope _) as [data | e]; [| cbn; auto].
  specialize (IH (S i)).
  match goal with
  | |- context [prepareEnvelopes s queue (S i) rest ?w0] =>
      specialize (IH w0); destruct (prepareEnvelopes s queue (S i) rest w0) as [w1 [es | e]]
  end; exact IH.
Qed.

(** An error of that loop is the error of a message or of an envelope
    that could not be serialized. *)
Lemma prepareEnvelopes_error (s : valkeySender) (queue : string) (messages : list Message) :
  forall (i : nat) (w w' : World) (err : error),
    prepareEnvelopes s queue i messages w = (w', inr err) ->
    exists p c, err = Wrap p c /\ codecPrefix p.
Proof.
  induction messages as [| message rest IH]; intros i w w' err Hrun; [discriminate |].
  cbn [prepareEnvelopes uuidNew timeNow] in Hrun.
  destruct (Serialize (serializer s) message) as [payload | e].
  - destruct (SerializeMessageEnvelope _) as [data | e].
    + match type of Hrun with
      | context [prepareEnvelopes s queue (S i) rest ?w0] =>
          destruct (prepareEnvelopes s queue (S i) rest w0) as [w1 [es | e]] eqn:Hrest
      end; [discriminate |].
      injection Hrun as ? ?; subst. exact (IH _ _ _ _ Hrest).
    + injection Hrun as ? ?; subst. do 2 eexists. split; [reflexivity |].
      exists (" " ++ pretty i)%string. right. reflexivity.
  - injection Hrun as ? ?; subst. do 2 eexists. split; [reflexivity |].
    exists (" " ++ pretty i)%string. left. reflexivity.
Qed.

(** When every message could be serialized, the envelopes carry the
    messages, one each and in order. *)
Lemma prepareEnvelopes_wraps (s : valkeySender) (queue : string) (messages : list Message) :
  forall (i : nat) (w w' : World) (envelopes : list (MessageEnvelope * bytes)),
    prepareEnvelopes s queue i messages w = (w', inl envelopes) ->
    Forall2 (wraps (serializer s) queue (MessageTTL (config s))) messages envelopes.
Proof.
  induction messages as [| message rest IH]; intros i w w' envelopes Hrun.
  - cbn in Hrun. injection Hrun as ? ?; subst. constructor.
  - cbn [prepareEnvelopes uuidNew timeNow] in Hrun.
    destruct (Serialize (serializer s) message) as [payload | err] eqn:Hp; [| discriminate].
    match type of Hrun with
    | context [SerializeMessageEnvelope ?env] =>
        destruct (SerializeMessageEnvelope env) as [data | err] eqn:Hd; [| discriminate]
    end.
    match type of Hrun with
    | context [prepareEnvelopes s queue (S i) rest ?w0] =>
        destruct (prepareEnvelopes s queue (S i) rest w0) as [w1 [es | err]] eqn:Hrest;
        [| discriminate]
    end.
    injection Hrun as ? ?; subst.
    constructor; [| exact (IH _ _ _ _ Hrest)].
    unfold wraps. cbn. auto 10.
Qed.

(** What the operation behind the breaker does. It reads the clock and
    draws UUIDs; then either a message or an envelope cannot be
    serialized, and the operation fails without a round trip, or it
    makes one round trip carrying an LPUSH of the serialized envelopes
    and an EXPIRE, and the outcome of the round trip decides what it
    returns and what the connection flag becomes. *)
Lemma guarded_inv (r : Request) (ctx : Context) (s0 s1 : valkeySender) (w0 w1 : World)
    (err : option error) :
  guarded r ctx s0 w0 = (s1, w1, err) ->
  (clock w1 = clock w0 /\ uuids w1 = uuids w0 /\ network w1 = network w0 /\
   calls w1 = calls w0 /\ keyPairs w1 = keyPairs w0) /\
  ((s1 = s0 /\ server w1 = server w0 /\ trips w1 = trips w0 /\
    exists p c, err = Some (Wrap p c) /\ codecPrefix p) \/
   (exists envelopes : list (MessageEnvelope * bytes),
      Forall2 (wraps (serializer s0) (requestQueue r) (requestTTL r s0))
        (requestMessages r) envelopes /\
      trips w1 = S (trips w0) /\
      drawn w1 = (drawn w0 + requestSize r)%nat /\
      let key := getQueueKey s0 (requestQueue r) in
      let cmds := [LPush key (map snd envelopes); Expire key (requestTTL r s0)] in
      match network w0 (trips w0) with
      | Answered =>
          err = None /\ s1 = setConnectionState true s0 /\
          server w1 = foldl apply_cmd (server w0) cmds
      | Failed e =>
          err = Some (Wrap (sendPrefix r) e) /\ s1 = setConnectionState false s0 /\
          server w1 = server w0
      | ReplyLost e =>
          err = Some (Wrap (sendPrefix r) e) /\ s1 = setConnectionState false s0 /\
          server w1 = foldl apply_cmd (server w0) cmds
      end)).
Proof.
  destruct r as [queue message ttl | queue messages];
    cbn [guarded requestQueue requestMessages requestTTL requestSize sendPrefix].
  - unfold sendMessageInternal, pipeExec, roundTrip. cbn [uuidNew timeNow].
    destruct (Serialize (serializer s0) message) as [payload | e] eqn:Hp.
    + match goal with
      | |- context [SerializeMessageEnvelope ?env] =>
          set (envelope := env);
          destruct (SerializeMessageEnvelope envelope) as [data | e] eqn:Hd
      end.
      * cbn. intros Hx. split.
        { destruct (network w0 (trips w0)); injection Hx as ? ? ?; subst; cbn; auto. }
        right. exists [(envelope, data)]. split.
        { constructor; [| constructor]. unfold wraps. cbn. auto 10. }
        destruct (network w0 (trips w0)); injection Hx as ? ? ?; subst; cbn;
          (split; [reflexivity |]); (split; [lia |]); auto.
      * intros Hx; injection Hx as ? ? ?; subst. cbn. split; [auto |].
        left. do 3 (split; [reflexivity |]). do 2 eexists. split; [reflexivity |].
        exists "". right. reflexivity.
    + intros Hx; injection Hx as ? ? ?; subst. cbn. split; [auto |].
      left. do 3 (split; [reflexivity |]). do 2 eexists. split; [reflexivity |].
      exists "". left. reflexivity.
  - unfold sendBatchInternal, pipeExec, roundTrip.
    pose proof (prepareEnvelopes_world s0 queue messages 0%nat w0) as Hw.
    pose proof (prepareEnvelopes_clock s0 queue messages 0%nat w0) as [Hck _].
    pose proof (prepareEnvelopes_calls s0 queue messages 0%nat w0) as Hcs.
    destruct (prepareEnvelopes s0 queue 0 messages w0) as [wp [envelopes | e]] eqn:Hrun;
      cbn [fst] in Hw, Hck, Hcs; destruct Hw as (Hsv & Htr & Hnw & Huu & Hkp).
    + pose proof (prepareEnvelopes_wraps _ _ _ _ _ _ _ Hrun) as Hwr.
      apply prepareEnvelopes_ok in Hrun. destruct Hrun as (_ & Hall & _).
      destruct Hall as (_ & _ & _ & _ & _ & _ & _ & Hdr).
      cbn. rewrite Hnw, Htr. intros Hx. split.
      { destruct (network w0 (trips w0)); injection Hx as ? ? ?; subst; cbn; auto. }
      right. exists envelopes. split; [exact Hwr |].
      destruct (network w0 (trips w0)); injection Hx as ? ? ?; subst; cbn;
        rewrite ?Hsv; auto.
    + intros Hx; injection Hx as ? ? ?; subst. split; [auto |].
      left. do 3 (split; [auto |]).
      destruct (prepareEnvelopes_error _ _ _ _ _ _ _ Hrun) as (p & c & -> & Hp).
      now exists p, c.
Qed.

(** Telling the success handler of the messages of a batch draws UUIDs
    and calls the handler, and does nothing else. *)
Lemma notifyBatch_world (queue : string) (start : Time) (ttl : Duration)
    (messages : list Message) :
  forall (i : Z) (w : World),
    let w' := notifyBatch queue start ttl i messages w in
    clock w' = clock w /\ ticks w' = ticks w /\ uuids w' = uuids w /\
    network w' = network w /\ trips w' = trips w /\ server w' = server w /\
    keyPairs w' = keyPairs w.
Proof.
  induction messages as [| m rest IH]; intros i w; cbn [notifyBatch uuidNew].
  - cbn. auto 10.
  - match goal with
    | |- context [notifyBatch queue start ttl (i + 1) rest ?w0] =>
        specialize (IH (i + 1) w0)
    end.
    cbn in IH |- *. exact IH.
Qed.

(** A call taken apart. An empty batch is refused at once. Otherwise
    the rate limiter is asked, at the second clock reading of the call;
    if it lets the call through, the operation goes to the circuit
    breaker, and what the breaker returns is recorded as a failure or
    counted as a success. *)
Lemma perform_inv (r : Request) (ctx : Context) (s s' : valkeySender) (w w' : World)
    (err : option error) :
  perform r ctx s w = (s', w', err) ->
  ((exists queue, r = BatchRequest queue []) /\ s' = s /\ w' = w /\
   err = Some (New "messages slice cannot be empty")) \/
  (requestSize r <> 0%nat /\
   exists lim,
     (exists e, Wait ctx (clock w (S (ticks w))) (rateLimiter s) = (lim, Some e) /\
        s' = set_rateLimiter lim s /\ w' = snd (timeNow (snd (timeNow w))) /\
        err = Some (Wrap "rate limiter error" e)) \/
     (Wait ctx (clock w (S (ticks w))) (rateLimiter s) = (lim, None) /\
      exists cb1 s1 w1,
        gobreaker.Execute (guarded r ctx) (circuitBreaker s) (set_rateLimiter lim s)
          (snd (timeNow (snd (timeNow w)))) = (cb1, s1, w1, err) /\
        match err with
        | Some e => recordError e (set_circuitBreaker cb1 s1) w1 = (s', w')
        | None =>
            s' = set_lastSuccess (clock w1 (ticks w1))
                   (add_messagesSent (Z.of_nat (requestSize r)) (set_circuitBreaker cb1 s1)) /\
            clock w' = clock w1 /\ ticks w' = S (ticks w1) /\ uuids w' = uuids w1 /\
            network w' = network w1 /\ trips w' = trips w1 /\ server w' = server w1 /\
            keyPairs w' = keyPairs w1
        end)).
Proof.
  destruct r as [queue message ttl | queue messages]; cbn [perform guarded requestSize].
  - unfold SendMessageWithTTL. cbn [timeNow clock ticks snd].
    intros Hrun. right. split; [lia |].
    destruct (Wait ctx (clock w (S (ticks w))) (rateLimiter s)) as [lim [e |]].
    + exists lim. left. exists e. injection Hrun as ? ? ?; subst. auto.
    + exists lim. right. split; [reflexivity |].
      destruct (gobreaker.Execute _ _ _ _) as [[[cb1 s1] w1] [e1 |]] eqn:HE.
      * destruct (recordError e1 (set_circuitBreaker cb1 s1) w1) as [s2 w2] eqn:Hrec.
        injection Hrun as ? ? ?; subst.
        exists cb1, s1, w1. split; [first [reflexivity | exact HE] | exact Hrec].
      * cbn [timeNow] in Hrun.
        destruct (SuccessHandler _); cbn [uuidNew] in Hrun;
          injection Hrun as ? ? ?; subst; exists cb1, s1, w1; (split; [first [reflexivity | exact HE] |]);
          cbn; auto 10.
  - destruct messages as [| m rest].
    + cbn. intros Hx; injection Hx as ? ? ?; subst. left. eauto.
    + remember (m :: rest) as messages eqn:Hms.
      unfold SendBatch. replace (length messages =? 0)%nat with false by now subst.
      cbn [timeNow clock ticks snd].
      intros Hrun. right. split; [subst; cbn; lia |].
      destruct (Wait ctx (clock w (S (ticks w))) (rateLimiter s)) as [lim [e |]].
      * exists lim. left. exists e. injection Hrun as ? ? ?; subst. auto.
      * exists lim. right. split; [reflexivity |].
        destruct (gobreaker.Execute _ _ _ _) as [[[cb1 s1] w1] [e1 |]] eqn:HE.
        -- destruct (recordError e1 (set_circuitBreaker cb1 s1) w1) as [s2 w2] eqn:Hrec.
           injection Hrun as ? ? ?; subst.
           exists cb1, s1, w1. split; [first [reflexivity | exact HE] | exact Hrec].
        -- cbn [timeNow] in Hrun.
           destruct (SuccessHandler _).
           ++ injection Hrun as ? ? ?; subst.
              exists cb1, s1, w1. split; [first [reflexivity | exact HE] |].
              match goal with
              | |- context [notifyBatch ?q ?st ?ttl ?i ?ms ?w0] =>
                  pose proof (notifyBatch_world q st ttl ms i w0) as Hn
              end.
              cbn in Hn. split; [reflexivity | exact Hn].
           ++ injection Hrun as ? ? ?; subst. exists cb1, s1, w1.
              split; [first [reflexivity | exact HE] |]. cbn; auto 10.
Qed.

Ltac facts :=
  repeat match goal with |- _ /\ _ => split end;
  first [assumption | reflexivity | congruence | lia].

Lemma recordError_inv (e : error) (s0 s' : valkeySender) (w0 w' : World) :
  recordError e s0 w0 = (s', w') ->
  s' = set_lastError (Error e) (add_errorCount 1 s0) /\
  clock w' = clock w0 /\ ticks w' = ticks w0 /\ uuids w' = uuids w0 /\
  drawn w' = drawn w0 /\ network w' = network w0 /\ trips w' = trips w0 /\
  server w' = server w0 /\ keyPairs w' = keyPairs w0.
Proof.
  unfold recordError. cbn. intros Hx; injection Hx as ? ?; subst.
  destruct (ErrorHandler (options s0)); cbn; auto 10.
Qed.

(** Every call ends in one of five ways: it is an empty batch, refused
    at once; the rate limiter turns it away; the circuit breaker turns
    it away; a message or an envelope cannot be serialized; or it makes
    its one round trip to the store, whose outcome decides. Whatever
    the way, the call leaves the configuration, the options, the
    serializer and the start time of the sender alone. *)
Lemma perform_cases (r : Request) (ctx : Context) (s s' : valkeySender) (w w' : World)
    (err : option error) :
  perform r ctx s w = (s', w', err) ->
  (config s' = config s /\ options s' = options s /\ serializer s' = serializer s /\
   startTime s' = startTime s /\
   clock w' = clock w /\ uuids w' = uuids w /\ network w' = network w /\
   keyPairs w' = keyPairs w) /\
  (((exists queue, r = BatchRequest queue []) /\ s' = s /\ w' = w /\
    err = Some (New "messages slice cannot be empty")) \/
   (requestSize r <> 0%nat /\ passesLimiter ctx s w = false /\
    exists lim c,
      Wait ctx (clock w (S (ticks w))) (rateLimiter s) = (lim, Some c) /\
      s' = set_rateLimiter lim s /\ w' = snd (timeNow (snd (timeNow w))) /\
      err = Some (Wrap "rate limiter error" c)) \/
   (reachesBreaker r ctx s w = true /\
    ((exists e, err = Some e /\ (e = ErrOpenState \/ e = ErrTooManyRequests) /\
        storeUntouched s s' w w' /\ drawn w' = drawn w /\ failureCounted e s s') \/
     (exists p c, err = Some (Wrap p c) /\ codecPrefix p /\
        storeUntouched s s' w w' /\ failureCounted (Wrap p c) s s') \/
     (exists envelopes : list (MessageEnvelope * bytes),
        Forall2 (wraps (serializer s) (requestQueue r) (requestTTL r s))
          (requestMessages r) envelopes /\
        trips w' = S (trips w) /\
        let key := getQueueKey s (requestQueue r) in
        let cmds := [LPush key (map snd envelopes); Expire key (requestTTL r s)] in
        match network w (trips w) with
        | Answered =>
            err = None /\ isConnected s' = true /\
            server w' = foldl apply_cmd (server w) cmds /\
            messagesSent s' = wrap_int64 (messagesSent s + Z.of_nat (requestSize r)) /\
            errorCount s' = errorCount s /\ lastError s' = lastError s /\
            lastSuccess s' = clock w (pred (ticks w'))
        | Failed e =>
            err = Some (Wrap (sendPrefix r) e) /\ isConnected s' = false /\
            server w' = server w /\ failureCounted (Wrap (sendPrefix r) e) s s'
        | ReplyLost e =>
            err = Some (Wrap (sendPrefix r) e) /\ isConnected s' = false /\
            server w' = foldl apply_cmd (server w) cmds /\
            failureCounted (Wrap (sendPrefix r) e) s s'
        end)))).
Proof.
  intros Hrun. apply perform_inv in Hrun.
  destruct Hrun as [(Hempty & -> & -> & ->) | (Hsize & lim & [Hlim | Hlim])].
  - split; [auto 10 |]. left. auto.
  - destruct Hlim as (e & HW & -> & -> & ->). split; [cbn; auto 10 |].
    right; left. split; [exact Hsize |]. split; [unfold passesLimiter; now rewrite HW |].
    now exists lim, e.
  - destruct Hlim as (HW & cb1 & s1 & w1 & HE & Hend).
    assert (Hreach : reachesBreaker r ctx s w = true).
    { assert (Hpass : passesLimiter ctx s w = true)
        by (unfold passesLimiter; now rewrite HW).
      destruct r as [? ? ? | ? [| ? ?]]; cbn in Hsize |- *; congruence. }
    apply Execute_inv in HE. cbn [timeNow snd fst clock ticks] in HE.
    destruct HE as [(g & e & Hb & -> & -> & ->) | (cb0 & g & wr & Hb & Hreq & -> & Hcb)].
    + (* the breaker turns the call away *)
      apply beforeRequest_error in Hb. apply recordError_inv in Hend. cbn in Hend.
      destruct Hend as (-> & Hck & Htk & Huu & Hdr & Hnw & Htr & Hsv & Hkp).
      split; [cbn in *; facts |]. right; right. split; [exact Hreach |]. left.
      exists e. unfold storeUntouched, failureCounted. cbn. facts.
    + apply guarded_inv in Hreq. cbn in Hreq.
      destruct Hreq as ((Hck & Huu & Hnw & Hcs & Hkp) & Hreq).
      destruct Hreq as [(-> & Hsv & Htr & p & c & -> & Hp)
                       | (envelopes & Hwr & Htr & Hdr & Hout)].
      * (* the codec fails *)
        apply recordError_inv in Hend. cbn in Hend.
        destruct Hend as (-> & Hck' & Htk' & Huu' & Hdr' & Hnw' & Htr' & Hsv' & Hkp').
        split; [cbn in *; facts |]. right; right. split; [exact Hreach |]. right; left.
        exists p, c. unfold storeUntouched, failureCounted. cbn. facts.
      * (* the round trip *)
        assert (Hcommon :
          config s1 = config s /\ options s1 = options s /\ serializer s1 = serializer s /\
          startTime s1 = startTime s /\ messagesSent s1 = messagesSent s /\
          errorCount s1 = errorCount s /\ lastError s1 = lastError s /\
          lastSuccess s1 = lastSuccess s).
        { destruct (network w (trips w)); destruct Hout as (_ & -> & _); cbn; auto 10. }
        destruct Hcommon as (Hc1 & Hc2 & Hc3 & Hc4 & Hc5 & Hc6 & Hc7 & Hc8).
        destruct err as [e |].
        -- apply recordError_inv in Hend. cbn in Hend.
           destruct Hend as (-> & Hck' & Htk' & Huu' & Hdr' & Hnw' & Htr' & Hsv' & Hkp').
           split; [cbn in *; facts |].
           right; right. split; [exact Hreach |]. right; right.
           exists envelopes. split; [exact Hwr |]. split; [lia |].
           unfold failureCounted. cbn.
           destruct (network w (trips w)); destruct Hout as (He & -> & Hsv);
             try discriminate; injection He as ->; cbn; rewrite Hsv', Hsv; auto 10.
        -- destruct Hend as (-> & Hck' & Htk' & Huu' & Hnw' & Htr' & Hsv' & Hkp').
           cbn in Hck', Htk', Huu', Hnw', Htr', Hsv', Hkp'.
           split; [cbn in *; facts |].
           right; right. split; [exact Hreach |]. right; right.
           exists envelopes. split; [exact Hwr |]. split; [lia |].
           cbn.
           destruct (network w (trips w)); destruct Hout as (He & -> & Hsv);
             try discriminate.
           rewrite Htk', Hsv', Hsv, Hc5. cbn. rewrite Hck. auto 10.
Qed.

Ltac endings Hrun :=
  apply perform_cases in Hrun;
  destruct Hrun as [Hsame [Hempty | [Hlimited | [Hreach [Hrejected | [Hcodec | Hsent]]]]]];
  [ destruct Hempty as ([queue0 Hr0] & Hs0 & Hw0 & Herr)
  | destruct Hlimited as (Hsize & Hpass & lim & c & HW & Hs0 & Hw0 & Herr)
  | destruct Hrejected as (e0 & Herr & He0 & (Hsv & Htr & Hconn) & Hdr & Hcount)
  | destruct Hcodec as (p & c & Herr & Hp & (Hsv & Htr & Hconn) & Hcount)
  | destruct Hsent as (envelopes & Hwr & Htr & Hout); cbv zeta in Hout ].

(** The two commands of a send, run by the store: the values are at the
    head of the list of the key, the last one first, the key has the
    expiration asked for, and no other key is touched. *)
Lemma push_same_key (st : Store) (key : string) (values : list bytes) (ttl : Duration) :
  let st' := foldl apply_cmd st [LPush key values; Expire key ttl] in
  lists st' !! key = Some (rev values ++ default [] (lists st !! key)) /\
  expirations st' !! key = Some ttl.
Proof.
  cbn. rewrite lookup_insert_eq. cbn. now rewrite !lookup_insert_eq.
Qed.

Lemma push_other_key (st : Store) (key : string) (values : list bytes) (ttl : Duration)
    (k : string) :
  k <> key ->
  let st' := foldl apply_cmd st [LPush key values; Expire key ttl] in
  lists st' !! k = lists st !! k /\ expirations st' !! k = expirations st !! k.
Proof.
  intros Hk. cbn. rewrite lookup_insert_eq. cbn.
  now rewrite !lookup_insert_ne by congruence.
Qed.

(** X6. A send or batch call that returns no error has made exactly
    one round trip, which the store answered, and has left at the head
    of the list of its queue one serialized envelope for each message of
    the call, the envelope of the last message first. The envelope of a
    message carries the serialized message as its payload, the queue
    name and the TTL of the call (the TTL argument of a single send, the
    configured default for a batch), no headers, no metadata and no
    retries. The key of the list has that TTL as its expiration. (The
    TTL is taken to be positive: the store drops a key that is given an
    expiration that is not, which the store of this development does
    not show.) *)
Theorem success_queue_contents (r : Request) (ctx : Context) (s s' : valkeySender)
    (w w' : World) :
  perform r ctx s w = (s', w', None) ->
  0 < requestTTL r s ->
  let key := getQueueKey s (requestQueue r) in
  exists envelopes : list (MessageEnvelope * bytes),
    Forall2 (wraps (serializer s) (requestQueue r) (requestTTL r s))
      (requestMessages r) envelopes /\
    lists (server w') !! key
      = Some (rev (map snd envelopes) ++ default [] (lists (server w) !! key)) /\
    expirations (server w') !! key = Some (requestTTL r s) /\
    network w (trips w) = Answered /\
    trips w' = S (trips w).
Proof.
  intros Hrun _ key. apply perform_cases in Hrun.
  destruct Hrun as [_ [(_ & _ & _ & Hx) | [(_ & _ & lim & c & _ & _ & _ & Hx) | [_ Hrun]]]];
    try discriminate.
  destruct Hrun as [(e & Hx & _) | [(p & c & Hx & _) | (envelopes & Hwr & Htr & Hout)]];
    try discriminate.
  cbv zeta in Hout.
  destruct (network w (trips w)); destruct Hout as (He & _ & Hsv & _); try discriminate.
  exists envelopes. rewrite Hsv.
  pose proof (push_same_key (server w) key (map snd envelopes) (requestTTL r s)) as [Hl Hx].
  auto.
Qed.

Lemma getQueueKey_options (s s' : valkeySender) (queue : string) :
  options s' = options s -> getQueueKey s' queue = getQueueKey s queue.
Proof. unfold getQueueKey. now intros ->. Qed.

(** The store's answer to the length query. *)
Lemma GetQueueSize_answered (ctx : Context) (queue : string) (s : valkeySender) (w : World) :
  network w (trips w) = Answered ->
  fst (GetQueueSize ctx queue s w)
    = (Z.of_nat (length (default [] (lists (server w) !! getQueueKey s queue))), None).
Proof. intros Hnet. unfold GetQueueSize, roundTrip. now rewrite Hnet. Qed.

(** X7. After a send or batch call that returned no error (its TTL
    positive, as in X6), [GetQueueSize] for the same queue returns,
    when the store answers, the length the list had before the call plus
    the number of messages of the call. *)
Theorem size_after_success (r : Request) (ctx ctx' : Context) (s s' : valkeySender)
    (w w' : World) :
  perform r ctx s w = (s', w', None) ->
  0 < requestTTL r s ->
  network w' (trips w') = Answered ->
  fst (GetQueueSize ctx' (requestQueue r) s' w') =
    (Z.of_nat (length (default [] (lists (server w) !! getQueueKey s (requestQueue r))))
     + Z.of_nat (requestSize r), None).
Proof.
  intros Hrun _ Hnet. endings Hrun; try discriminate.
  destruct Hsame as (_ & Hopt & _).
  destruct (network w (trips w)); destruct Hout as (He & _ & Hsv' & _); try discriminate.
  rewrite (GetQueueSize_answered _ _ _ _ Hnet).
  rewrite (getQueueKey_options s s' _ Hopt), Hsv'.
  pose proof (push_same_key (server w) (getQueueKey s (requestQueue r))
                (map snd envelopes) (requestTTL r s)) as [Hl _].
  cbv zeta in Hl. rewrite Hl.
  cbn [default from_option id]. f_equal. unfold id.
  rewrite length_app, length_rev, length_map.
  apply Forall2_length in Hwr. rewrite <- Hwr.
  replace (length (requestMessages r)) with (requestSize r) by now destruct r.
  lia.
Qed.

(** X8. A send or batch call, whatever it returns, touches the list
    of its own queue only: for a queue with another key (when no queue
    namer is installed: with another name), the key stays what it was,
    and the list and the expiration of the key are as they were. *)
Theorem other_queues_untouched (r : Request) (ctx : Context) (s s' : valkeySender)
    (w w' : World) (err : option error) (queue : string) :
  perform r ctx s w = (s', w', err) ->
  match QueueNamer (options s) with
  | Some namer => namer queue <> namer (requestQueue r)
  | None => queue <> requestQueue r
  end ->
  getQueueKey s' queue = getQueueKey s queue /\
  lists (server w') !! getQueueKey s queue = lists (server w) !! getQueueKey s queue /\
  expirations (server w') !! getQueueKey s queue
    = expirations (server w) !! getQueueKey s queue.
Proof.
  intros Hrun Hother.
  assert (Hkey : getQueueKey s queue <> getQueueKey s (requestQueue r)).
  { unfold getQueueKey. destruct (QueueNamer (options s)); [exact Hother |].
    intros Heq. apply Hother. injection Heq as Heq. exact Heq. }
  endings Hrun; (split; [apply getQueueKey_options; apply Hsame |]);
    try (subst; cbn; rewrite ?Hsv; now split).
  pose proof (push_other_key (server w) _ (map snd envelopes) (requestTTL r s) _ Hkey)
    as Hpush.
  destruct (network w (trips w)); destruct Hout as (_ & _ & -> & _);
    (exact Hpush || now split).
Qed.

(** X9. A call one of whose messages the serializer refuses puts
    nothing on the queue, not even the messages that come before the
    refused one: whatever the rate limiter and the breaker do, the call
    returns an error, makes no round trip, and leaves the store, the
    connection flag and the count of messages sent as they were. *)
Theorem unserializable_message_sends_nothing (r : Request) (ctx : Context)
    (s s' : valkeySender) (w w' : World) (err : option error) (m : Message) (e : error) :
  perform r ctx s w = (s', w', err) ->
  m ∈ requestMessages r ->
  Serialize (serializer s) m = inr e ->
  err <> None /\ server w' = server w /\ trips w' = trips w /\
  isConnected s' = isConnected s /\ messagesSent s' = messagesSent s.
Proof.
  intros Hrun Hin Hser. endings Hrun.
  - subst. inversion Hin.
  - subst. cbn. now repeat split.
  - subst. destruct Hcount as (_ & _ & Hm & _). now repeat split.
  - subst. destruct Hcount as (_ & _ & Hm & _). now repeat split.
  - exfalso. apply list_elem_of_lookup in Hin. destruct Hin as [k Hk].
    destruct (Forall2_lookup_l _ _ _ _ _ Hwr Hk) as (q & _ & Hq & _).
    congruence.
Qed.

(** X10. A send or batch call that returns no error has raised the
    count of messages sent by the number of its messages (with [int64]
    wrap-around), which is at least one; it has left the error count
    and the last-error text as they were (the text of an earlier error
    stays), has set the last success to the last clock reading of the
    call, and leaves the sender connected. *)
Theorem success_accounting (r : Request) (ctx : Context) (s s' : valkeySender)
    (w w' : World) :
  perform r ctx s w = (s', w', None) ->
  messagesSent s' = wrap_int64 (messagesSent s + Z.of_nat (requestSize r)) /\
  errorCount s' = errorCount s /\
  lastError s' = lastError s /\
  lastSuccess s' = clock w (pred (ticks w')) /\
  isConnected s' = true /\
  (1 <= requestSize r)%nat.
Proof.
  intros Hrun. endings Hrun; try discriminate.
  assert (Hsize : (1 <= requestSize r)%nat).
  { destruct r as [? ? ? | ? [| ? ?]]; cbn in Hreach |- *; (lia || discriminate). }
  destruct (network w (trips w)); destruct Hout as (He & Hout); try discriminate.
  tauto.
Qed.

(** X11. A send or batch call makes at most one round trip to the store.
    When it makes none, it returns an error, and the store and the
    connection flag are as they were. When it makes one, the outcome of
    the round trip decides: answered, the call returns no error and the
    sender is connected; not answered, the call returns the transport
    error, wrapped with a text that names the queue, and the sender is
    disconnected; and when nothing reached the store, the store is as it
    was. *)
Theorem round_trip_decides (r : Request) (ctx : Context) (s s' : valkeySender)
    (w w' : World) (err : option error) :
  perform r ctx s w = (s', w', err) ->
  (trips w' = trips w /\ server w' = server w /\ isConnected s' = isConnected s /\
   err <> None) \/
  (trips w' = S (trips w) /\
   match network w (trips w) with
   | Answered => err = None /\ isConnected s' = true
   | Failed e =>
       err = Some (Wrap (sendPrefix r) e) /\ isConnected s' = false /\
       server w' = server w
   | ReplyLost e => err = Some (Wrap (sendPrefix r) e) /\ isConnected s' = false
   end).
Proof.
  intros Hrun. endings Hrun.
  - left. subst. now repeat split.
  - left. subst. cbn. now repeat split.
  - left. subst. now repeat split.
  - left. subst. now repeat split.
  - right. split; [exact Htr |].
    destruct (network w (trips w)); tauto.
Qed.

(** X12. A call, other than an empty batch, that the rate limiter turns
    away returns the limiter's error wrapped with "rate limiter error".
    But for the limiter's own state and two clock readings nothing has
    changed: the circuit breaker, the counters, the connection flag and
    the store are as they were, no UUID was drawn, no round trip made
    and no handler called. *)
Theorem limiter_rejection (r : Request) (ctx : Context) (s s' : valkeySender)
    (w w' : World) (err : option error) :
  perform r ctx s w = (s', w', err) ->
  requestSize r <> 0%nat ->
  passesLimiter ctx s w = false ->
  exists lim c,
    Wait ctx (clock w (S (ticks w))) (rateLimiter s) = (lim, Some c) /\
    err = Some (Wrap "rate limiter error" c) /\
    s' = set_rateLimiter lim s /\
    server w' = server w /\ trips w' = trips w /\ drawn w' = drawn w /\
    calls w' = calls w /\ ticks w' = (2 + ticks w)%nat.
Proof.
  intros Hrun Hnonempty Hturned.
  assert (Hno : reachesBreaker r ctx s w = false).
  { destruct r as [? ? ? | ? [| ? ?]]; cbn; congruence. }
  endings Hrun; try congruence.
  - subst. now cbn in Hnonempty.
  - exists lim, c. subst. cbn. auto 10.
Qed.

(** X13. When a send or batch call returns [ErrOpenState] or
    [ErrTooManyRequests] itself, the circuit breaker has turned the call
    away and the operation has not run: the store is as it was, no round
    trip was made, no UUID drawn, and the connection flag is unchanged.
    The failure is counted and its text kept. *)
Theorem breaker_rejection_runs_nothing (r : Request) (ctx : Context)
    (s s' : valkeySender) (w w' : World) (e : error) :
  perform r ctx s w = (s', w', Some e) ->
  e = ErrOpenState \/ e = ErrTooManyRequests ->
  reachesBreaker r ctx s w = true /\
  server w' = server w /\ trips w' = trips w /\ drawn w' = drawn w /\
  isConnected s' = isConnected s /\
  errorCount s' = wrap_int64 (errorCount s + 1) /\ lastError s' = Error e.
Proof.
  intros Hrun He. endings Hrun.
  - destruct He; congruence.
  - destruct He; congruence.
  - injection Herr as ->. destruct Hcount as (Hec & Hle & _). auto 10.
  - destruct He; congruence.
  - destruct (network w (trips w)); destruct Hout as (Hx & _); destruct He; congruence.
Qed.

Lemma codecPrefix_distinct (p : string) (r : Request) :
  codecPrefix p -> p <> "rate limiter error" /\ p <> sendPrefix r.
Proof.
  intros [rest [-> | ->]]; (split; [discriminate |]); destruct r; discriminate.
Qed.

Lemma sendPrefix_distinct (r : Request) : sendPrefix r <> "rate limiter error".
Proof. destruct r; discriminate. Qed.

(** X14. Every error a send or batch call returns is of one of five
    kinds, which the error itself tells apart: the empty-batch error;
    an error of the rate limiter, wrapped with "rate limiter error"; one
    of the two errors of the circuit breaker, unwrapped, in which case
    no UUID was drawn; the error of a message or of an envelope that
    could not be serialized, wrapped with a text that starts "failed to
    serialize message" or "failed to serialize envelope", with no round
    trip made; or a transport error, wrapped with "failed to send
    message to queue" or "failed to send batch to queue" and the queue
    name, after one round trip. *)
Theorem error_kinds (r : Request) (ctx : Context) (s s' : valkeySender)
    (w w' : World) (e : error) :
  perform r ctx s w = (s', w', Some e) ->
  (e = New "messages slice cannot be empty" /\ requestMessages r = []) \/
  (exists c, e = Wrap "rate limiter error" c /\ passesLimiter ctx s w = false) \/
  ((e = ErrOpenState \/ e = ErrTooManyRequests) /\ drawn w' = drawn w) \/
  (exists p c, e = Wrap p c /\ codecPrefix p /\
     p <> "rate limiter error" /\ p <> sendPrefix r /\ trips w' = trips w) \/
  (exists c, e = Wrap (sendPrefix r) c /\ sendPrefix r <> "rate limiter error" /\
     (network w (trips w) = Failed c \/ network w (trips w) = ReplyLost c) /\
     trips w' = S (trips w)).
Proof.
  intros Hrun. endings Hrun.
  - left. subst. injection Herr as <-. now split.
  - right; left. injection Herr as ->. now exists c.
  - right; right; left. injection Herr as ->. now split.
  - right; right; right; left. injection Herr as ->.
    destruct (codecPrefix_distinct p r Hp). exists p, c. auto 10.
  - right; right; right; right.
    pose proof (sendPrefix_distinct r).
    destruct (network w (trips w)) as [| c | c]; destruct Hout as (Hx & _);
      [discriminate | |]; injection Hx as ->; exists c; auto 10.
Qed.

(** The calls [notifyBatch] makes to the success handler. *)
Lemma notifyBatch_calls (queue : string) (start : Time) (ttl : Duration)
    (messages : list Message) :
  forall (i : Z) (w : World),
    calls (notifyBatch queue start ttl i messages w) =
    calls w ++
    map (fun k => SuccessHandlerCall
                    (metadataFor queue start ttl (i + Z.of_nat k)
                       (uuids w (drawn w + k)%nat)))
        (seq 0 (length messages)).
Proof.
  induction messages as [| m rest IH]; intros i w; cbn [notifyBatch uuidNew length seq map].
  - now rewrite app_nil_r.
  - rewrite IH. cbn [calls invoke uuids drawn]. rewrite <- app_assoc. cbn [app].
    f_equal. unfold metadataFor at 2. rewrite Z.add_0_r, Nat.add_0_r. f_equal.
    rewrite <- seq_shift, map_map. apply map_ext. intros k.
    do 2 f_equal; [lia | f_equal; lia].
Qed.

(** X15. What the success handler is told. After a call that returned
    no error, the handler, if one is installed, has been called once for
    each message, in order, and no other handler call was made; the call
    for the message at position k carries the queue, the position, the
    UUID drawn k-th after those of the envelopes, the first clock
    reading of the call (its start) as the timestamp, the TTL of the
    call, no headers, and size 0. Without a success handler no call is
    made. *)
Theorem success_handler_calls (r : Request) (ctx : Context) (s s' : valkeySender)
    (w w' : World) :
  perform r ctx s w = (s', w', None) ->
  calls w' =
    calls w ++
    (if SuccessHandler (options s) then
       map (fun k => SuccessHandlerCall
                       (metadataFor (requestQueue r) (clock w (ticks w)) (requestTTL r s)
                          (Z.of_nat k) (uuids w (drawn w + requestSize r + k)%nat)))
           (seq 0 (requestSize r))
     else []).
Proof.
  intros Hrun.
  assert (Hguarded :
    forall lim cb1 s1 w1,
      gobreaker.Execute (guarded r ctx) (circuitBreaker s) (set_rateLimiter lim s)
        (snd (timeNow (snd (timeNow w)))) = (cb1, s1, w1, None) ->
      options s1 = options s /\ config s1 = config s /\ calls w1 = calls w /\
      uuids w1 = uuids w /\ drawn w1 = (drawn w + requestSize r)%nat).
  { intros lim cb1 s1 w1 HE. apply Execute_inv in HE.
    destruct HE as [(g & e & _ & _ & _ & Hx) | (cb0 & g & wr & _ & Hreq & -> & _)];
      [discriminate |].
    apply guarded_inv in Hreq. cbn in Hreq.
    destruct Hreq as ((_ & Huu & _ & Hcs & _) & Hreq).
    destruct Hreq as [(_ & _ & _ & p & c & Hx & _) | (envelopes & _ & _ & Hdr & Hout)];
      [discriminate |].
    destruct (network w (trips w)); destruct Hout as (Hx & -> & _); try discriminate.
    cbn. auto. }
  destruct r as [queue message ttl | queue messages];
    cbn [perform requestQueue requestTTL requestSize guarded] in *.
  - unfold SendMessageWithTTL in Hrun. cbn [timeNow clock ticks] in Hrun.
    destruct (Wait ctx (clock w (S (ticks w))) (rateLimiter s)) as [lim [e |]];
      [discriminate |].
    destruct (gobreaker.Execute _ _ _ _) as [[[cb1 s1] w1] [e1 |]] eqn:HE.
    { destruct (recordError _ _ _); discriminate. }
    apply Hguarded in HE. destruct HE as (Ho & _ & Hcs & Huu & Hdr).
    cbn [timeNow] in Hrun.
    cbn [options set_lastSuccess add_messagesSent set_circuitBreaker] in Hrun.
    rewrite Ho in Hrun.
    destruct (SuccessHandler (options s)); cbn [uuidNew] in Hrun;
      injection Hrun as ? ?; subst; cbn; rewrite Hcs; [| now rewrite app_nil_r].
    unfold metadataFor. now rewrite Huu, Hdr, Nat.add_0_r.
  - destruct messages as [| m rest]; [discriminate |].
    remember (m :: rest) as messages eqn:Hms.
    unfold SendBatch in Hrun.
    replace (length messages =? 0)%nat with false in Hrun by now subst.
    cbn [timeNow clock ticks] in Hrun.
    destruct (Wait ctx (clock w (S (ticks w))) (rateLimiter s)) as [lim [e |]];
      [discriminate |].
    destruct (gobreaker.Execute _ _ _ _) as [[[cb1 s1] w1] [e1 |]] eqn:HE.
    { destruct (recordError _ _ _); discriminate. }
    apply Hguarded in HE. destruct HE as (Ho & Hcfg & Hcs & Huu & Hdr).
    cbn [timeNow] in Hrun.
    cbn [options config set_lastSuccess add_messagesSent set_circuitBreaker] in Hrun.
    rewrite Ho, Hcfg in Hrun.
    destruct (SuccessHandler (options s));
      injection Hrun as ? ?; subst w'; [| cbn; now rewrite Hcs, app_nil_r].
    rewrite notifyBatch_calls. cbn [calls uuids drawn]. rewrite Hcs, Huu, Hdr.
    reflexivity.
Qed.

(** *** Sequences of calls *)

Lemma wrap_int64_range (z : Z) : - 2 ^ 63 <= wrap_int64 z < 2 ^ 63.
Proof. unfold wrap_int64. pose proof (Z.mod_pos_bound (z + 2 ^ 63) (2 ^ 64)). lia. Qed.

Lemma wrap_int64_small (z : Z) : - 2 ^ 63 <= z < 2 ^ 63 -> wrap_int64 z = z.
Proof. intros Hz. unfold wrap_int64. rewrite Z.mod_small; lia. Qed.

Lemma wrap_int64_add (a b : Z) : wrap_int64 (wrap_int64 a + b) = wrap_int64 (a + b).
Proof.
  unfold wrap_int64. f_equal.
  replace ((a + 2 ^ 63) mod 2 ^ 64 - 2 ^ 63 + b + 2 ^ 63)
    with ((a + 2 ^ 63) mod 2 ^ 64 + b) by lia.
  rewrite Zplus_mod_idemp_l. f_equal. lia.
Qed.

(** What one call does to the two counters. *)
Lemma perform_counters (r : Request) (ctx : Context) (s s' : valkeySender) (w w' : World)
    (err : option error) :
  perform r ctx s w = (s', w', err) ->
  match err with
  | None =>
      messagesSent s' = wrap_int64 (messagesSent s + Z.of_nat (requestSize r)) /\
      errorCount s' = errorCount s
  | Some _ =>
      messagesSent s' = messagesSent s /\
      errorCount s' =
        if reachesBreaker r ctx s w then wrap_int64 (errorCount s + 1) else errorCount s
  end.
Proof.
  intros Hrun. endings Hrun.
  - subst. now cbn.
  - subst. assert (Hno : reachesBreaker r ctx s w = false).
    { destruct r as [? ? ? | ? [| ? ?]]; cbn; congruence. }
    rewrite Hno. now cbn.
  - subst. rewrite Hreach. destruct Hcount as (? & _ & ? & _). now split.
  - subst. rewrite Hreach. destruct Hcount as (? & _ & ? & _). now split.
  - destruct (network w (trips w)).
    + destruct Hout as (-> & _ & _ & ? & ? & _). now split.
    + destruct Hout as (-> & _ & _ & ? & _ & ? & _). rewrite Hreach. now split.
    + destruct Hout as (-> & _ & _ & ? & _ & ? & _). rewrite Hreach. now split.
Qed.

(** X16. Over any sequence of send and batch calls, made one after the
    other, the count of messages sent has grown by the number of
    messages of the calls that returned no error, and the error count by
    the number of calls that got as far as the circuit breaker and
    returned an error (both with [int64] wrap-around, the counters being
    [int64] values to begin with). *)
Theorem counters_over_calls (rs : list (Request * Context)) :
  forall (s s' : valkeySender) (w w' : World) (errs : list (option error)),
    performAll rs s w = (s', w', errs) ->
    - 2 ^ 63 <= messagesSent s < 2 ^ 63 ->
    - 2 ^ 63 <= errorCount s < 2 ^ 63 ->
    length errs = length rs /\
    messagesSent s' = wrap_int64 (messagesSent s + fst (tally rs s w)) /\
    errorCount s' = wrap_int64 (errorCount s + snd (tally rs s w)).
Proof.
  induction rs as [| [r ctx] rest IH]; intros s s' w w' errs Hrun Hm He.
  - cbn in Hrun. injection Hrun as ? ? ?; subst. cbn.
    rewrite !Z.add_0_r, !wrap_int64_small by assumption. auto.
  - cbn [performAll tally] in Hrun |- *.
    destruct (perform r ctx s w) as [[s1 w1] err] eqn:Hstep.
    destruct (performAll rest s1 w1) as [[s2 w2] errs2] eqn:Hrest.
    injection Hrun as ? ? ?; subst.
    apply perform_counters in Hstep.
    assert (Hrange : - 2 ^ 63 <= messagesSent s1 < 2 ^ 63 /\
                     - 2 ^ 63 <= errorCount s1 < 2 ^ 63).
    { destruct err; destruct Hstep as [-> ->];
        [destruct (reachesBreaker r ctx s w) |];
        auto using wrap_int64_range. }
    destruct (IH _ _ _ _ _ Hrest (proj1 Hrange) (proj2 Hrange)) as (Hlen & Hsent & Hfailed).
    destruct (tally rest s1 w1) as [sent failed]. cbn [fst snd] in Hsent, Hfailed.
    split; [cbn; now rewrite Hlen |].
    rewrite Hsent, Hfailed.
    destruct err; destruct Hstep as [-> ->]; cbn [fst snd].
    + split; [reflexivity |].
      destruct (reachesBreaker r ctx s w); [| reflexivity].
      rewrite wrap_int64_add. f_equal. lia.
    + split; [| reflexivity]. rewrite wrap_int64_add. f_equal. lia.
Qed.

(** What one call does to the list of a key: nothing is ever taken
    from it; a call that returns no error has put its messages on the
    list of its queue; and a call that returns an error has changed the
    list of no key, unless the store ran the commands and the reply was
    lost. *)
Lemma perform_queueLength (r : Request) (ctx : Context) (s s' : valkeySender)
    (w w' : World) (err : option error) (key : string) :
  perform r ctx s w = (s', w', err) ->
  network w' = network w /\
  (queueLength key w <= queueLength key w')%nat /\
  (err = None -> key = getQueueKey s (requestQueue r) ->
   queueLength key w' = (queueLength key w + requestSize r)%nat) /\
  ((forall e, network w (trips w) <> ReplyLost e) ->
   err <> None \/ key <> getQueueKey s (requestQueue r) ->
   queueLength key w' = queueLength key w).
Proof.
  intros Hrun. unfold queueLength. endings Hrun;
    (split; [apply Hsame |]);
    try (subst; cbn [server timeNow snd]; rewrite ?Hsv;
         split; [lia |]; split; [intros; congruence | reflexivity]).
  set (k := getQueueKey s (requestQueue r)) in *.
  assert (Hlen : length (map snd envelopes) = requestSize r).
  { rewrite length_map. apply Forall2_length in Hwr. rewrite <- Hwr. now destruct r. }
  pose proof (push_same_key (server w) k (map snd envelopes) (requestTTL r s)) as [Hsame' _].
  assert (Hother : key <> k ->
    lists (foldl apply_cmd (server w)
             [LPush k (map snd envelopes); Expire k (requestTTL r s)]) !! key
    = lists (server w) !! key).
  { intros Hk. now apply push_other_key. }
  cbv zeta in Hsame'.
  assert (Hgrow : forall st,
    st = foldl apply_cmd (server w) [LPush k (map snd envelopes); Expire k (requestTTL r s)] ->
    (length (default [] (lists (server w) !! key))
       <= length (default [] (lists st !! key)))%nat /\
    (key = k -> length (default [] (lists st !! key))
                = (length (default [] (lists (server w) !! key)) + requestSize r)%nat) /\
    (key <> k -> length (default [] (lists st !! key))
                 = length (default [] (lists (server w) !! key)))).
  { intros st ->. destruct (decide (key = k)) as [-> | Hk].
    - rewrite Hsame'. cbn [default from_option id]. unfold id.
      rewrite length_app, length_rev, Hlen. repeat split; intros; (lia || congruence).
    - rewrite (Hother Hk). repeat split; intros; (lia || congruence). }
  destruct (network w (trips w)) as [| e | e] eqn:Hnet.
  - destruct Hout as (-> & _ & Hsv & _). destruct (Hgrow _ Hsv) as (Hle & Heq & Hne).
    split; [exact Hle |]. split; [intros _; exact Heq |].
    intros _ [Hx | Hx]; [congruence | exact (Hne Hx)].
  - destruct Hout as (-> & _ & Hsv & _). rewrite Hsv.
    split; [lia |]. split; [discriminate | reflexivity].
  - destruct Hout as (-> & _ & Hsv & _). destruct (Hgrow _ Hsv) as (Hle & Heq & Hne).
    split; [exact Hle |]. split; [discriminate |].
    intros Hlost. exfalso. exact (Hlost e eq_refl).
Qed.

(** X17. Over any sequence of send and batch calls (their TTLs
    positive), the list of a key has grown by at least the number of
    messages of the calls that went to that key and returned no error:
    no message the sender took for sent is missing from the store, and
    nothing was taken from the list. When no reply is ever lost (the
    store never runs commands whose reply the client does not see), the
    list has grown by exactly that number. *)
Theorem acknowledged_messages_are_stored (rs : list (Request * Context)) :
  forall (s s' : valkeySender) (w w' : World) (errs : list (option error)) (key : string),
    performAll rs s w = (s', w', errs) ->
    Forall (fun rc => 0 < requestTTL (fst rc) s) rs ->
    (queueLength key w + acknowledgedTo key rs s w <= queueLength key w')%nat /\
    ((forall k e, network w k <> ReplyLost e) ->
     queueLength key w' = (queueLength key w + acknowledgedTo key rs s w)%nat).
Proof.
  intros s s' w w' errs key Hrun _. revert s s' w w' errs Hrun.
  induction rs as [| [r ctx] rest IH]; intros s s' w w' errs Hrun.
  - cbn in Hrun. injection Hrun as ? ? ?; subst. cbn. split; [lia | intros; lia].
  - cbn [performAll acknowledgedTo] in Hrun |- *.
    destruct (perform r ctx s w) as [[s1 w1] err] eqn:Hstep.
    destruct (performAll rest s1 w1) as [[s2 w2] errs2] eqn:Hrest.
    injection Hrun as ? ? ?; subst.
    apply (perform_queueLength _ _ _ _ _ _ _ key) in Hstep.
    destruct Hstep as (Hnet & Hle & Hack & Hsame).
    destruct (IH _ _ _ _ _ Hrest) as [IHle IHeq]. rewrite Hnet in IHeq.
    destruct err as [e |].
    + split; [lia |]. intros Hlost. rewrite (IHeq Hlost).
      rewrite (Hsame (Hlost (trips w))); [reflexivity | left; discriminate].
    + destruct (String.eqb_spec key (getQueueKey s (requestQueue r))) as [Hk | Hk].
      * rewrite (Hack eq_refl Hk) in *. split; [lia |].
        intros Hlost. rewrite (IHeq Hlost). lia.
      * split; [lia |]. intros Hlost. rewrite (IHeq Hlost).
        rewrite (Hsame (Hlost (trips w))); [reflexivity | now right].
Qed.

(** *** Construction *)




(** The state of a closed breaker, as [State] reports it, is closed. *)
Lemma closed_State (cb : gobreaker.CircuitBreaker) (w : World) :
  gobreaker.state cb = gobreaker.StateClosed ->
  fst (fst (gobreaker.State_ cb w)) = gobreaker.StateClosed.
Proof.
  intros Hst. unfold gobreaker.State_, gobreaker.currentState. cbn [timeNow].
  rewrite Hst. destruct (negb _ && _); cbn; now rewrite ?Hst.
Qed.

(** X19. The sender [NewSender] returns holds the configuration and the
    options it was given (the empty options when none), the serializer
    of the options or else the JSON serializer, and a rate limiter made
    from the configured rate and burst; it has sent nothing and counted
    no error, is connected, started at the first clock reading of
    [NewSender] and had its last success at the third. Building it took
    one round trip (the PING), which left the store as it was, and no
    handler was called. [Health] reports it healthy and connected, its
    breaker closed. *)
Theorem NewSender_fresh (config0 : Config) (options0 : option SenderOptions)
    (w w' : World) (s : valkeySender) :
  NewSender (Some config0) options0 w = (inl s, w') ->
  (config s = config0 /\
   options s = default noOptions options0 /\
   serializer s = default NewJSONSerializer (Serializer (default noOptions options0)) /\
   rateLimiter s = NewLimiter (RateLimitRequests config0) (RateLimitBurst config0)) /\
  (messagesSent s = 0 /\ errorCount s = 0 /\ lastError s = "" /\
   isConnected s = true /\
   startTime s = clock w (ticks w) /\ lastSuccess s = clock w (2 + ticks w)%nat) /\
  (trips w' = S (trips w) /\ server w' = server w /\ calls w' = calls w /\
   drawn w' = drawn w /\ ticks w' = (3 + ticks w)%nat) /\
  (forall w2 : World,
      let h := fst (fst (Health s w2)) in
      Status h = "healthy" /\ ConnectionState h = "connected" /\
      CircuitBreaker h = "closed" /\ hs_ErrorCount h = 0 /\ hs_MessagesSent h = 0).
Proof.
  intros Hnew.
  assert (Hfields :
    (config s = config0 /\
     options s = default noOptions options0 /\
     serializer s = default NewJSONSerializer (Serializer (default noOptions options0)) /\
     rateLimiter s = NewLimiter (RateLimitRequests config0) (RateLimitBurst config0)) /\
    (messagesSent s = 0 /\ errorCount s = 0 /\ lastError s = "" /\
     isConnected s = true /\
     startTime s = clock w (ticks w) /\ lastSuccess s = clock w (2 + ticks w)%nat) /\
    (trips w' = S (trips w) /\ server w' = server w /\ calls w' = calls w /\
     drawn w' = drawn w /\ ticks w' = (3 + ticks w)%nat) /\
    gobreaker.state (circuitBreaker s) = gobreaker.StateClosed).
  { revert Hnew. unfold NewSender.
    destruct (Logger (default noOptions options0)) as [[|] |]; try discriminate;
      cbn [timeNow gobreaker.NewCircuitBreaker];
      (destruct (initClient _ _); [discriminate |]);
      unfold testConnection; cbn [roundTrip];
      (match goal with
       | |- context [network ?w0 (trips ?w0)] => destruct (network w0 (trips w0))
       end; try discriminate);
      cbn [timeNow]; intros Hx; injection Hx as ? ?; subst; cbn; auto 20. }
  destruct Hfields as (Hcfg & Hcounters & Hworld & Hclosed).
  split; [exact Hcfg |]. split; [exact Hcounters |]. split; [exact Hworld |].
  intros w2 h. subst h.
  destruct Hcounters as (Hm & He & _ & Hconn & _).
  pose proof (closed_State (circuitBreaker s) (snd (timeNow w2)) Hclosed) as Hst.
  unfold Health. cbn [timeNow snd] in Hst |- *.
  destruct (gobreaker.State_ _ _) as [[st cb] w3]. cbn in Hst. subst st.
  unfold getConnectionState. rewrite Hm, He, Hconn. cbn. auto.
Qed.


(** *** Health *)

(** X21. A sender that has counted no error is healthy, however many
    messages it has sent (short of the overflow of the counter). *)
Theorem Health_no_errors (s : valkeySender) (w : World) :
  errorCount s = 0 ->
  0 <= messagesSent s < 2 ^ 63 - 1 ->
  Status (fst (fst (Health s w))) = "healthy".
Proof.
  intros He Hm. rewrite Health_Status. unfold derivedStatus. rewrite He.
  assert (Hw : wrap_int64 (messagesSent s + 1) = messagesSent s + 1).
  { unfold wrap_int64. rewrite Z.mod_small; lia. }
  rewrite Hw.
  destruct (of_int64_positive (messagesSent s + 1) ltac:(lia)) as (m & e & ->).
  reflexivity.
Qed.

(** X22. [Health] reads and reports: the last success, the last-error
    text and the two counters as they are, the time since the start (at
    the first of its two clock readings), "connected" or "disconnected"
    as the connection flag says, and the state of the breaker. It makes
    no round trip, draws no UUID and calls no handler, and leaves the
    sender as it was but for the breaker: when the breaker is open and
    its timeout has run out at the second clock reading, asking for its
    state makes it half-open, and "half-open" is what is reported; in no
    other case does the state change. *)
Theorem Health_observes (s : valkeySender) (w : World) :
  let h := fst (fst (Health s w)) in
  let s' := snd (fst (Health s w)) in
  let w' := snd (Health s w) in
  (s' = set_circuitBreaker (circuitBreaker s') s /\
   server w' = server w /\ trips w' = trips w /\ drawn w' = drawn w /\
   calls w' = calls w /\ ticks w' = (2 + ticks w)%nat) /\
  (hs_LastSuccess h = lastSuccess s /\ hs_LastError h = lastError s /\
   hs_ErrorCount h = errorCount s /\ hs_MessagesSent h = messagesSent s /\
   Uptime h = clock w (ticks w) - startTime s /\
   ConnectionState h = (if isConnected s then "connected" else "disconnected") /\
   CircuitBreaker h = gobreaker.String (gobreaker.state (circuitBreaker s'))) /\
  (gobreaker.state (circuitBreaker s') <> gobreaker.state (circuitBreaker s) ->
   gobreaker.state (circuitBreaker s) = gobreaker.StateOpen /\
   gobreaker.state (circuitBreaker s') = gobreaker.StateHalfOpen /\
   gobreaker.expiry (circuitBreaker s) < clock w (S (ticks w))).
Proof.
  unfold Health, gobreaker.State_, gobreaker.currentState, getConnectionState.
  cbn [timeNow clock ticks].
  destruct (gobreaker.state (circuitBreaker s)) eqn:Hst.
  - destruct (negb _ && _); cbn; rewrite ?Hst; (split; [auto 10 |]); (split; [auto 10 |]);
      intros Hx; now exfalso.
  - cbn. rewrite Hst. (split; [auto 10 |]); (split; [auto 10 |]); intros Hx; now exfalso.
  - destruct (Z.ltb_spec (gobreaker.expiry (circuitBreaker s)) (clock w (S (ticks w))))
      as [Hlt | Hge].
    + unfold gobreaker.setState. rewrite Hst. cbn.
      destruct (gobreaker.onStateChange (circuitBreaker s)); cbn;
        (split; [auto 10 |]); (split; [auto 10 |]); auto.
    + cbn. rewrite Hst. (split; [auto 10 |]); (split; [auto 10 |]); intros Hx; now exfalso.
Qed.

(** *** The calls and the rest of the sender *)

(** X23. The first failure of a sender that has sent nothing makes it
    unhealthy: after a failed call that got as far as the circuit
    breaker, made by a sender with both counters at zero, [Health]
    reports one error, no message sent, and the status "unhealthy" (the
    error rate being 1/(0+1)). *)
Theorem first_failure_is_unhealthy (r : Request) (ctx : Context) (s s' : valkeySender)
    (w w' w2 : World) (e : error) :
  messagesSent s = 0 -> errorCount s = 0 ->
  perform r ctx s w = (s', w', Some e) ->
  reachesBreaker r ctx s w = true ->
  hs_ErrorCount (fst (fst (Health s' w2))) = 1 /\
  hs_MessagesSent (fst (fst (Health s' w2))) = 0 /\
  Status (fst (fst (Health s' w2))) = "unhealthy".
Proof.
  intros Hm He Hrun Hreach. apply perform_counters in Hrun.
  rewrite Hreach, Hm, He in Hrun. destruct Hrun as [Hm' He'].
  pose proof (Health_counters s' w2) as (_ & _ & Hhm & Hhe).
  rewrite Health_Status, Hhm, Hhe, Hm', He'.
  split; [reflexivity |]. split; reflexivity.
Qed.

(** X24. Every send or batch call other than an empty batch asks the
    rate limiter exactly once, at the second clock reading of the call,
    whatever becomes of the call afterwards (the breaker may turn it
    away) and however many messages a batch holds; an empty batch does
    not ask it. The limiter the sender keeps is the one [Wait] left. *)
Theorem limiter_consulted_once (r : Request) (ctx : Context) (s s' : valkeySender)
    (w w' : World) (err : option error) :
  perform r ctx s w = (s', w', err) ->
  rateLimiter s' =
    if (requestSize r =? 0)%nat then rateLimiter s
    else fst (Wait ctx (clock w (S (ticks w))) (rateLimiter s)).
Proof.
  intros Hrun. apply perform_inv in Hrun.
  destruct Hrun as [([queue ->] & -> & _) | (Hsize & lim & [Hlim | Hlim])];
    [reflexivity | |];
    (destruct (requestSize r =? 0)%nat eqn:Hz; [apply Nat.eqb_eq in Hz; congruence |]).
  - destruct Hlim as (e & -> & -> & _). reflexivity.
  - destruct Hlim as (-> & cb1 & s1 & w1 & HE & Hend). cbn [fst].
    assert (Hlim : rateLimiter s1 = lim).
    { apply Execute_inv in HE.
      destruct HE as [(g & e & _ & -> & _) | (cb0 & g & wr & _ & Hreq & _)];
        [reflexivity |].
      apply guarded_inv in Hreq. destruct Hreq as (_ & [(-> & _) | (es & _ & _ & _ & Hout)]);
        [reflexivity |].
      cbv zeta in Hout.
      destruct (network _ _); destruct Hout as (_ & -> & _); reflexivity. }
    destruct err as [e |].
    + apply recordError_inv in Hend. destruct Hend as (-> & _). exact Hlim.
    + destruct Hend as (-> & _). exact Hlim.
Qed.

(** The loop that prepares the envelopes stops at the first message the
    serializer refuses, and names its position. *)
Lemma prepareEnvelopes_refused (s : valkeySender) (queue : string) (e : error) :
  (forall envelope, is_inl (SerializeMessageEnvelope envelope) = true) ->
  forall (messages : list Message) (k i : nat) (m : Message) (w : World),
    messages !! k = Some m ->
    Serialize (serializer s) m = inr e ->
    (forall j mj, (j < k)%nat -> messages !! j = Some mj ->
                  is_inl (Serialize (serializer s) mj) = true) ->
    exists w',
      prepareEnvelopes s queue i messages w
        = (w', inr (Wrap ("failed to serialize message " ++ pretty (i + k)%nat) e)) /\
      drawn w' = (drawn w + S k)%nat /\ ticks w' = (ticks w + S k)%nat.
Proof.
  intros Henv messages.
  induction messages as [| m0 rest IH]; intros k i m w Hk Hm Hbefore; [discriminate |].
  cbn [prepareEnvelopes uuidNew timeNow].
  destruct k as [| k].
  - cbn in Hk. injection Hk as ->. rewrite Hm, Nat.add_0_r.
    eexists. split; [reflexivity |]. cbn. split; lia.
  - cbn in Hk.
    pose proof (Hbefore 0%nat m0 ltac:(lia) eq_refl) as Hfirst.
    destruct (Serialize (serializer s) m0) as [payload | e0]; [| discriminate].
    match goal with
    | |- context [SerializeMessageEnvelope ?env] =>
        pose proof (Henv env) as He;
        destruct (SerializeMessageEnvelope env) as [data | e0]; [| discriminate]
    end.
    match goal with
    | |- context [prepareEnvelopes s queue (S i) rest ?w0] =>
        destruct (IH k (S i) m w0 Hk Hm) as (w' & Hrun & Hdr & Htk)
    end.
    { intros j mj Hj Hmj. apply (Hbefore (S j) mj); [lia | exact Hmj]. }
    rewrite Hrun. exists w'. cbn in Hdr, Htk.
    replace (i + S k)%nat with (S i + k)%nat by lia.
    split; [reflexivity |]. split; lia.
Qed.

(** X25. A batch whose message at position k is the first one the
    serializer refuses (the envelopes themselves being serializable)
    fails in [sendBatchInternal] with that message's error, wrapped with
    "failed to serialize message k": k+1 UUIDs have been drawn and k+1
    clock readings taken, no round trip has been made, and the sender
    and the store are as they were. *)
Theorem batch_error_names_first_refused (ctx : Context) (queue : string)
    (messages : list Message) (s : valkeySender) (w : World)
    (k : nat) (m : Message) (e : error) :
  messages !! k = Some m ->
  Serialize (serializer s) m = inr e ->
  (forall j mj, (j < k)%nat -> messages !! j = Some mj ->
                is_inl (Serialize (serializer s) mj) = true) ->
  (forall envelope, is_inl (SerializeMessageEnvelope envelope) = true) ->
  exists w',
    sendBatchInternal ctx queue messages s w
      = (s, w', Some (Wrap ("failed to serialize message " ++ pretty k) e)) /\
    drawn w' = (drawn w + S k)%nat /\ ticks w' = (ticks w + S k)%nat /\
    server w' = server w /\ trips w' = trips w.
Proof.
  intros Hk Hm Hbefore Henv.
  destruct (prepareEnvelopes_refused s queue e Henv messages k 0%nat m w Hk Hm Hbefore)
    as (w' & Hrun & Hdr & Htk).
  pose proof (prepareEnvelopes_world s queue messages 0%nat w) as Hw.
  rewrite Hrun in Hw. cbn in Hw. destruct Hw as (Hsv & Htr & _).
  exists w'. unfold sendBatchInternal. rewrite Hrun. auto.
Qed.

End DispatchProperties.

(** ** Examples *)

(** The properties above at concrete inputs, and the inputs at which
    the specification's wording does not hold. *)
Module Examples.
Import Sample.

Lemma uuids_inj (t0 step : Z) (net : nat -> RoundTrip) (i j : nat) :
  uuids (world t0 step net) i = uuids (world t0 step net) j -> i = j.
Proof.
  unfold world. cbn. intros Hij. injection Hij as Hij.
  change (pretty i = pretty j) in Hij. exact (inj pretty i j Hij).
Qed.

(** C6, a counterexample to the claim as stated: the empty string and the
    empty byte slice are serialized (to no bytes at all), and what
    comes out cannot be deserialized. *)
Lemma empty_payload_does_not_round_trip :
  JSONSerializer_Serialize (Str "") = inl [] /\
  JSONSerializer_Deserialize [] (targetFor (Flag false) (Str ""))
    = (StringPtr "", Some (New "data cannot be empty")) /\
  JSONSerializer_Serialize (Bytes []) = inl [] /\
  JSONSerializer_Deserialize [] (targetFor (Flag false) (Bytes []))
    = (BytesPtr [], Some (New "data cannot be empty")).
Proof. repeat split. Qed.

(** C6, the amended property at work: a boolean, encoded as JSON and
    decoded into a boolean target, comes back. *)
Lemma deserialize_serialize_witness :
  JSONSerializer_Serialize (Other (Flag true)) = inl (list_byte_of_string "true") /\
  pointee (fst (JSONSerializer_Deserialize (list_byte_of_string "true")
                  (targetFor (Flag false) (Other (Flag true)))))
    = Other (Flag true) /\
  snd (JSONSerializer_Deserialize (list_byte_of_string "true")
         (targetFor (Flag false) (Other (Flag true)))) = None.
Proof.
  split; [reflexivity |].
  apply deserialize_serialize.
  - reflexivity.
  - discriminate.
  - cbn. intros d Hd. injection Hd as <-. reflexivity.
Defined.

(** C7, a counterexample to the claim as stated: a message that is not
    nil and that [Serialize] refuses, because JSON cannot encode it. *)
Lemma serialize_fails_on_channel :
  Other Channel <> Nil /\
  JSONSerializer_Serialize (Other Channel)
    = inr (Wrap "failed to serialize message to JSON"
             (New "json: unsupported type: chan int")).
Proof. split; [discriminate | reflexivity]. Qed.

(** C8 at work: the size of a queue nobody wrote to, in an empty store. *)
Lemma GetQueueSize_missing_key_witness :
  lists (server (world 0 Second reliable))
    !! getQueueKey (sender defaultConfig noOptions) "never-written" = None /\
  fst (GetQueueSize Background "never-written" (sender defaultConfig noOptions)
         (world 0 Second reliable)) = (0, None).
Proof.
  split; [apply lookup_empty |].
  apply GetQueueSize_missing_key; [apply lookup_empty | intros []].
Defined.

(** C3, a counterexample to the claim as stated: an empty batch, and a
    send whose context is cancelled before the rate limiter lets it
    through, both fail, and neither raises the error counter, sets the
    last-error text or calls the error handler that is installed. *)
Lemma unrecorded_failures :
  let s := sender defaultConfig withHandlers in
  let w := world 0 Second reliable in
  ErrorHandler (options s) = true /\
  (let out := SendBatch Background "jobs" [] s w in
   snd out = Some (New "messages slice cannot be empty") /\
   errorCount (fst (fst out)) = errorCount s /\
   lastError (fst (fst out)) = lastError s /\
   calls (snd (fst out)) = calls w) /\
  (let out := SendMessageWithTTL cancelled "jobs" (Str "hello") Second s w in
   snd out = Some (Wrap "rate limiter error" Canceled) /\
   errorCount (fst (fst out)) = errorCount s /\
   lastError (fst (fst out)) = lastError s /\
   calls (snd (fst out)) = calls w).
Proof. vm_compute. repeat split. Qed.

(** C3, the amended property at work: a send that fails in the transport
    is counted once and reported once to the error handler. *)
Lemma failure_recorded_once_witness :
  let s := sender defaultConfig withHandlers in
  let w := world 0 Second down in
  let r := SendRequest "jobs" (Str "hello") Second in
  let out := perform r Background s w in
  reachesBreaker r Background s w = true /\
  exists err,
    snd out = Some err /\
    errorCount (fst (fst out)) = 1 /\
    lastError (fst (fst out)) = Error err /\
    calls (snd (fst out)) = [ErrorHandlerCall err].
Proof.
  intros s w r out.
  assert (Hreach : reachesBreaker r Background s w = true) by (vm_compute; reflexivity).
  split; [exact Hreach |].
  destruct out as [[s' w'] [err |]] eqn:Hout;
    [| exfalso; assert (Hs : snd out <> None) by (vm_compute; discriminate);
       apply Hs; subst out; now rewrite Hout].
  exists err. split; [reflexivity |].
  pose proof (failure_recorded_once r Background s s' w w' err Hout) as Hrec.
  rewrite Hreach in Hrec. exact Hrec.
Defined.

(** C5, a counterexample to the claim as stated: the two envelopes of a
    batch of two messages, built while the clock advances, have
    different timestamps. *)
Lemma batch_timestamps_differ :
  match snd (prepareEnvelopes (sender defaultConfig noOptions) "jobs" 0
               [Str "first"; Str "second"] (world 0 Second reliable)) with
  | inl envelopes => map (fun p => Timestamp (fst p)) envelopes = [0; Second]
  | inr _ => False
  end.
Proof. vm_compute. reflexivity. Qed.

(** C5, the amended property at work: the two envelopes of a batch of
    two messages have distinct ids. *)
Lemma batch_envelopes_witness :
  let s := sender defaultConfig noOptions in
  let w := world 0 Second reliable in
  let out := prepareEnvelopes s "jobs" 0 [Str "first"; Str "second"] w in
  exists envelopes,
    snd out = inl envelopes /\
    length envelopes = 2%nat /\
    NoDup (map (fun p => ID (fst p)) envelopes).
Proof.
  intros s w out.
  destruct out as [w1 [envelopes | err]] eqn:Hout;
    [| exfalso; assert (Hs : is_inl (snd out) = true) by (vm_compute; reflexivity);
       subst out; rewrite Hout in Hs; discriminate].
  exists envelopes. split; [reflexivity |].
  pose proof (batch_envelopes Background "jobs" [Str "first"; Str "second"] s w w1
                envelopes Hout (uuids_inj 0 Second reliable)) as (Hlen & Hids & _).
  split; assumption.
Defined.

(** C10 at work: a batch of two messages, sent with success, and the
    two calls to the success handler. *)
Lemma success_metadata_ids_witness :
  let s := sender defaultConfig withHandlers in
  let w := world 0 Second reliable in
  let r := BatchRequest "jobs" [Str "first"; Other (Flag true)] in
  let out := perform r Background s w in
  snd out = None /\
  exists (envelopes : list (MessageEnvelope * bytes)) (metas : list MessageMetadata),
    length envelopes = 2%nat /\ length metas = 2%nat /\
    calls (snd (fst out)) = map SuccessHandlerCall metas /\
    (forall e d md, (e, d) ∈ envelopes -> md ∈ metas -> md_MessageID md <> ID e).
Proof.
  intros s w r out.
  assert (Hnone : snd out = None) by (vm_compute; reflexivity).
  split; [exact Hnone |].
  destruct out as [[s' w'] err] eqn:Hout. cbn in Hnone. subst err.
  destruct (success_metadata_ids r Background s s' w w' Hout eq_refl
              (uuids_inj 0 Second reliable))
    as (envelopes & metas & Hle & Hlm & _ & _ & Hcalls & _ & Hfresh).
  exists envelopes, metas. cbn [fst snd].
  split; [exact Hle |]. split; [exact Hlm |]. split; [exact Hcalls | exact Hfresh].
Defined.

(** C4 at work: 10 messages sent and 6 errors. *)
Lemma Health_status_derivation_witness :
  let s := add_errorCount 6 (add_messagesSent 10 (sender defaultConfig noOptions)) in
  messagesSent s = 10 /\ errorCount s = 6 /\
  Status (fst (fst (Health s (world 0 Second reliable)))) = "unhealthy".
Proof.
  intros s.
  assert (Hm : messagesSent s = 10) by reflexivity.
  assert (He : errorCount s = 6) by reflexivity.
  split; [exact Hm |]. split; [exact He |].
  destruct (Health_status_derivation s (world 0 Second reliable))
    as (_ & _ & Hunhealthy & _).
  exact (Hunhealthy Hm He).
Defined.

(** C1, a counterexample to the claim as stated: a sender built by
    [NewSender] with the default configuration (threshold 3, counting
    interval of two minutes), and five sends in a row that all fail in
    the transport, minutes apart. The interval runs out between the
    failures, the count starts again each time, and after four
    consecutive failures the breaker is still closed: the fifth send
    goes to the transport again and fails there, not with
    [ErrOpenState]. *)
Lemma interval_reset_keeps_breaker_closed :
  let refused := New "dial tcp: connection refused" in
  let failure := Some (Wrap "failed to send message to queue jobs" refused) in
  let start := NewSender (Some defaultConfig) None (world 0 Minute unreachable) in
  let s0 := fst (built defaultConfig None (world 0 Minute unreachable)
                   (sender defaultConfig noOptions)) in
  let w0 := snd start in
  let run := sendRepeatedly 4 Background "jobs" (Str "hello") s0 w0 in
  let s4 := fst (fst run) in
  let w4 := snd (fst run) in
  let fifth := SendMessage Background "jobs" (Str "hello") s4 w4 in
  is_inl (fst start) = true /\
  snd run = [failure; failure; failure; failure] /\
  gobreaker.state (circuitBreaker s4) = gobreaker.StateClosed /\
  snd fifth = failure /\
  trips (snd (fst fifth)) = S (trips w4).
Proof. vm_compute. repeat split. Qed.

Lemma sendRepeatedly_failedSends (n : nat) (ctx : Context) (queue : string)
    (message : Message) :
  forall (s : valkeySender) (w : World),
    failsThroughout n ctx queue message s w = true ->
    failedSends s w n
      (fst (fst (sendRepeatedly n ctx queue message s w)))
      (snd (fst (sendRepeatedly n ctx queue message s w))).
Proof.
  induction n as [| n IH]; intros s w Hall; cbn [sendRepeatedly].
  - constructor.
  - cbn [failsThroughout] in Hall.
    destruct (SendMessage ctx queue message s w) as [[s1 w1] [e |]] eqn:Hsend;
      [| discriminate].
    apply andb_prop in Hall. destruct Hall as [Hall Hrest].
    apply andb_prop in Hall. destruct Hall as [Hall Hxa].
    apply andb_prop in Hall. destruct Hall as [Hall Hxb].
    apply andb_prop in Hall. destruct Hall as [_ Hreach].
    apply negb_true_iff in Hxa, Hxb.
    specialize (IH s1 w1 Hrest).
    destruct (sendRepeatedly n ctx queue message s1 w1) as [[s' w'] errs].
    exact (failedSends_more (SendRequest queue message (MessageTTL (config s))) ctx
             s s1 s' w w1 w' e n Hsend Hreach Hxb Hxa IH).
Qed.

(** C1, the amended property at work: a sender built by [NewSender]
    (threshold 3) and four sends within seconds of each other, to a store
    that cannot be reached. *)
Lemma breaker_opens_then_rejects_witness :
  let start := built defaultConfig None (world 0 Second unreachable)
                 (sender defaultConfig noOptions) in
  let run := sendRepeatedly 4 Background "jobs" (Str "hello") (fst start) (snd start) in
  gobreaker.state (circuitBreaker (fst start)) = gobreaker.StateClosed /\
  gobreaker.state (circuitBreaker (fst (fst run))) = gobreaker.StateOpen.
Proof.
  intros start run.
  assert (Hclosed : gobreaker.state (circuitBreaker (fst start)) = gobreaker.StateClosed)
    by (vm_compute; reflexivity).
  split; [exact Hclosed |].
  apply (breaker_opens_then_rejects 3 4 (fst start) (fst (fst run))
           (snd start) (snd (fst run))).
  - lia.
  - vm_compute; reflexivity.
  - intros c. vm_compute. reflexivity.
  - intros e. vm_compute. reflexivity.
  - exact Hclosed.
  - vm_compute; reflexivity.
  - vm_compute; reflexivity.
  - apply sendRepeatedly_failedSends. vm_compute. reflexivity.
Defined.

(** X1 at work: a pool size that is no number is passed over, and the
    configuration is the default one. *)
Lemma LoadConfig_unusable_value_witness :
  let env : gmap string string := {[ "VALKEY_SENDER_POOL_SIZE" := "many" ]} in
  env !! "VALKEY_SENDER_POOL_SIZE" = Some "many" /\
  LoadConfig env = LoadConfig (delete "VALKEY_SENDER_POOL_SIZE" env) /\
  LoadConfig env = inl defaultConfig.
Proof.
  intros env.
  assert (Hset : env !! "VALKEY_SENDER_POOL_SIZE" = Some "many") by reflexivity.
  split; [exact Hset |]. split; [| vm_compute; reflexivity].
  apply (LoadConfig_unusable_value env "VALKEY_SENDER_POOL_SIZE" "many" Hset).
  right; left. split; [cbn; tauto | vm_compute; discriminate].
Defined.

(** X2 at work: TLS switched on, and no file named. *)
Lemma LoadConfig_TLS_needs_files_witness :
  let env : gmap string string := {[ "VALKEY_SENDER_TLS_ENABLED" := "true" ]} in
  exists e, LoadConfig env = inr (Wrap "configuration validation failed" e).
Proof.
  intros env. apply LoadConfig_TLS_needs_files.
  - vm_compute; reflexivity.
  - left. vm_compute; reflexivity.
Defined.

(** X4 at work: five bytes, decoded into a string and encoded again. *)
Lemma serialize_deserialize_witness :
  exists target',
    JSONSerializer_Deserialize (list_byte_of_string "hello") (StringPtr "")
      = (target', None) /\
    JSONSerializer_Serialize (pointee target') = inl (list_byte_of_string "hello").
Proof.
  apply serialize_deserialize; [discriminate |]. left. now exists "".
Defined.

(** X19 at work: the sender built for the default configuration, in a
    world whose store answers. *)
Lemma NewSender_fresh_witness :
  let out := NewSender (Some defaultConfig) None (world 0 Second reliable) in
  exists s, fst out = inl s /\
    messagesSent s = 0 /\ errorCount s = 0 /\ isConnected s = true /\
    Status (fst (fst (Health s (snd out)))) = "healthy".
Proof.
  intros out.
  destruct out as [[s | e] w'] eqn:Hout;
    [| exfalso; assert (Hs : is_inl (fst out) = true) by (vm_compute; reflexivity);
       subst out; rewrite Hout in Hs; discriminate].
  exists s. split; [reflexivity |].
  destruct (NewSender_fresh defaultConfig None (world 0 Second reliable) w' s Hout)
    as (_ & (Hm & He & _ & Hc & _) & _ & Hhealth).
  destruct (Hhealth w') as (Hst & _).
  auto.
Defined.


(** X5 at work: the breaker of that sender. *)
Lemma NewSender_breaker_witness :
  let out := NewSender (Some defaultConfig) None (world 0 Second reliable) in
  exists s, fst out = inl s /\
    gobreaker.state (circuitBreaker s) = gobreaker.StateClosed /\
    gobreaker.timeout (circuitBreaker s) = 60 * Second.
Proof.
  intros out.
  destruct out as [[s | e] w'] eqn:Hout;
    [| exfalso; assert (Hs : is_inl (fst out) = true) by (vm_compute; reflexivity);
       subst out; rewrite Hout in Hs; discriminate].
  exists s. split; [reflexivity |].
  destruct (NewSender_breaker defaultConfig None (world 0 Second reliable) w' s Hout)
    as (_ & _ & Hst & _ & _ & Hto).
  split; [exact Hst | exact Hto].
Defined.

(** X11 at work: a send to a store that cannot be reached. *)
Lemma round_trip_decides_witness :
  let s := sender defaultConfig noOptions in
  let w := world 0 Second down in
  let out := perform (SendRequest "jobs" (Str "hello") Second) Background s w in
  trips (snd (fst out)) = S (trips w) /\
  snd out = Some (Wrap "failed to send message to queue jobs"
                    (New "dial tcp: connection refused")) /\
  isConnected (fst (fst out)) = false /\
  server (snd (fst out)) = server w.
Proof.
  intros s w out.
  assert (Htrip : trips (snd (fst out)) = S (trips w)) by (vm_compute; reflexivity).
  split; [exact Htrip |].
  destruct out as [[s' w'] err] eqn:Hout. cbn [fst snd] in Htrip |- *.
  destruct (round_trip_decides _ _ _ _ _ _ _ Hout) as [(Htr & _) | (_ & Hnet)].
  - rewrite Htr in Htrip. exfalso. exact (n_Sn _ Htrip).
  - exact Hnet.
Defined.

(** X14 at work: a nil message. *)
Lemma error_kinds_witness :
  let s := sender defaultConfig noOptions in
  let w := world 0 Second reliable in
  let out := perform (SendRequest "jobs" Nil Second) Background s w in
  snd out = Some (Wrap "failed to serialize message" (New "message cannot be nil")) /\
  trips (snd (fst out)) = trips w.
Proof.
  intros s w out.
  assert (Herr : snd out
                 = Some (Wrap "failed to serialize message" (New "message cannot be nil")))
    by (vm_compute; reflexivity).
  split; [exact Herr |].
  destruct out as [[s' w'] err] eqn:Hout. cbn [fst snd] in Herr |- *. subst err.
  destruct (error_kinds _ _ _ _ _ _ _ Hout)
    as [[Hx _] | [(c & Hx & _) | [[[Hx | Hx] _] | [(p & c & _ & _ & _ & _ & Htr)
                                                   | (c & Hx & _)]]]];
    try discriminate; exact Htr.
Defined.

(** X12 at work: a send whose context was cancelled beforehand. *)
Lemma limiter_rejection_witness :
  let s := sender defaultConfig noOptions in
  let w := world 0 Second reliable in
  let out := perform (SendRequest "jobs" (Str "hello") Second) cancelled s w in
  passesLimiter cancelled s w = false /\
  exists c, snd out = Some (Wrap "rate limiter error" c) /\
            trips (snd (fst out)) = trips w /\
            circuitBreaker (fst (fst out)) = circuitBreaker s.
Proof.
  intros s w out.
  assert (Hturned : passesLimiter cancelled s w = false) by (vm_compute; reflexivity).
  split; [exact Hturned |].
  destruct out as [[s' w'] err] eqn:Hout. cbn [fst snd].
  destruct (limiter_rejection _ _ _ _ _ _ _ Hout) as (lim & c & _ & -> & -> & _ & Htr & _);
    [cbn; lia | exact Hturned |].
  exists c. auto.
Defined.

(** X13 at work: a fifth send, after four that failed within seconds
    of each other. *)
Lemma breaker_rejection_runs_nothing_witness :
  let start := built defaultConfig None (world 0 Second unreachable)
                 (sender defaultConfig noOptions) in
  let run := sendRepeatedly 4 Background "jobs" (Str "hello") (fst start) (snd start) in
  let s4 := fst (fst run) in
  let w4 := snd (fst run) in
  let out := perform (SendRequest "jobs" (Str "hello") Second) Background s4 w4 in
  snd out = Some ErrOpenState /\
  trips (snd (fst out)) = trips w4 /\ drawn (snd (fst out)) = drawn w4.
Proof.
  intros start run s4 w4 out.
  assert (Herr : snd out = Some ErrOpenState) by (vm_compute; reflexivity).
  split; [exact Herr |].
  destruct out as [[s' w'] err] eqn:Hout. cbn [fst snd] in Herr |- *. subst err.
  destruct (breaker_rejection_runs_nothing _ _ _ _ _ _ _ Hout (or_introl eq_refl))
    as (_ & _ & Htr & Hdr & _).
  split; assumption.
Defined.

(** X9 at work: a batch of three whose second message is nil. *)
Lemma unserializable_message_sends_nothing_witness :
  let s := sender defaultConfig noOptions in
  let w := world 0 Second reliable in
  let out := perform (BatchRequest "jobs" [Str "first"; Nil; Str "third"]) Background s w in
  snd out <> None /\ server (snd (fst out)) = server w /\ trips (snd (fst out)) = trips w.
Proof.
  intros s w out.
  destruct out as [[s' w'] err] eqn:Hout. cbn [fst snd].
  destruct (unserializable_message_sends_nothing _ _ _ _ _ _ _ Nil
              (New "message cannot be nil") Hout)
    as (Herr & Hsv & Htr & _).
  - cbn. apply list_elem_of_lookup. now exists 1%nat.
  - reflexivity.
  - auto.
Defined.

(** X6 at work: a batch of two, sent with success. *)
Lemma success_queue_contents_witness :
  let s := sender defaultConfig noOptions in
  let w := world 0 Second reliable in
  let out := perform (BatchRequest "jobs" [Str "first"; Str "second"]) Background s w in
  snd out = None /\
  exists envelopes : list (MessageEnvelope * bytes),
    map (fun p => Payload (fst p)) envelopes
      = [list_byte_of_string "first"; list_byte_of_string "second"] /\
    lists (server (snd (fst out))) !! "queue:jobs" = Some (rev (map snd envelopes)) /\
    expirations (server (snd (fst out))) !! "queue:jobs" = Some (24 * Hour).
Proof.
  intros s w out.
  assert (Hnone : snd out = None) by (vm_compute; reflexivity).
  split; [exact Hnone |].
  destruct out as [[s' w'] err] eqn:Hout. cbn [fst snd] in Hnone |- *. subst err.
  destruct (success_queue_contents _ _ _ _ _ _ Hout) as (envelopes & Hwr & Hl & Hx & _);
    [reflexivity |].
  exists envelopes. split; [| split; [| exact Hx]].
  - cbn in Hwr. inversion Hwr as [| m1 p1 l1 k1 H1 Hwr1]; subst.
    inversion Hwr1 as [| m2 p2 l2 k2 H2 Hwr2]; subst.
    inversion Hwr2; subst.
    destruct H1 as (H1 & _). destruct H2 as (H2 & _). cbn in H1, H2 |- *.
    injection H1 as <-. injection H2 as <-. reflexivity.
  - replace (lists (server w) !! getQueueKey s "jobs") with (@None (list bytes)) in Hl
      by reflexivity.
    cbn [default from_option] in Hl. rewrite app_nil_r in Hl. exact Hl.
Defined.

(** X10 at work: the same batch, counted. *)
Lemma success_accounting_witness :
  let s := sender defaultConfig noOptions in
  let w := world 0 Second reliable in
  let out := perform (BatchRequest "jobs" [Str "first"; Str "second"]) Background s w in
  snd out = None /\
  messagesSent (fst (fst out)) = 2 /\ errorCount (fst (fst out)) = 0.
Proof.
  intros s w out.
  assert (Hnone : snd out = None) by (vm_compute; reflexivity).
  split; [exact Hnone |].
  destruct out as [[s' w'] err] eqn:Hout. cbn [fst snd] in Hnone |- *. subst err.
  destruct (success_accounting _ _ _ _ _ _ Hout) as (Hm & He & _).
  split; [exact Hm | exact He].
Defined.

(** X7 at work: the size of the queue after that batch. *)
Lemma size_after_success_witness :
  let s := sender defaultConfig noOptions in
  let w := world 0 Second reliable in
  let out := perform (BatchRequest "jobs" [Str "first"; Str "second"]) Background s w in
  snd out = None /\
  fst (GetQueueSize Background "jobs" (fst (fst out)) (snd (fst out))) = (2, None).
Proof.
  intros s w out.
  assert (Hnone : snd out = None) by (vm_compute; reflexivity).
  split; [exact Hnone |].
  destruct out as [[s' w'] err] eqn:Hout. cbn [fst snd] in Hnone |- *. subst err.
  assert (Hnet : network w' (trips w') = Answered).
  { change w' with (snd (fst (s', w', @None error))). rewrite <- Hout.
    vm_compute. reflexivity. }
  exact (size_after_success _ _ Background _ _ _ _ Hout eq_refl Hnet).
Defined.

(** X8 at work: the queue next to the one the batch went to. *)
Lemma other_queues_untouched_witness :
  let s := sender defaultConfig noOptions in
  let w := world 0 Second reliable in
  let out := perform (BatchRequest "jobs" [Str "first"; Str "second"]) Background s w in
  lists (server (snd (fst out))) !! "queue:mail" = None.
Proof.
  intros s w out.
  destruct out as [[s' w'] err] eqn:Hout. cbn [fst snd].
  destruct (other_queues_untouched _ _ _ _ _ _ _ "mail" Hout) as (_ & Hl & _);
    [cbn; discriminate |].
  exact Hl.
Defined.

(** X16 at work: three messages counted as sent, one failure counted. *)
Lemma counters_over_calls_witness :
  let s := sender defaultConfig noOptions in
  let w := world 0 Second reliable in
  let out := performAll fourCalls s w in
  messagesSent (fst (fst out)) = 3 /\ errorCount (fst (fst out)) = 1.
Proof.
  intros s w out.
  destruct out as [[s' w'] errs] eqn:Hout. cbn [fst snd].
  destruct (counters_over_calls _ _ _ _ _ _ Hout) as (_ & Hm & He);
    [cbn; lia | cbn; lia |].
  rewrite Hm, He. split; vm_compute; reflexivity.
Defined.

(** X17 at work: the three messages are on the list. *)
Lemma acknowledged_messages_are_stored_witness :
  let s := sender defaultConfig noOptions in
  let w := world 0 Second reliable in
  let out := performAll fourCalls s w in
  queueLength "queue:jobs" (snd (fst out)) = 3%nat.
Proof.
  intros s w out.
  destruct out as [[s' w'] errs] eqn:Hout. cbn [fst snd].
  destruct (acknowledged_messages_are_stored _ _ _ _ _ _ "queue:jobs" Hout) as [_ Heq].
  - repeat constructor.
  - rewrite Heq; [vm_compute; reflexivity |]. intros k e. discriminate.
Defined.

(** X21 at work: ten messages sent and no error. *)
Lemma Health_no_errors_witness :
  let s := add_messagesSent 10 (sender defaultConfig noOptions) in
  Status (fst (fst (Health s (world 0 Second reliable)))) = "healthy".
Proof.
  intros s. apply Health_no_errors; [reflexivity |].
  change (0 <= 10 < 2 ^ 63 - 1). lia.
Defined.

(** X15 at work: what the success handler is told of a batch of two. *)
Lemma success_handler_calls_witness :
  let s := sender defaultConfig withHandlers in
  let w := world 0 Second reliable in
  let out := perform (BatchRequest "jobs" [Str "first"; Str "second"]) Background s w in
  snd out = None /\
  calls (snd (fst out)) =
    [SuccessHandlerCall (metadataFor "jobs" 0 (24 * Hour) 0 "id-2");
     SuccessHandlerCall (metadataFor "jobs" 0 (24 * Hour) 1 "id-3")].
Proof.
  intros s w out.
  assert (Hnone : snd out = None) by (vm_compute; reflexivity).
  split; [exact Hnone |].
  destruct out as [[s' w'] err] eqn:Hout. cbn [fst snd] in Hnone |- *. subst err.
  rewrite (success_handler_calls _ _ _ _ _ _ Hout). vm_compute. reflexivity.
Defined.

(** X23 at work: the first send of a new sender, to a store that
    cannot be reached any more. *)
Lemma first_failure_is_unhealthy_witness :
  let start := built defaultConfig None (world 0 Second unreachable)
                 (sender defaultConfig noOptions) in
  let out := perform (SendRequest "jobs" (Str "hello") Second) Background
               (fst start) (snd start) in
  snd out <> None /\
  Status (fst (fst (Health (fst (fst out)) (snd (fst out))))) = "unhealthy".
Proof.
  intros start out.
  assert (Herr : snd out <> None) by (vm_compute; discriminate).
  split; [exact Herr |].
  destruct out as [[s' w'] [e |]] eqn:Hout; [| now cbn in Herr].
  cbn [fst snd].
  apply (first_failure_is_unhealthy (SendRequest "jobs" (Str "hello") Second) Background
           (fst start) s' (snd start) w' w' e eq_refl eq_refl Hout).
  vm_compute. reflexivity.
Defined.

(** X24 at work: a batch of two takes one token of the two thousand. *)
Lemma limiter_consulted_once_witness :
  let s := sender defaultConfig noOptions in
  let w := world 0 Second reliable in
  let out := perform (BatchRequest "jobs" [Str "first"; Str "second"]) Background s w in
  TokenBucket.level (rateLimiter (fst (fst out))) = 1999 * TokenBucket.token.
Proof.
  intros s w out.
  destruct out as [[s' w'] err] eqn:Hout. cbn [fst snd].
  rewrite (limiter_consulted_once _ _ _ _ _ _ _ Hout). vm_compute. reflexivity.
Defined.

(** X25 at work: a batch of three whose second message is nil. *)
Lemma batch_error_names_first_refused_witness :
  let s := sender defaultConfig noOptions in
  let w := world 0 Second reliable in
  exists w',
    sendBatchInternal Background "jobs" [Str "first"; Nil; Str "third"] s w
      = (s, w', Some (Wrap "failed to serialize message 1" (New "message cannot be nil"))) /\
    drawn w' = 2%nat.
Proof.
  intros s w.
  destruct (batch_error_names_first_refused Background "jobs"
              [Str "first"; Nil; Str "third"] s w 1 Nil (New "message cannot be nil"))
    as (w' & Hrun & Hdr & _).
  - reflexivity.
  - reflexivity.
  - intros [| j] mj Hj Hmj; [| lia]. cbn in Hmj. injection Hmj as <-. reflexivity.
  - intros envelope. reflexivity.
  - exists w'. split; [exact Hrun | exact Hdr].
Defined.

End Examples.
